(** * ERP-cameras: order costing (core/models.py, core/admin.py)

    A shallow embedding of the costing logic of the Django application:
    the proportional distribution of an order-level cost over the items
    of a [Pedido], the derived fields computed by [Articulo.save], the
    read-only properties [coste_adquisicion_total] and [beneficio], the
    per-item profit annotation of the admin change list and the two
    admin actions.

    Python's [decimal.Decimal] is embedded as a signed coefficient with a
    decimal exponent; arithmetic follows the default context (28
    significant digits, ROUND_HALF_EVEN).  The exponent limits of the
    context (Emax = 999999, Emin = -999999) lie far outside anything a
    [DecimalField(max_digits=10)] column can produce and are not
    represented; neither are NaN, infinities and the sign of zero.
    The annotations of the change list are computed by the database:
    they are embedded with the binary floating point of SQLite. *)

From Stdlib Require Import ZArith List Bool Lia String.
From Stdlib Require Import Reals Lra.
Import ListNotations.

Local Open Scope Z_scope.

(** ** Python exceptions and results *)

Inductive exn : Type :=
| TypeError            (* an operand is None *)
| InvalidOperation     (* decimal: 0/0, quantize result too long *)
| DivisionByZero       (* decimal: x/0 *)
| IntegrityError       (* NOT NULL constraint of the storage layer *)
| DoesNotExist         (* related object lookup failed *)
| ValueError.          (* bulk_update of an object without primary key *)

Inductive Result (A : Type) : Type :=
| Ok (a : A)
| Raise (e : exn).

Arguments Ok {A} a.
Arguments Raise {A} e.

Definition is_ok {A} (r : Result A) : bool :=
  match r with Ok _ => true | Raise _ => false end.

(** ** decimal.Decimal *)

Module Dec.

Record t : Type := mk { coeff : Z; exp : Z }.

(** Context precision of [decimal.getcontext()]. *)
Definition prec : Z := 28.

(** [len(str(n))] for a non-negative integer [n]. *)
Fixpoint ndigits_fuel (fuel : nat) (n : Z) : Z :=
  match fuel with
  | O => 1
  | S f => if n <? 10 then 1 else 1 + ndigits_fuel f (n / 10)
  end.

Definition ndigits (n : Z) : Z :=
  ndigits_fuel (S (Z.to_nat (Z.log2 n))) n.

(** ROUND_HALF_EVEN of [c / m] for [m > 0]: the digits below [m] are
    dropped, and the kept part is incremented in magnitude when the
    dropped part is above one half, or equal to one half with an odd
    kept part. *)
Definition rhe_div (c m : Z) : Z :=
  let q := Z.abs c / m in
  let r := Z.abs c mod m in
  let up := (m <? 2 * r) || ((2 * r =? m) && Z.odd q) in
  Z.sgn c * (if up then q + 1 else q).

(** [Decimal._fix]: round to the context precision. *)
Definition _fix_prec (p : Z) (d : t) : t :=
  let n := ndigits (Z.abs (coeff d)) in
  if n <=? p then d
  else
    let k := n - p in
    let r := rhe_div (coeff d) (10 ^ k) in
    if p <? ndigits (Z.abs r)
    then mk (Z.quot r 10) (exp d + k + 1)
    else mk r (exp d + k).

Definition _fix (d : t) : t := _fix_prec prec d.

(** [Decimal._rescale(exp, ROUND_HALF_EVEN)]. *)
Definition _rescale (e : Z) (d : t) : t :=
  if coeff d =? 0 then mk 0 e
  else if e <=? exp d then mk (coeff d * 10 ^ (exp d - e)) e
  else mk (rhe_div (coeff d) (10 ^ (e - exp d))) e.

(** [bool(d)]. *)
Definition truthy (d : t) : bool := negb (coeff d =? 0).

Definition neg (d : t) : t := mk (- coeff d) (exp d).

(** Exact sum at the smaller exponent (no rounding). *)
Definition add_exact (a b : t) : t :=
  let e := Z.min (exp a) (exp b) in
  mk (coeff a * 10 ^ (exp a - e) + coeff b * 10 ^ (exp b - e)) e.

(** [a + b], [a - b], [a * b] in the context. *)
Definition add (a b : t) : t := _fix (add_exact a b).
Definition sub (a b : t) : t := add a (neg b).
Definition mul (a b : t) : t := _fix (mk (coeff a * coeff b) (exp a + exp b)).

(** The loop of [__truediv__] that brings an exact quotient as close
    to the ideal exponent as possible. *)
Fixpoint strip_zeros (fuel : nat) (c e : Z) : Z * Z :=
  match fuel with
  | O => (c, e)
  | S f => if c mod 10 =? 0 then strip_zeros f (c / 10) (e + 1) else (c, e)
  end.

(** [a / b]. *)
Definition div (a b : t) : Result t :=
  if coeff b =? 0 then
    if coeff a =? 0 then Raise InvalidOperation else Raise DivisionByZero
  else if coeff a =? 0 then Ok (_fix (mk 0 (exp a - exp b)))
  else
    let sg := Z.sgn (coeff a) * Z.sgn (coeff b) in
    let ca := Z.abs (coeff a) in
    let cb := Z.abs (coeff b) in
    let shift := ndigits cb - ndigits ca + prec + 1 in
    let e := exp a - exp b - shift in
    let num := if 0 <=? shift then ca * 10 ^ shift else ca in
    let den := if 0 <=? shift then cb else cb * 10 ^ (- shift) in
    let q := num / den in
    let r := num mod den in
    if r =? 0 then
      let '(q', e') := strip_zeros (Z.to_nat (exp a - exp b - e)) q e in
      Ok (_fix (mk (sg * q') e'))
    else
      let q' := if q mod 5 =? 0 then q + 1 else q in
      Ok (_fix (mk (sg * q') e)).

(** Three-way comparison of the numerical values. *)
Definition compare (a b : t) : comparison :=
  let e := Z.min (exp a) (exp b) in
  Z.compare (coeff a * 10 ^ (exp a - e)) (coeff b * 10 ^ (exp b - e)).

Definition gtb (a b : t) : bool :=
  match compare a b with Gt => true | _ => false end.

Definition eqb (a b : t) : bool :=
  match compare a b with Eq => true | _ => false end.

(** [Decimal(n)] for an integer literal. *)
Definition of_int (n : Z) : t := mk n 0.

(** [round(d)] without [ndigits]: an [int], ties to even. *)
Definition round_int (d : t) : Z := coeff (_rescale 0 d).

(** [d.quantize(Decimal(1).scaleb(e), context)] with [context.prec = p]. *)
Definition quantize (p : Z) (e : Z) (d : t) : Result t :=
  if coeff d =? 0 then Ok (mk 0 e)
  else if p <? ndigits (Z.abs (coeff d)) + exp d - e then Raise InvalidOperation
  else
    let ans := _rescale e d in
    if p <? ndigits (Z.abs (coeff ans)) then Raise InvalidOperation
    else Ok ans.

(** The real number denoted by a decimal. *)
Definition toR (d : t) : R := (IZR (coeff d) * powerRZ 10 (exp d))%R.

End Dec.

Definition D (c e : Z) : Dec.t := Dec.mk c e.

(** Powers of ten over the reals, and half a unit in the 28th digit. *)
Definition p10 (e : Z) : R := powerRZ 10 e.

Definition u28 : R := (/ 2 * p10 (-27))%R.

(** ** Operators on Python values that may be [None] *)

Definition raise_ {A} (e : exn) : Result A := Raise e.

Definition rbind {A B} (r : Result A) (f : A -> Result B) : Result B :=
  match r with Ok a => f a | Raise e => Raise e end.

Notation "x <-r c1 ; c2" := (rbind c1 (fun x => c2))
  (at level 61, c1 at next level, right associativity).

(** [a + b], [a - b], [a * b]: [TypeError] when an operand is [None]. *)
Definition py_add (a b : option Dec.t) : Result Dec.t :=
  match a, b with
  | Some x, Some y => Ok (Dec.add x y)
  | _, _ => Raise TypeError
  end.

Definition py_sub (a b : option Dec.t) : Result Dec.t :=
  match a, b with
  | Some x, Some y => Ok (Dec.sub x y)
  | _, _ => Raise TypeError
  end.

Definition py_mul (a b : option Dec.t) : Result Dec.t :=
  match a, b with
  | Some x, Some y => Ok (Dec.mul x y)
  | _, _ => Raise TypeError
  end.

(** [a > 0]. *)
Definition py_gt0 (a : option Dec.t) : Result bool :=
  match a with
  | Some x => Ok (Dec.gtb x (Dec.of_int 0))
  | None => Raise TypeError
  end.

(** Truth value of a field: [None] and zero are false. *)
Definition py_truthy (a : option Dec.t) : bool :=
  match a with Some x => Dec.truthy x | None => false end.

(** [a or Decimal('0.00')]. *)
Definition or_cero (a : option Dec.t) : Dec.t :=
  match a with
  | Some x => if Dec.truthy x then x else D 0 (-2)
  | None => D 0 (-2)
  end.

(** ** The data model (core/models.py) *)

Inductive TipoArticulo : Type := BODY | LENTE | COMPLETA | OTROS.
Inductive EstadoArticulo : Type := VENDIDO | COLECCION | DESECHADO.

Record Pedido : Type := mkPedido {
  pedido_pk : Z;
  descripcion : string;
  coste_envio_agrupado : option Dec.t;
  gastos_aduana : option Dec.t;
  tasa_cambio_eur_jpy : option Dec.t;
  tasa_iva : option Dec.t
}.

Record Articulo : Type := mkArticulo {
  pk : option Z;
  pedido_id : Z;
  nombre : string;
  tipo_articulo : TipoArticulo;
  coste_euro : option Dec.t;
  coste_envio_individual : option Dec.t;
  coste_yen : option Z;
  iva : option Dec.t;
  aduana_imputada : option Dec.t;
  precio_venta : option Dec.t;
  venta_objetiva : option Dec.t;
  coste_envio_nacional : option Dec.t;
  estado : EstadoArticulo
}.

(** The two fields a distribution may target
    ([campo_articulo_destino]). *)
Inductive Campo : Type := campo_aduana_imputada | campo_coste_envio_individual.

Definition getattr (a : Articulo) (f : Campo) : option Dec.t :=
  match f with
  | campo_aduana_imputada => aduana_imputada a
  | campo_coste_envio_individual => coste_envio_individual a
  end.

Definition setattr (a : Articulo) (f : Campo) (v : option Dec.t) : Articulo :=
  match f with
  | campo_aduana_imputada =>
      mkArticulo (pk a) (pedido_id a) (nombre a) (tipo_articulo a) (coste_euro a)
        (coste_envio_individual a) (coste_yen a) (iva a) v
        (precio_venta a) (venta_objetiva a) (coste_envio_nacional a) (estado a)
  | campo_coste_envio_individual =>
      mkArticulo (pk a) (pedido_id a) (nombre a) (tipo_articulo a) (coste_euro a)
        v (coste_yen a) (iva a) (aduana_imputada a)
        (precio_venta a) (venta_objetiva a) (coste_envio_nacional a) (estado a)
  end.

Definition set_iva (a : Articulo) (v : option Dec.t) : Articulo :=
  mkArticulo (pk a) (pedido_id a) (nombre a) (tipo_articulo a) (coste_euro a)
    (coste_envio_individual a) (coste_yen a) v (aduana_imputada a)
    (precio_venta a) (venta_objetiva a) (coste_envio_nacional a) (estado a).

Definition set_coste_yen (a : Articulo) (v : option Z) : Articulo :=
  mkArticulo (pk a) (pedido_id a) (nombre a) (tipo_articulo a) (coste_euro a)
    (coste_envio_individual a) v (iva a) (aduana_imputada a)
    (precio_venta a) (venta_objetiva a) (coste_envio_nacional a) (estado a).

Definition set_pk (a : Articulo) (k : Z) : Articulo :=
  mkArticulo (Some k) (pedido_id a) (nombre a) (tipo_articulo a) (coste_euro a)
    (coste_envio_individual a) (coste_yen a) (iva a) (aduana_imputada a)
    (precio_venta a) (venta_objetiva a) (coste_envio_nacional a) (estado a).

(** ** The storage layer *)

(** The two tables. *)
Record DB : Type := mkDB {
  pedidos : list Pedido;
  articulos : list Articulo
}.

(** A computation runs against the database; it ends with a value or
    with an exception, leaves a database behind (an exception does not
    undo the writes made before it) and has performed some number of
    decimal divisions. *)
Record Outcome (A : Type) : Type := mkOutcome {
  res : Result A;
  db_after : DB;
  divisions : nat
}.

Arguments mkOutcome {A} res db_after divisions.
Arguments res {A} o.
Arguments db_after {A} o.
Arguments divisions {A} o.

Definition M (A : Type) : Type := DB -> Outcome A.

Definition ret {A} (a : A) : M A := fun db => mkOutcome (Ok a) db O.

Definition bind {A B} (m : M A) (f : A -> M B) : M B :=
  fun db =>
    let o := m db in
    match res o with
    | Ok a =>
        let o' := f a (db_after o) in
        mkOutcome (res o') (db_after o') (divisions o + divisions o')
    | Raise e => mkOutcome (Raise e) (db_after o) (divisions o)
    end.

Notation "x <- c1 ;; c2" := (bind c1 (fun x => c2))
  (at level 61, c1 at next level, right associativity).
Notation "c1 ;;; c2" := (bind c1 (fun _ => c2))
  (at level 61, right associativity).

Definition lift {A} (r : Result A) : M A := fun db => mkOutcome r db O.

Definition get_db : M DB := fun db => mkOutcome (Ok db) db O.

Definition put_articulos (l : list Articulo) : M unit :=
  fun db => mkOutcome (Ok tt) (mkDB (pedidos db) l) O.

(** [a / b] on field values; every evaluation counts as one division. *)
Definition py_truediv (a b : option Dec.t) : M Dec.t :=
  fun db =>
    match a, b with
    | Some x, Some y => mkOutcome (Dec.div x y) db 1
    | _, _ => mkOutcome (Raise TypeError) db O
    end.

(** [@transaction.atomic]: when the body raises, the database is put
    back to what it was on entry and the exception propagates. *)
Definition transaction_atomic {A} (body : M A) : M A :=
  fun db =>
    let o := body db in
    match res o with
    | Ok _ => o
    | Raise e => mkOutcome (Raise e) db (divisions o)
    end.

(** [DecimalField.get_db_prep_save] through
    [BaseDatabaseOperations.adapt_decimalfield_value]: the value is
    quantized to [decimal_places] in a context of [max_digits] digits. *)
Definition adapt_decimalfield_value (max_digits decimal_places : Z)
    (v : option Dec.t) : Result (option Dec.t) :=
  match v with
  | None => Ok None
  | Some d => x <-r Dec.quantize max_digits (- decimal_places) d ; Ok (Some x)
  end.

(** A NOT NULL column rejects [None]. *)
Definition not_null {A} (v : option A) : Result (option A) :=
  match v with Some _ => Ok v | None => Raise IntegrityError end.

(** What the column of a target field stores for a value:
    [aduana_imputada] is NOT NULL, [coste_envio_individual] is nullable;
    both are [DecimalField(max_digits=10, decimal_places=2)]. *)
Definition prep_campo (f : Campo) (v : option Dec.t) : Result (option Dec.t) :=
  x <-r adapt_decimalfield_value 10 2 v ;
  match f with
  | campo_aduana_imputada => not_null x
  | campo_coste_envio_individual => Ok x
  end.

Definition pk_eqb (a b : option Z) : bool :=
  match a, b with
  | Some x, Some y => x =? y
  | _, _ => false
  end.

(** [self.articulos.all()]: the rows whose foreign key is the order. *)
Definition articulos_de (self : Pedido) (db : DB) : list Articulo :=
  filter (fun a => pedido_id a =? pedido_pk self) (articulos db).

(** SQL [SUM]: exact, NULLs skipped, NULL when nothing was added. *)
Fixpoint sql_sum (l : list (option Dec.t)) : option Dec.t :=
  match l with
  | [] => None
  | v :: r =>
      match v, sql_sum r with
      | None, s => s
      | Some x, None => Some x
      | Some x, Some s => Some (Dec.add_exact x s)
      end
  end.

(** [articulos.aggregate(total=Sum('coste_euro'))['total']]. *)
Definition aggregate_sum_coste_euro (rows : list Articulo) : option Dec.t :=
  sql_sum (map coste_euro rows).

Definition existsb_pk_none (objs : list Articulo) : bool :=
  existsb (fun o => match pk o with None => true | Some _ => false end) objs.

(** One UPDATE of a target column for the row of a given key. *)
Definition update_campo (k : option Z) (f : Campo) (v : option Dec.t)
    (tbl : list Articulo) : list Articulo :=
  map (fun r => if pk_eqb (pk r) k then setattr r f v else r) tbl.

(** [Articulo.objects.bulk_update(objs, [campo])].  The objects are
    written one after the other (the case of batches of size one): the
    value of an object is prepared for its column when its turn comes,
    so a value the column rejects stops the update after the earlier
    objects have been written. *)
Fixpoint bulk_update_writes (objs : list Articulo) (f : Campo) : M unit :=
  match objs with
  | [] => ret tt
  | o :: rest =>
      v <- lift (prep_campo f (getattr o f)) ;;
      db <- get_db ;;
      put_articulos (update_campo (pk o) f v (articulos db)) ;;;
      bulk_update_writes rest f
  end.

Definition bulk_update (objs : list Articulo) (f : Campo) : M unit :=
  if existsb_pk_none objs then lift (Raise ValueError)
  else bulk_update_writes objs f.

(** ** Pedido *)

(** The body of the loop of [_distribuir_coste]: the share of every
    article, assigned to the target attribute of the in-memory object. *)
Fixpoint distribuir_bucle (coste_total_pedido : option Dec.t)
    (total_coste_base : Dec.t) (campo : Campo) (rows : list Articulo)
    : M (list Articulo) :=
  match rows with
  | [] => ret []
  | articulo :: rest =>
      proporcion <- py_truediv (coste_euro articulo) (Some total_coste_base) ;;
      coste_calculado <- lift (py_mul coste_total_pedido (Some proporcion)) ;;
      actualizados <- distribuir_bucle coste_total_pedido total_coste_base campo rest ;;
      ret (setattr articulo campo (Some coste_calculado) :: actualizados)
  end.

(** [_distribuir_coste] without its decorator. *)
Definition distribuir_coste_cuerpo (self : Pedido)
    (coste_total_pedido : option Dec.t) (campo : Campo) : M bool :=
  positivo <- lift (py_gt0 coste_total_pedido) ;;
  db <- get_db ;;
  let rows := articulos_de self db in
  if positivo && negb (match rows with [] => true | _ => false end) then
    let total_coste_base := or_cero (aggregate_sum_coste_euro rows) in
    if Dec.gtb total_coste_base (Dec.of_int 0) then
      a_actualizar <- distribuir_bucle coste_total_pedido total_coste_base campo rows ;;
      match a_actualizar with
      | [] => ret false
      | _ :: _ => bulk_update a_actualizar campo ;;; ret true
      end
    else ret false
  else ret false.

Definition _distribuir_coste (self : Pedido)
    (coste_total_pedido : option Dec.t) (campo : Campo) : M bool :=
  transaction_atomic (distribuir_coste_cuerpo self coste_total_pedido campo).

Definition distribuir_gastos_aduana (self : Pedido) : M bool :=
  _distribuir_coste self (gastos_aduana self) campo_aduana_imputada.

Definition distribuir_coste_envio (self : Pedido) : M bool :=
  _distribuir_coste self (coste_envio_agrupado self) campo_coste_envio_individual.

(** ** Articulo *)

(** [self.pedido]: the related order, fetched by the foreign key. *)
Definition buscar_pedido (k : Z) (db : DB) : option Pedido :=
  find (fun p => pedido_pk p =? k) (pedidos db).

Definition self_pedido (self : Articulo) : M Pedido :=
  fun db =>
    match buscar_pedido (pedido_id self) db with
    | Some p => mkOutcome (Ok p) db O
    | None => mkOutcome (Raise DoesNotExist) db O
    end.

(** Step 1 of [save]: the VAT. *)
Definition calcular_iva (p : Pedido) (self : Articulo) : Articulo :=
  match tasa_iva p, coste_euro self with
  | Some t, Some c =>
      if Dec.truthy t && Dec.truthy c
      then set_iva self (Some (Dec.mul c t))
      else self
  | _, _ => self
  end.

(** Step 2 of [save]: the cost in yen. *)
Definition calcular_coste_yen (p : Pedido) (self : Articulo) : Articulo :=
  match tasa_cambio_eur_jpy p, coste_euro self with
  | Some t, Some c =>
      if Dec.truthy t && Dec.truthy c
      then set_coste_yen self (Some (Dec.round_int (Dec.mul c t)))
      else self
  | _, _ => self
  end.

(** The row written for an object: every decimal column holds the
    value quantized to two places within ten digits, and the columns
    declared without [null=True] reject [None]. *)
Definition fila_de (self : Articulo) : Result Articulo :=
  ce <-r rbind (adapt_decimalfield_value 10 2 (coste_euro self)) not_null ;
  cei <-r adapt_decimalfield_value 10 2 (coste_envio_individual self) ;
  i <-r adapt_decimalfield_value 10 2 (iva self) ;
  ai <-r rbind (adapt_decimalfield_value 10 2 (aduana_imputada self)) not_null ;
  pv <-r rbind (adapt_decimalfield_value 10 2 (precio_venta self)) not_null ;
  vo <-r rbind (adapt_decimalfield_value 10 2 (venta_objetiva self)) not_null ;
  cen <-r rbind (adapt_decimalfield_value 10 2 (coste_envio_nacional self)) not_null ;
  Ok (mkArticulo (pk self) (pedido_id self) (nombre self) (tipo_articulo self)
        ce cei (coste_yen self) i ai pv vo cen (estado self)).

Definition max_pk (tbl : list Articulo) : Z :=
  fold_right (fun r m => match pk r with Some k => Z.max k m | None => m end) 0 tbl.

Definition buscar_articulo (k : Z) (db : DB) : option Articulo :=
  find (fun r => pk_eqb (pk r) (Some k)) (articulos db).

(** [models.Model.save]: UPDATE of the row with the key of the object,
    INSERT when the object has no key or no row has it.  Returns the
    object, which now carries its key; its attributes stay as they were
    in memory. *)
Definition super_save (self : Articulo) : M Articulo :=
  fun db =>
    match pk self with
    | Some k =>
        match fila_de self with
        | Raise e => mkOutcome (Raise e) db O
        | Ok fila =>
            match buscar_articulo k db with
            | Some _ =>
                mkOutcome (Ok self)
                  (mkDB (pedidos db)
                     (map (fun r => if pk_eqb (pk r) (Some k) then fila else r)
                        (articulos db))) O
            | None =>
                mkOutcome (Ok self) (mkDB (pedidos db) (articulos db ++ [fila])) O
            end
        end
    | None =>
        let k := max_pk (articulos db) + 1 in
        match fila_de (set_pk self k) with
        | Raise e => mkOutcome (Raise e) db O
        | Ok fila =>
            mkOutcome (Ok (set_pk self k))
              (mkDB (pedidos db) (articulos db ++ [fila])) O
        end
    end.

(** [Articulo.save].  The related order is fetched on the first access
    to [self.pedido] and cached on the object. *)
Definition save (self : Articulo) : M Articulo :=
  p <- self_pedido self ;;
  let self1 := calcular_iva p self in
  let self2 := calcular_coste_yen p self1 in
  super_save self2.

(** [Articulo.coste_adquisicion_total]. *)
Definition coste_adquisicion_total (self : Articulo) : Result Dec.t :=
  let iva_ := or_cero (iva self) in
  s1 <-r py_add (coste_euro self) (Some iva_) ;
  s2 <-r py_add (Some s1) (coste_envio_individual self) ;
  s3 <-r py_add (Some s2) (aduana_imputada self) ;
  py_add (Some s3) (coste_envio_nacional self).

(** [Articulo.beneficio]. *)
Definition beneficio (self : Articulo) : Result (option Dec.t) :=
  match precio_venta self with
  | Some pv =>
      coste_total <-r coste_adquisicion_total self ;
      d <-r py_sub (Some pv) (Some coste_total) ;
      b <-r py_sub (Some d) (coste_envio_nacional self) ;
      Ok (Some b)
  | None => Ok None
  end.

(** ** Binary floating point, as SQLite computes *)

(** The annotations of the admin change list are evaluated by the
    database.  Under SQLite, Django's default backend, a decimal column
    has NUMERIC affinity: a stored amount is held as the nearest double
    (or as the integer of the same value), sums and differences are
    taken in binary64, and the driver turns the result into a
    [Decimal] of 15 significant digits.  A double is modelled by its
    value, an integer significand times a power of two; the amounts of
    a [DecimalField(max_digits=10)] stay far from overflow and from the
    subnormal range, which are not represented, and integer arithmetic
    on such amounts gives the values binary64 gives. *)

Module B64.

(** A finite double: [m * 2^e]. *)
Record t : Type := mk { m : Z; e : Z }.

(** The quotient [n / d] (for [d > 0]) rounded to 53 significant bits,
    to nearest, ties to even. *)
Definition redondear (n d : Z) : t :=
  if n =? 0 then mk 0 0
  else
    let e0 := Z.log2 (Z.abs n) - Z.log2 d - 53 in
    let num := if 0 <=? e0 then n else n * 2 ^ (- e0) in
    let den := if 0 <=? e0 then d * 2 ^ e0 else d in
    if 2 ^ 53 * den <=? Z.abs num
    then mk (Dec.rhe_div num (2 * den)) (e0 + 1)
    else mk (Dec.rhe_div num den) e0.

(** The double nearest to an integer times a power of two. *)
Definition de_diadico (n e : Z) : t :=
  if 0 <=? e then redondear (n * 2 ^ e) 1 else redondear n (2 ^ (- e)).

(** The double SQLite holds for a stored decimal. *)
Definition de_decimal (d : Dec.t) : t :=
  if 0 <=? Dec.exp d
  then redondear (Dec.coeff d * 10 ^ Dec.exp d) 1
  else redondear (Dec.coeff d) (10 ^ (- Dec.exp d)).

(** [x + y] and [x - y]: the exact result, rounded. *)
Definition add (x y : t) : t :=
  let e' := Z.min (e x) (e y) in
  de_diadico (m x * 2 ^ (e x - e') + m y * 2 ^ (e y - e')) e'.

Definition sub (x y : t) : t :=
  let e' := Z.min (e x) (e y) in
  de_diadico (m x * 2 ^ (e x - e') - m y * 2 ^ (e y - e')) e'.

(** [float.as_integer_ratio]: the fraction in lowest terms, as a
    numerator and the exponent of its power-of-two denominator. *)
Fixpoint reducir (fuel : nat) (n k : Z) : Z * Z :=
  match fuel with
  | O => (n, k)
  | S fuel' =>
      if (0 <? k) && Z.even n then reducir fuel' (n / 2) (k - 1) else (n, k)
  end.

Definition as_integer_ratio (x : t) : Z * Z :=
  if m x =? 0 then (0, 0)
  else if 0 <=? e x then (m x * 2 ^ e x, 0)
  else reducir (Z.to_nat (- e x)) (m x) (- e x).

(** [Decimal.from_float]: the exact decimal expansion. *)
Definition from_float (x : t) : Dec.t :=
  let '(n, k) := as_integer_ratio x in Dec.mk (n * 5 ^ k) (- k).

(** [decimal.Context(prec=15).create_decimal_from_float], the converter
    of the SQLite backend for a decimal expression. *)
Definition create_decimal (x : t) : Dec.t := Dec._fix_prec 15 (from_float x).

(** The real number denoted by a double. *)
Definition toR (x : t) : R := (IZR (m x) * powerRZ 2 (e x))%R.

End B64.

(** Powers of two over the reals, and one part in 2^53. *)
Definition p2 (e : Z) : R := powerRZ 2 e.

Definition u53 : R := (/ IZR (2 ^ 53))%R.

(** ** The admin change list (core/admin.py) *)

Module Admin.

(** [Coalesce(F(campo), Value(0))], as SQLite holds it. *)
Definition Coalesce (v : option Dec.t) : B64.t :=
  match v with Some x => B64.de_decimal x | None => B64.mk 0 0 end.

(** SQLite adds and subtracts NUMERIC columns that are not integers
    in binary floating point. *)
Definition sql_add (a b : B64.t) : B64.t := B64.add a b.
Definition sql_sub (a b : B64.t) : B64.t := B64.sub a b.

(** [coste_total_expr] of [ArticuloAdmin.get_queryset]. *)
Definition coste_total_expr (r : Articulo) : B64.t :=
  sql_add (sql_add (sql_add (sql_add
    (Coalesce (coste_euro r)) (Coalesce (iva r)))
    (Coalesce (coste_envio_individual r)))
    (Coalesce (aduana_imputada r)))
    (Coalesce (coste_envio_nacional r)).

(** The annotation [_coste_total], as Python receives it. *)
Definition _coste_total (r : Articulo) : Dec.t :=
  B64.create_decimal (coste_total_expr r).

(** The annotation [_beneficio], as Python receives it. *)
Definition _beneficio (r : Articulo) : option Dec.t :=
  match precio_venta r with
  | Some pv =>
      Some (B64.create_decimal (sql_sub (Coalesce (Some pv)) (coste_total_expr r)))
  | None => None
  end.

End Admin.

(** ** The admin actions (core/admin.py) *)

(** [for pedido in queryset: op(pedido)]; the value each call returns
    is dropped, an exception ends the loop. *)
Fixpoint para_cada_pedido (op : Pedido -> M bool) (queryset : list Pedido)
    : M unit :=
  match queryset with
  | [] => ret tt
  | pedido :: rest => op pedido ;;; para_cada_pedido op rest
  end.

(** What [modeladmin.message_user(request, texto, nivel)] posts. *)
Record Mensaje : Type := mkMensaje { texto : string; nivel : string }.

(** [distribuir_aduana_action]: the action returns the message it posts. *)
Definition distribuir_aduana_action (queryset : list Pedido) : M Mensaje :=
  para_cada_pedido distribuir_gastos_aduana queryset ;;;
  ret (mkMensaje "Gastos de aduana distribuidos." "success").

(** [distribuir_envio_action]. *)
Definition distribuir_envio_action (queryset : list Pedido) : M Mensaje :=
  para_cada_pedido distribuir_coste_envio queryset ;;;
  ret (mkMensaje "Coste de envío agrupado distribuido." "success").

(** ** Specification-level readings of the distribution *)

(** Every element mapped, stopping at the first exception. *)
Fixpoint mapR {A B} (g : A -> Result B) (l : list A) : Result (list B) :=
  match l with
  | [] => Ok []
  | a :: r => b <-r g a ; bs <-r mapR g r ; Ok (b :: bs)
  end.

(** The in-memory share of an article: [coste_total_pedido * (coste_euro / total_coste_base)]. *)
Definition cuota_de (total : option Dec.t) (base : Dec.t) (r : Articulo)
    : Result Dec.t :=
  match coste_euro r with
  | Some c => p <-r Dec.div c base ; py_mul total (Some p)
  | None => Raise TypeError
  end.

(** The value the storage layer keeps for that share. *)
Definition cuota_escrita (f : Campo) (total : option Dec.t) (base : Dec.t)
    (r : Articulo) : Result (option Dec.t) :=
  x <-r cuota_de total base r ; prep_campo f (Some x).

Definition valor_escrito (f : Campo) (total : option Dec.t) (base : Dec.t)
    (r : Articulo) : option Dec.t :=
  match cuota_escrita f total base r with Ok v => v | Raise _ => None end.

(** The row of an article after a successful distribution over the
    order [self]. *)
Definition actualizar (self : Pedido) (f : Campo) (total : option Dec.t)
    (base : Dec.t) (r : Articulo) : Articulo :=
  if pedido_id r =? pedido_pk self
  then setattr r f (valor_escrito f total base r)
  else r.

(** Primary keys: present and pairwise distinct. *)
Fixpoint claves_validas (tbl : list Articulo) : bool :=
  match tbl with
  | [] => true
  | r :: rest =>
      match pk r with
      | None => false
      | Some k =>
          negb (existsb (fun r' => pk_eqb (pk r') (Some k)) rest)
          && claves_validas rest
      end
  end.

(** A stored money value: two decimal places, at most ten digits. *)
Definition es_dinero (d : Dec.t) : Prop :=
  Dec.exp d = -2 /\ Z.abs (Dec.coeff d) < 10 ^ 10.

Definition es_dinero_opt (v : option Dec.t) : Prop :=
  match v with Some d => es_dinero d | None => True end.

(** The amount in cents of a stored money value ([None] counts 0). *)
Definition centimos (v : option Dec.t) : Z :=
  match v with Some d => Dec.coeff d | None => 0 end.

Definition suma_centimos (f : Articulo -> option Dec.t) (rows : list Articulo) : Z :=
  fold_right (fun r s => centimos (f r) + s) 0 rows.

(** One turn of the loop of [_distribuir_coste] on the in-memory object. *)
Definition paso (total : option Dec.t) (base : Dec.t) (f : Campo)
    (r : Articulo) : Result Articulo :=
  x <-r cuota_de total base r ; Ok (setattr r f (Some x)).

(** The successive UPDATEs of [bulk_update] as a function of the table. *)
Fixpoint escribir (f : Campo) (objs : list Articulo) (tbl : list Articulo)
    : Result (list Articulo) :=
  match objs with
  | [] => Ok tbl
  | o :: rest =>
      v <-r prep_campo f (getattr o f) ;
      escribir f rest (update_campo (pk o) f v tbl)
  end.

(** The table after the writes for the rows [rows], each with the
    value kept for its share. *)
Definition aplicar (total : option Dec.t) (base : Dec.t) (f : Campo)
    (rows tbl : list Articulo) : list Articulo :=
  fold_left
    (fun t r => update_campo (pk r) f (valor_escrito f total base r) t)
    rows tbl.

(** The SQL sum of the base costs of the rows is not positive (a sum
    over no value at all is NULL). *)
Definition base_no_positiva (rows : list Articulo) : Prop :=
  match aggregate_sum_coste_euro rows with
  | Some s => Dec.coeff s <= 0
  | None => True
  end.

(** A column declared without [null=True] holds a stored money value. *)
Definition es_dinero_req (v : option Dec.t) : Prop :=
  match v with Some d => es_dinero d | None => False end.

(** The cost columns of an article as the table holds them: only the
    VAT may be NULL here. *)
Definition costes_validos (r : Articulo) : Prop :=
  es_dinero_req (coste_euro r) /\
  es_dinero_req (coste_envio_individual r) /\
  es_dinero_opt (iva r) /\
  es_dinero_req (aduana_imputada r) /\
  es_dinero_req (coste_envio_nacional r).

(** The sum of the five cost columns in cents, NULL counting zero. *)
Definition suma_costes (r : Articulo) : Z :=
  centimos (coste_euro r) + centimos (iva r) +
  centimos (coste_envio_individual r) + centimos (aduana_imputada r) +
  centimos (coste_envio_nacional r).

(** A base cost as the table holds it for a purchased article: a
    stored money value that is not negative. *)
Definition coste_base_valido (r : Articulo) : Prop :=
  match coste_euro r with
  | Some c => es_dinero c /\ 0 <= Dec.coeff c
  | None => False
  end.

(** The in-memory share for a base cost. *)
Definition cuota_de_coste (total : option Dec.t) (base : Dec.t)
    (c : option Dec.t) : Result Dec.t :=
  match c with
  | Some c => p <-r Dec.div c base ; py_mul total (Some p)
  | None => Raise TypeError
  end.

(** The outcome of [_distribuir_coste] (the value returned or the
    exception raised) read off the keys and the base costs of the
    articles of the order alone. *)
Definition resultado_reparto (f : Campo) (total : option Dec.t)
    (claves : list (option Z)) (costes : list (option Dec.t)) : Result bool :=
  positivo <-r py_gt0 total ;
  if positivo && negb (match costes with [] => true | _ => false end) then
    let base := or_cero (sql_sum costes) in
    if Dec.gtb base (Dec.of_int 0) then
      xs <-r mapR (cuota_de_coste total base) costes ;
      match xs with
      | [] => Ok false
      | _ :: _ =>
          if existsb (fun k => match k with None => true | Some _ => false end) claves
          then Raise ValueError
          else
            _ <-r mapR (fun x => prep_campo f (Some x)) xs ;
            Ok true
      end
    else Ok false
  else Ok false.

(** What a distribution does to a row, given how it ended. *)
Definition efecto_reparto (self : Pedido) (f : Campo) (total : option Dec.t)
    (base : Dec.t) (r : Result bool) : Articulo -> Articulo :=
  match r with
  | Ok true => actualizar self f total base
  | _ => fun a => a
  end.

(** The value stored for an article as a function of the total, the
    base sum and the base cost of the article alone. *)
Definition valor_de_coste (f : Campo) (total : option Dec.t) (base : Dec.t)
    (c : option Dec.t) : option Dec.t :=
  match (x <-r cuota_de_coste total base c ; prep_campo f (Some x)) with
  | Ok v => v
  | Raise _ => None
  end.

(** The allocation of a total over a list of base costs. *)
Definition reparto_de (f : Campo) (total : option Dec.t)
    (costes : list (option Dec.t)) : list (option Dec.t) :=
  map (valor_de_coste f total (or_cero (sql_sum costes))) costes.

(** ** Sample data *)

(** An article as the table holds it after its first save, with a key,
    an order and a base cost in cents. *)
Definition articulo_ejemplo (k p c : Z) : Articulo :=
  mkArticulo (Some k) p "camara" OTROS (Some (D c (-2))) (Some (D 0 (-2)))
    None None (Some (D 0 (-2))) (Some (D 0 (-2))) (Some (D 0 (-2)))
    (Some (D 0 (-2))) COLECCION.

(** An order with a customs expense in cents, an exchange rate of
    165.0000 and a VAT rate of 0.21. *)
Definition pedido_ejemplo (k aduana : Z) : Pedido :=
  mkPedido k "pedido" (Some (D 0 (-2))) (Some (D aduana (-2)))
    (Some (D 1650000 (-4))) (Some (D 21 (-2))).

(** The order of the end-to-end scenario and an article of another order. *)
Definition db_escenario (aduana : Z) : DB :=
  mkDB [pedido_ejemplo 1 aduana; pedido_ejemplo 2 0]
       [articulo_ejemplo 1 1 1000; articulo_ejemplo 2 1 2000;
        articulo_ejemplo 3 2 500].

(** Five articles of 1.00 under an order with 0.13 of customs. *)
Definition db_cinco : DB :=
  mkDB [pedido_ejemplo 1 13]
       [articulo_ejemplo 1 1 100; articulo_ejemplo 2 1 100;
        articulo_ejemplo 3 1 100; articulo_ejemplo 4 1 100;
        articulo_ejemplo 5 1 100].

(** An order whose second share does not fit the column: base costs
    0.01, 99999999.99 and -99999999.98 under 50.00 of customs. *)
Definition db_desborde : DB :=
  mkDB [pedido_ejemplo 1 5000]
       [articulo_ejemplo 1 1 1; articulo_ejemplo 2 1 9999999999;
        articulo_ejemplo 3 1 (-9999999998)].

(** An article read back with a NULL individual shipping cost. *)
Definition articulo_sin_envio : Articulo :=
  mkArticulo (Some 1) 1 "camara" OTROS (Some (D 1000 (-2))) None
    None None (Some (D 0 (-2))) (Some (D 5000 (-2))) (Some (D 0 (-2)))
    (Some (D 300 (-2))) COLECCION.

(** A sold article: base 10.00, VAT 2.10, shipping 1.00, customs 0.50,
    sold at 50.00 with 3.00 of national shipping. *)
Definition articulo_vendido : Articulo :=
  mkArticulo (Some 4) 1 "objetivo" LENTE (Some (D 1000 (-2))) (Some (D 100 (-2)))
    (Some 1650) (Some (D 210 (-2))) (Some (D 50 (-2))) (Some (D 5000 (-2)))
    (Some (D 6000 (-2))) (Some (D 300 (-2))) VENDIDO.

(** An order with an exchange rate of 100.5000 and no article yet, and
    an article that has not been saved. *)
Definition pedido_mitad : Pedido :=
  mkPedido 3 "mitad" (Some (D 0 (-2))) (Some (D 0 (-2)))
    (Some (D 1005000 (-4))) (Some (D 21 (-2))).

Definition db_mitad : DB := mkDB [pedido_mitad] [].

Definition articulo_nuevo (p c : Z) : Articulo :=
  mkArticulo None p "nuevo" BODY (Some (D c (-2))) (Some (D 0 (-2)))
    None None (Some (D 0 (-2))) (Some (D 0 (-2))) (Some (D 0 (-2)))
    (Some (D 0 (-2))) COLECCION.

(** An order with an article of base cost zero. *)
Definition db_gratis : DB :=
  mkDB [pedido_ejemplo 1 3000]
       [articulo_ejemplo 1 1 1000; articulo_ejemplo 2 1 0].


(** An article bought for 100.00 and sold at 100.10, every other cost
    column holding 0.00. *)
Definition articulo_diez_centimos : Articulo :=
  mkArticulo (Some 6) 1 "tripode" OTROS (Some (D 10000 (-2))) (Some (D 0 (-2)))
    (Some 16500) (Some (D 0 (-2))) (Some (D 0 (-2))) (Some (D 10010 (-2)))
    (Some (D 10010 (-2))) (Some (D 0 (-2))) VENDIDO.

(** ** Readings of the admin code *)

(** What an action may change: nothing in the order table, and in the
    article table the target column of the rows of the selected orders. *)
Definition solo_cambia (f : Campo) (queryset : list Pedido) (db db' : DB) : Prop :=
  pedidos db' = pedidos db /\
  Forall2
    (fun r r' =>
       r' = r \/
       ((exists p, In p queryset /\ pedido_id r = pedido_pk p) /\
        exists v, r' = setattr r f v))
    (articulos db) (articulos db').

(** An order whose customs and shipping totals overflow the column on
    its second article, beside the order of the scenario. *)
Definition pedido_desborde : Pedido :=
  mkPedido 5 "desborde" (Some (D 5000 (-2))) (Some (D 5000 (-2)))
    (Some (D 1650000 (-4))) (Some (D 21 (-2))).

Definition db_dos_pedidos : DB :=
  mkDB [pedido_ejemplo 1 3000; pedido_desborde]
       [articulo_ejemplo 1 1 1000; articulo_ejemplo 2 1 2000;
        articulo_ejemplo 3 5 1; articulo_ejemplo 4 5 9999999999;
        articulo_ejemplo 5 5 (-9999999998)].

(** * Facts about the decimal arithmetic *)

Module DecFacts.
Import Dec.

Lemma ndigits_fuel_spec (fuel : nat) :
  forall n, 0 < n < 2 ^ Z.of_nat fuel ->
    1 <= ndigits_fuel fuel n /\
    10 ^ (ndigits_fuel fuel n - 1) <= n < 10 ^ ndigits_fuel fuel n.
Proof.
  induction fuel as [|f IH]; intros n Hn.
  - simpl in Hn. lia.
  - cbn [ndigits_fuel]. destruct (n <? 10) eqn:E.
    + apply Z.ltb_lt in E. simpl. lia.
    + apply Z.ltb_ge in E.
      assert (Hq : 0 < n / 10 < 2 ^ Z.of_nat f).
      { split.
        - apply Z.div_str_pos. lia.
        - apply Z.div_lt_upper_bound; [lia|].
          rewrite Nat2Z.inj_succ, Z.pow_succ_r in Hn by lia. lia. }
      destruct (IH _ Hq) as (H1 & H2 & H3).
      set (d := ndigits_fuel f (n / 10)) in *.
      split; [lia|].
      replace (1 + d - 1) with (Z.succ (d - 1)) by lia.
      replace (1 + d) with (Z.succ d) by lia.
      rewrite !Z.pow_succ_r by lia.
      pose proof (Z.div_mod n 10 ltac:(lia)) as Hdm.
      pose proof (Z.mod_pos_bound n 10 ltac:(lia)).
      lia.
Qed.

Lemma ndigits_spec (n : Z) :
  0 < n -> 1 <= ndigits n /\ 10 ^ (ndigits n - 1) <= n < 10 ^ ndigits n.
Proof.
  intros Hn. unfold ndigits. apply ndigits_fuel_spec.
  split; [lia|].
  rewrite Nat2Z.inj_succ, Z2Nat.id by apply Z.log2_nonneg.
  apply Z.log2_spec. lia.
Qed.

Lemma ndigits_pos (n : Z) : 1 <= ndigits n.
Proof.
  destruct (Z_lt_le_dec 0 n) as [H|H].
  - apply ndigits_spec; lia.
  - unfold ndigits. cbn [ndigits_fuel].
    destruct (n <? 10) eqn:E; [lia|]. apply Z.ltb_ge in E. lia.
Qed.

Lemma ndigits_le (n p : Z) : 0 <= n < 10 ^ p -> 1 <= p -> ndigits n <= p.
Proof.
  intros [H0 Hp] H1.
  destruct (Z.eq_dec n 0) as [->|Hz].
  - vm_compute (ndigits 0). lia.
  - destruct (ndigits_spec n ltac:(lia)) as (Hd & Hlo & _).
    destruct (Z_le_gt_dec (ndigits n) p) as [|Hgt]; [assumption|exfalso].
    assert (10 ^ p <= 10 ^ (ndigits n - 1)) by (apply Z.pow_le_mono_r; lia).
    lia.
Qed.

Lemma ndigits_gt (n p : Z) : 1 <= p -> p < ndigits n -> 10 ^ p <= n.
Proof.
  intros H0 Hp.
  destruct (Z_lt_le_dec 0 n) as [H|H].
  - destruct (ndigits_spec n H) as (_ & Hlo & _).
    assert (10 ^ p <= 10 ^ (ndigits n - 1)) by (apply Z.pow_le_mono_r; lia).
    lia.
  - exfalso. unfold ndigits in Hp. cbn [ndigits_fuel] in Hp.
    destruct (n <? 10) eqn:E; [lia|]. apply Z.ltb_ge in E. lia.
Qed.

(** Rounding half-even gives a nearest multiple, and the even one at
    a tie. *)
Lemma rhe_div_spec (c m : Z) :
  0 < m ->
  2 * Z.abs (rhe_div c m * m - c) <= m /\
  (2 * Z.abs (rhe_div c m * m - c) = m -> Z.even (rhe_div c m) = true).
Proof.
  intros Hm. unfold rhe_div.
  pose proof (Z.div_mod (Z.abs c) m ltac:(lia)) as Hdm.
  pose proof (Z.mod_pos_bound (Z.abs c) m Hm) as Hr.
  set (q := Z.abs c / m) in *. set (r := Z.abs c mod m) in *.
  assert (Hq : 0 <= q) by (apply Z.div_pos; lia).
  set (u := if (m <? 2 * r) || ((2 * r =? m) && Z.odd q) then q + 1 else q).
  assert (Hu : 0 <= u /\ 2 * Z.abs (u * m - Z.abs c) <= m /\
               (2 * Z.abs (u * m - Z.abs c) = m -> Z.even u = true)).
  { unfold u. destruct (Z.ltb_spec m (2 * r)) as [L|L]; cbn [orb].
    - repeat split; nia.
    - destruct (Z.eqb_spec (2 * r) m) as [E|E]; cbn [andb].
      + rewrite <- Z.negb_even.
        destruct (Z.even q) eqn:Ev; cbn [negb].
        * repeat split; try nia. intros _; assumption.
        * repeat split; try nia. intros _.
          rewrite Z.even_add, Ev. reflexivity.
      + repeat split; nia. }
  clearbody u. destruct Hu as (Hu0 & Hu1 & Hu2).
  destruct (Z.sgn_spec c) as [[Hc Hs]|[[Hc Hs]|[Hc Hs]]]; rewrite Hs.
  - rewrite Z.mul_1_l. rewrite (Z.abs_eq c) in Hu1, Hu2 by lia.
    split; assumption.
  - subst c. simpl in Hu1. split; [nia|]. intros; reflexivity.
  - rewrite (Z.abs_neq c) in Hu1, Hu2 by lia.
    assert (E1 : Z.abs (Z.opp 1 * u * m - c) = Z.abs (u * m - - c)).
    { rewrite <- (Z.abs_opp (u * m - - c)). f_equal; lia. }
    assert (E2 : Z.even (Z.opp 1 * u) = Z.even u).
    { rewrite <- (Z.even_opp u). f_equal; lia. }
    rewrite E1, E2. split; assumption.
Qed.

Lemma rhe_div_abs_le (c m : Z) :
  0 < m -> Z.abs (rhe_div c m) * m <= Z.abs c + m / 2.
Proof.
  intros Hm.
  destruct (rhe_div_spec c m Hm) as [H _].
  pose proof (Z.div_mod m 2 ltac:(lia)).
  pose proof (Z.mod_pos_bound m 2 ltac:(lia)).
  assert (Z.abs (rhe_div c m) * m = Z.abs (rhe_div c m * m)) by (rewrite Z.abs_mul; lia).
  lia.
Qed.

Lemma fix_small (d : t) : Z.abs (coeff d) < 10 ^ prec -> _fix d = d.
Proof.
  intros H. unfold _fix, _fix_prec.
  assert (ndigits (Z.abs (coeff d)) <= prec).
  { apply ndigits_le; [lia | unfold prec; lia]. }
  destruct (Z.leb_spec (ndigits (Z.abs (coeff d))) prec); [reflexivity|lia].
Qed.

Lemma gtb_zero (d : t) : gtb d (of_int 0) = (0 <? coeff d).
Proof.
  unfold gtb, compare, of_int. cbn [coeff exp].
  set (e := Z.min (exp d) 0).
  assert (0 < 10 ^ (exp d - e)) by (apply Z.pow_pos_nonneg; lia).
  rewrite Z.mul_0_l.
  destruct (Z.ltb_spec 0 (coeff d)) as [L|L].
  - assert (0 < coeff d * 10 ^ (exp d - e)) by nia.
    destruct (Z.compare_spec (coeff d * 10 ^ (exp d - e)) 0); try lia; reflexivity.
  - assert (coeff d * 10 ^ (exp d - e) <= 0) by nia.
    destruct (Z.compare_spec (coeff d * 10 ^ (exp d - e)) 0); try lia; reflexivity.
Qed.

End DecFacts.

(** * The distribution as a function of the table *)

Section Distribucion.

Variable total : option Dec.t.
Variable base : Dec.t.
Variable f : Campo.

Lemma bucle_spec (rows : list Articulo) (db : DB) :
  res (distribuir_bucle total base f rows db) = mapR (paso total base f) rows /\
  db_after (distribuir_bucle total base f rows db) = db.
Proof.
  induction rows as [|a rest [IHr IHd]]; [split; reflexivity|].
  cbn [distribuir_bucle mapR].
  unfold paso at 1, cuota_de, bind, py_truediv, lift, ret.
  destruct (coste_euro a) as [c|]; cbn [res db_after divisions rbind];
    [|split; reflexivity].
  destruct (Dec.div c base) as [p|e]; cbn [res db_after divisions rbind];
    [|split; reflexivity].
  destruct total as [T|]; cbn [py_mul res db_after divisions rbind];
    [|split; reflexivity].
  rewrite IHr, IHd.
  destruct (mapR _ rest); cbn [res db_after divisions rbind];
    split; reflexivity.
Qed.

Lemma writes_spec (objs : list Articulo) :
  forall db,
    let o := bulk_update_writes objs f db in
    pedidos (db_after o) = pedidos db /\
    match escribir f objs (articulos db) with
    | Ok tbl' => res o = Ok tt /\ articulos (db_after o) = tbl'
    | Raise e => res o = Raise e
    end.
Proof.
  induction objs as [|o rest IH]; intros db; cbn [bulk_update_writes escribir].
  - split; [reflexivity | split; reflexivity].
  - unfold bind, lift, get_db, put_articulos.
    destruct (prep_campo f (getattr o f)) as [v|e];
      cbn [res db_after divisions rbind]; [|split; reflexivity].
    specialize (IH (mkDB (pedidos db) (update_campo (pk o) f v (articulos db)))).
    cbn [pedidos articulos] in IH. destruct IH as [IHp IHw].
    split; [|].
    + destruct (res (bulk_update_writes rest f _)); cbn [db_after]; exact IHp.
    + destruct (escribir f rest (update_campo (pk o) f v (articulos db))) as [tbl'|e].
      * destruct IHw as [IH1 IH2]. rewrite IH1. cbn [res db_after]. split; [reflexivity|exact IH2].
      * rewrite IHw. reflexivity.
Qed.

Lemma getattr_setattr (r : Articulo) (v : option Dec.t) :
  getattr (setattr r f v) f = v.
Proof. destruct f; reflexivity. Qed.

Lemma pk_setattr (r : Articulo) (g : Campo) (v : option Dec.t) :
  pk (setattr r g v) = pk r.
Proof. destruct g; reflexivity. Qed.

Lemma pedido_id_setattr (r : Articulo) (g : Campo) (v : option Dec.t) :
  pedido_id (setattr r g v) = pedido_id r.
Proof. destruct g; reflexivity. Qed.

Lemma coste_euro_setattr (r : Articulo) (g : Campo) (v : option Dec.t) :
  coste_euro (setattr r g v) = coste_euro r.
Proof. destruct g; reflexivity. Qed.

Lemma setattr_setattr (r : Articulo) (v w : option Dec.t) :
  setattr (setattr r f v) f w = setattr r f w.
Proof. destruct f; reflexivity. Qed.

Lemma mapR_paso_raise (rows : list Articulo) (e : exn) :
  mapR (paso total base f) rows = Raise e ->
  exists e', mapR (cuota_escrita f total base) rows = Raise e'.
Proof.
  induction rows as [|a rest IH]; cbn [mapR]; [discriminate|].
  unfold paso at 1, cuota_escrita at 1.
  destruct (cuota_de total base a) as [x|e0]; cbn [rbind]; [|eauto].
  destruct (prep_campo f (Some x)) as [v|e1]; cbn [rbind]; [|eauto].
  destruct (mapR (paso total base f) rest) as [objs|e2]; cbn [rbind]; [discriminate|].
  intros [= ->]. destruct (IH eq_refl) as [e' ->]. cbn [rbind]. eauto.
Qed.

Lemma escribir_objs (rows : list Articulo) :
  forall objs tbl,
    mapR (paso total base f) rows = Ok objs ->
    match mapR (cuota_escrita f total base) rows with
    | Ok _ => escribir f objs tbl = Ok (aplicar total base f rows tbl)
    | Raise _ => exists e, escribir f objs tbl = Raise e
    end.
Proof.
  induction rows as [|a rest IH]; intros objs tbl; cbn [mapR].
  - intros [= <-]. reflexivity.
  - unfold paso at 1, cuota_escrita at 1, valor_escrito.
    destruct (cuota_de total base a) as [x|e0] eqn:Ex; cbn [rbind]; [|discriminate].
    destruct (mapR (paso total base f) rest) as [objs'|e2] eqn:Ep; cbn [rbind]; [|discriminate].
    intros [= <-]. cbn [escribir].
    rewrite getattr_setattr, pk_setattr.
    destruct (prep_campo f (Some x)) as [v|e1] eqn:Ev; cbn [rbind]; [|eauto].
    specialize (IH objs' (update_campo (pk a) f v tbl) eq_refl).
    destruct (mapR (cuota_escrita f total base) rest) as [ws|e3]; cbn [rbind].
    + rewrite IH. unfold aplicar. cbn [fold_left].
      unfold valor_escrito, cuota_escrita. rewrite Ex. cbn [rbind]. rewrite Ev.
      reflexivity.
    + exact IH.
Qed.

Lemma pk_eqb_sym (a b : option Z) : pk_eqb a b = pk_eqb b a.
Proof. destruct a, b; cbn; try reflexivity. apply Z.eqb_sym. Qed.

Lemma pk_eqb_true (a b : option Z) :
  pk_eqb a b = true -> exists k, a = Some k /\ b = Some k.
Proof.
  destruct a as [x|], b as [y|]; cbn; try discriminate.
  intros H. apply Z.eqb_eq in H. subst. eauto.
Qed.

Lemma claves_unicas (tbl : list Articulo) :
  claves_validas tbl = true ->
  forall a r, In a tbl -> In r tbl -> pk_eqb (pk r) (pk a) = true -> a = r.
Proof.
  induction tbl as [|x rest IH]; cbn [claves_validas]; [intros _ a r []|].
  destruct (pk x) as [k|] eqn:Ek; [|discriminate].
  intros H. apply andb_prop in H. destruct H as [Hn Hr].
  apply negb_true_iff in Hn.
  assert (Hno : forall y, In y rest -> pk_eqb (pk y) (Some k) = false).
  { intros y Hy. destruct (pk_eqb (pk y) (Some k)) eqn:E; [|reflexivity].
    assert (existsb (fun r' => pk_eqb (pk r') (Some k)) rest = true)
      by (apply existsb_exists; eauto).
    congruence. }
  intros a r [Ha|Ha] [Hr'|Hr'] Heq.
  - congruence.
  - subst a. rewrite Ek in Heq. rewrite (Hno r Hr') in Heq. discriminate.
  - subst r. rewrite Ek, pk_eqb_sym in Heq. rewrite (Hno a Ha) in Heq. discriminate.
  - apply IH; assumption.
Qed.

Lemma claves_some (tbl : list Articulo) :
  claves_validas tbl = true ->
  forall r, In r tbl -> exists k, pk r = Some k.
Proof.
  induction tbl as [|x rest IH]; cbn [claves_validas]; [intros _ r []|].
  destruct (pk x) as [k|] eqn:Ek; [|discriminate].
  intros H. apply andb_prop in H. destruct H as [_ Hr].
  intros r [<-|Hin]; eauto.
Qed.

Lemma claves_filter (p : Articulo -> bool) (tbl : list Articulo) :
  claves_validas tbl = true -> claves_validas (filter p tbl) = true.
Proof.
  induction tbl as [|x rest IH]; cbn [claves_validas filter]; [reflexivity|].
  destruct (pk x) as [k|] eqn:Ek; [|discriminate].
  intros H. apply andb_prop in H. destruct H as [Hn Hr].
  destruct (p x); [|auto].
  cbn [claves_validas]. rewrite Ek, (IH Hr), andb_true_r.
  apply negb_true_iff. apply negb_true_iff in Hn.
  destruct (existsb _ (filter p rest)) eqn:E; [|reflexivity].
  apply existsb_exists in E. destruct E as (y & Hy & Hk).
  apply filter_In in Hy. destruct Hy as [Hy _].
  assert (existsb (fun r' => pk_eqb (pk r') (Some k)) rest = true)
    by (apply existsb_exists; eauto).
  congruence.
Qed.

Lemma aplicar_map (rows : list Articulo) :
  claves_validas rows = true ->
  forall tbl,
    aplicar total base f rows tbl =
    map (fun r =>
           match find (fun a => pk_eqb (pk r) (pk a)) rows with
           | Some a => setattr r f (valor_escrito f total base a)
           | None => r
           end) tbl.
Proof.
  induction rows as [|a rest IH]; intros Hk tbl.
  - cbn. rewrite map_id. reflexivity.
  - cbn [claves_validas] in Hk.
    destruct (pk a) as [k|] eqn:Ek; [|discriminate].
    apply andb_prop in Hk. destruct Hk as [Hn Hr].
    apply negb_true_iff in Hn.
    change (aplicar total base f (a :: rest) tbl) with
      (aplicar total base f rest
         (update_campo (pk a) f (valor_escrito f total base a) tbl)).
    rewrite (IH Hr). unfold update_campo. rewrite map_map.
    apply map_ext. intros r. cbn [find]. rewrite Ek.
    destruct (pk_eqb (pk r) (Some k)) eqn:E; [|reflexivity].
    rewrite pk_setattr.
    destruct (find (fun a0 => pk_eqb (pk r) (pk a0)) rest) as [y|] eqn:Ef;
      [exfalso|reflexivity].
    apply find_some in Ef. destruct Ef as [Hy Hyk].
    apply pk_eqb_true in E. destruct E as (k' & Hrk & [= <-]).
    rewrite Hrk, pk_eqb_sym in Hyk.
    assert (existsb (fun r' => pk_eqb (pk r') (Some k)) rest = true)
      by (apply existsb_exists; eauto).
    congruence.
Qed.

End Distribucion.

Section DistribucionPedido.

Variable self : Pedido.
Variable f : Campo.

Lemma mapR_paso_pk_none total base (rows : list Articulo) :
  forall objs,
    mapR (paso total base f) rows = Ok objs ->
    existsb_pk_none objs = existsb_pk_none rows /\ List.length objs = List.length rows.
Proof.
  induction rows as [|a rest IH]; intros objs; cbn [mapR].
  - intros [= <-]. split; reflexivity.
  - unfold paso at 1.
    destruct (cuota_de total base a) as [x|]; cbn [rbind]; [|discriminate].
    destruct (mapR (paso total base f) rest) as [objs'|]; cbn [rbind]; [|discriminate].
    intros [= <-]. destruct (IH objs' eq_refl) as [IH1 IH2].
    unfold existsb_pk_none in *. cbn [existsb List.length].
    rewrite pk_setattr, IH1, IH2. split; reflexivity.
Qed.

Lemma claves_pk_none (tbl : list Articulo) :
  claves_validas tbl = true -> existsb_pk_none tbl = false.
Proof.
  intros H. unfold existsb_pk_none.
  destruct (existsb _ tbl) eqn:E; [exfalso|reflexivity].
  apply existsb_exists in E. destruct E as (r & Hr & Hn).
  destruct (claves_some tbl H r Hr) as [k Hk]. rewrite Hk in Hn. discriminate.
Qed.

Lemma aplicar_actualizar total base (tbl : list Articulo) :
  claves_validas tbl = true ->
  aplicar total base f
    (filter (fun a => pedido_id a =? pedido_pk self) tbl) tbl =
  map (actualizar self f total base) tbl.
Proof.
  intros Hk.
  rewrite aplicar_map by (apply claves_filter; assumption).
  apply map_ext_in. intros r Hr. unfold actualizar.
  destruct (claves_some tbl Hk r Hr) as [k Hrk].
  destruct (find _ _) as [a|] eqn:Ef.
  - apply find_some in Ef. destruct Ef as [Ha Hak].
    apply filter_In in Ha. destruct Ha as [Ha Hb].
    assert (a = r) by (apply (claves_unicas tbl Hk); assumption).
    subst a. rewrite Hb. reflexivity.
  - destruct (pedido_id r =? pedido_pk self) eqn:Eb; [exfalso|reflexivity].
    assert (Hin : In r (filter (fun a => pedido_id a =? pedido_pk self) tbl))
      by (apply filter_In; split; assumption).
    pose proof (find_none _ _ Ef r Hin) as Hn. cbn beta in Hn.
    rewrite Hrk in Hn. cbn [pk_eqb] in Hn. rewrite Z.eqb_refl in Hn. discriminate.
Qed.

Lemma bind_lift_ok {A B} (a : A) (k : A -> M B) (db : DB) :
  bind (lift (Ok a)) k db = k a db.
Proof. unfold bind, lift. cbn. destruct (k a db); reflexivity. Qed.

Lemma bind_get_db {B} (k : DB -> M B) (db : DB) :
  bind get_db k db = k db db.
Proof. unfold bind, get_db. cbn. destruct (k db db); reflexivity. Qed.

Lemma bind_ok_eq {A B} (m : M A) (k : A -> M B) (db : DB) (a : A) :
  res (m db) = Ok a ->
  res (bind m k db) = res (k a (db_after (m db))) /\
  db_after (bind m k db) = db_after (k a (db_after (m db))).
Proof. intros H. unfold bind. rewrite H. split; reflexivity. Qed.

Lemma bind_raise_eq {A B} (m : M A) (k : A -> M B) (db : DB) (e : exn) :
  res (m db) = Raise e ->
  res (bind m k db) = Raise e /\ db_after (bind m k db) = db_after (m db).
Proof. intros H. unfold bind. rewrite H. split; reflexivity. Qed.

Lemma cuerpo_eq (T : Dec.t) (db : DB) :
  distribuir_coste_cuerpo self (Some T) f db =
  let rows := articulos_de self db in
  let base := or_cero (aggregate_sum_coste_euro rows) in
  if (0 <? Dec.coeff T) && negb (match rows with [] => true | _ => false end)
  then
    if 0 <? Dec.coeff base
    then
      bind (distribuir_bucle (Some T) base f rows)
        (fun a_actualizar =>
           match a_actualizar with
           | [] => ret false
           | _ :: _ => bind (bulk_update a_actualizar f) (fun _ => ret true)
           end) db
    else mkOutcome (Ok false) db O
  else mkOutcome (Ok false) db O.
Proof.
  unfold distribuir_coste_cuerpo. cbn [py_gt0].
  rewrite bind_lift_ok, bind_get_db.
  rewrite !DecFacts.gtb_zero. cbv zeta.
  destruct (_ && _); [|reflexivity].
  destruct (0 <? _); reflexivity.
Qed.

(** The three ways of doing nothing. *)
Lemma distribuir_nada (T : Dec.t) (db : DB) :
  Dec.coeff T <= 0 \/
  articulos_de self db = [] \/
  Dec.coeff (or_cero (aggregate_sum_coste_euro (articulos_de self db))) <= 0 ->
  _distribuir_coste self (Some T) f db = mkOutcome (Ok false) db O.
Proof.
  intros H.
  unfold _distribuir_coste, transaction_atomic.
  rewrite cuerpo_eq. cbv zeta.
  destruct (Z.ltb_spec 0 (Dec.coeff T)) as [HT|HT]; cbn [andb]; [|reflexivity].
  destruct (articulos_de self db) as [|a rest] eqn:Er; cbn [negb]; [reflexivity|].
  destruct (Z.ltb_spec 0 (Dec.coeff (or_cero (aggregate_sum_coste_euro (a :: rest)))))
    as [HB|HB]; [|reflexivity].
  exfalso. destruct H as [H|[H|H]]; [lia|discriminate|lia].
Qed.

Lemma atomic_ok {A} (body : M A) (db : DB) (a : A) :
  res (body db) = Ok a -> transaction_atomic body db = body db.
Proof. intros H. unfold transaction_atomic. rewrite H. reflexivity. Qed.

Lemma atomic_raise {A} (body : M A) (db : DB) (e : exn) :
  res (body db) = Raise e ->
  res (transaction_atomic body db) = Raise e /\
  db_after (transaction_atomic body db) = db.
Proof. intros H. unfold transaction_atomic. rewrite H. split; reflexivity. Qed.

Lemma cuerpo_spec (T : Dec.t) (db : DB) :
  claves_validas (articulos db) = true ->
  0 < Dec.coeff T ->
  articulos_de self db <> [] ->
  let base := or_cero (aggregate_sum_coste_euro (articulos_de self db)) in
  0 < Dec.coeff base ->
  let o := distribuir_coste_cuerpo self (Some T) f db in
  match mapR (cuota_escrita f (Some T) base) (articulos_de self db) with
  | Ok _ =>
      res o = Ok true /\
      db_after o =
        mkDB (pedidos db) (map (actualizar self f (Some T) base) (articulos db))
  | Raise _ => exists e, res o = Raise e
  end.
Proof.
  intros Hk HT Hne base HB o. subst o.
  rewrite cuerpo_eq. cbv zeta. fold base.
  destruct (Z.ltb_spec 0 (Dec.coeff T)) as [_|]; [|lia]. cbn [andb].
  assert (Hnil : match articulos_de self db with [] => true | _ :: _ => false end = false)
    by (destruct (articulos_de self db); congruence).
  rewrite Hnil. cbn [negb]. clear Hnil.
  set (rows := articulos_de self db) in *.
  destruct (Z.ltb_spec 0 (Dec.coeff base)) as [_|]; [|lia].
  destruct (bucle_spec (Some T) base f rows db) as [Br Bd].
  destruct (mapR (paso (Some T) base f) rows) as [objs|e] eqn:Ep.
  - destruct (bind_ok_eq _
                (fun a_actualizar =>
                   match a_actualizar with
                   | [] => ret false
                   | _ :: _ => bind (bulk_update a_actualizar f) (fun _ => ret true)
                   end) _ _ Br) as [R1 R2].
    rewrite R1, R2, Bd. clear R1 R2.
    destruct (mapR_paso_pk_none _ _ _ _ Ep) as [Hn Hl].
    destruct objs as [|o objs'].
    { subst rows. destruct (articulos_de self db); [congruence|discriminate]. }
    assert (Hkr : claves_validas rows = true) by (apply claves_filter; assumption).
    assert (Hbu : bulk_update (o :: objs') f = bulk_update_writes (o :: objs') f).
    { unfold bulk_update. rewrite Hn, (claves_pk_none rows Hkr). reflexivity. }
    rewrite Hbu.
    destruct (writes_spec f (o :: objs') db) as [Wp Ww].
    pose proof (escribir_objs (Some T) base f rows (o :: objs') (articulos db) Ep) as He.
    destruct (mapR (cuota_escrita f (Some T) base) rows) as [ws|e].
    + rewrite He in Ww. destruct Ww as [W1 W2].
      destruct (bind_ok_eq _ (fun _ : unit => ret true) _ _ W1) as [R1 R2].
      rewrite R1, R2. cbn [res db_after ret]. split; [reflexivity|].
      destruct (db_after (bulk_update_writes (o :: objs') f db)) as [ps arts].
      cbn [pedidos articulos] in *. subst ps arts.
      unfold rows, articulos_de. rewrite aplicar_actualizar by assumption.
      reflexivity.
    + destruct He as [e' He]. rewrite He in Ww.
      destruct (bind_raise_eq _ (fun _ : unit => ret true) _ _ Ww) as [R1 _].
      rewrite R1. eauto.
  - destruct (bind_raise_eq _
                (fun a_actualizar =>
                   match a_actualizar with
                   | [] => ret false
                   | _ :: _ => bind (bulk_update a_actualizar f) (fun _ => ret true)
                   end) _ _ Br) as [R1 _].
    rewrite R1.
    destruct (mapR_paso_raise _ _ _ _ _ Ep) as [e' ->]. eauto.
Qed.

(** A positive total over a non-empty order with a positive base
    sum: either every share can be stored and every row of the order
    is rewritten, or the operation raises and the table is as before. *)
Lemma distribuir_spec (T : Dec.t) (db : DB) :
  claves_validas (articulos db) = true ->
  0 < Dec.coeff T ->
  articulos_de self db <> [] ->
  let base := or_cero (aggregate_sum_coste_euro (articulos_de self db)) in
  0 < Dec.coeff base ->
  let o := _distribuir_coste self (Some T) f db in
  match mapR (cuota_escrita f (Some T) base) (articulos_de self db) with
  | Ok _ =>
      res o = Ok true /\
      db_after o =
        mkDB (pedidos db) (map (actualizar self f (Some T) base) (articulos db))
  | Raise _ => (exists e, res o = Raise e) /\ db_after o = db
  end.
Proof.
  intros Hk HT Hne base HB o. subst o.
  pose proof (cuerpo_spec T db Hk HT Hne HB) as H. cbv zeta in H. fold base in H.
  unfold _distribuir_coste.
  destruct (mapR (cuota_escrita f (Some T) base) (articulos_de self db)).
  - destruct H as [H1 H2]. rewrite (atomic_ok _ _ _ H1). split; assumption.
  - destruct H as [e' H]. destruct (atomic_raise _ _ _ H) as [A1 A2].
    split; eauto.
Qed.

End DistribucionPedido.

(** * The distribution: what it leaves in the table *)

Section Reparto.

Variable self : Pedido.
Variable f : Campo.

Lemma mapR_ok_in {A B} (g : A -> Result B) (l : list A) (bs : list B) :
  mapR g l = Ok bs -> forall a, In a l -> exists b, g a = Ok b.
Proof.
  revert bs. induction l as [|x r IH]; intros bs; cbn [mapR]; [intros _ a []|].
  destruct (g x) as [b|] eqn:Eg; cbn [rbind]; [|discriminate].
  destruct (mapR g r) as [bs'|]; cbn [rbind]; [|discriminate].
  intros _ a [<-|Hin]; eauto.
Qed.



(** The three outcomes of a distribution of a decimal total. *)
Lemma distribuir_casos (T : Dec.t) (db : DB) :
  claves_validas (articulos db) = true ->
  let rows := articulos_de self db in
  let base := or_cero (aggregate_sum_coste_euro rows) in
  let o := _distribuir_coste self (Some T) f db in
  o = mkOutcome (Ok false) db O \/
  ((exists e, res o = Raise e) /\ db_after o = db) \/
  (0 < Dec.coeff T /\ rows <> [] /\ 0 < Dec.coeff base /\
   (exists ws, mapR (cuota_escrita f (Some T) base) rows = Ok ws) /\
   res o = Ok true /\
   db_after o =
     mkDB (pedidos db) (map (actualizar self f (Some T) base) (articulos db))).
Proof.
  intros Hk rows base o.
  destruct (Z_lt_le_dec 0 (Dec.coeff T)) as [HT|HT];
    [|left; apply distribuir_nada; auto].
  assert (Hn : rows = [] \/ rows <> [])
    by (destruct rows; [left; reflexivity | right; discriminate]).
  destruct Hn as [Hn|Hne]; [left; apply distribuir_nada; auto|].
  destruct (Z_lt_le_dec 0 (Dec.coeff base)) as [HB|HB];
    [|left; apply distribuir_nada; auto].
  pose proof (distribuir_spec self f T db Hk HT Hne HB) as H. cbv zeta in H.
  fold rows base o in H.
  destruct (mapR (cuota_escrita f (Some T) base) rows) as [ws|e] eqn:Em.
  - right; right. destruct H as [H1 H2]. repeat split; eauto.
  - right; left. exact H.
Qed.

Lemma cuota_escrita_setattr total base (r : Articulo) (g : Campo) (v : option Dec.t) :
  cuota_escrita f total base (setattr r g v) = cuota_escrita f total base r.
Proof.
  unfold cuota_escrita, cuota_de. rewrite coste_euro_setattr. reflexivity.
Qed.


Lemma pk_actualizar total base (r : Articulo) :
  pk (actualizar self f total base r) = pk r.
Proof.
  unfold actualizar. destruct (pedido_id r =? pedido_pk self); [|reflexivity].
  apply pk_setattr.
Qed.

Lemma pedido_id_actualizar total base (r : Articulo) :
  pedido_id (actualizar self f total base r) = pedido_id r.
Proof.
  unfold actualizar. destruct (pedido_id r =? pedido_pk self); [|reflexivity].
  apply pedido_id_setattr.
Qed.

Lemma coste_euro_actualizar total base (r : Articulo) :
  coste_euro (actualizar self f total base r) = coste_euro r.
Proof.
  unfold actualizar. destruct (pedido_id r =? pedido_pk self); [|reflexivity].
  apply coste_euro_setattr.
Qed.


Lemma claves_map (h : Articulo -> Articulo) (tbl : list Articulo) :
  (forall r, pk (h r) = pk r) ->
  claves_validas (map h tbl) = claves_validas tbl.
Proof.
  intros Hh. induction tbl as [|x rest IH]; cbn [map claves_validas]; [reflexivity|].
  rewrite Hh, IH. destruct (pk x) as [k|]; [|reflexivity].
  f_equal. f_equal. clear IH.
  induction rest as [|y rest IH]; cbn [map existsb]; [reflexivity|].
  rewrite Hh, IH. reflexivity.
Qed.

Lemma articulos_de_actualizar total base (db : DB) :
  articulos_de self
    (mkDB (pedidos db) (map (actualizar self f total base) (articulos db))) =
  map (actualizar self f total base) (articulos_de self db).
Proof.
  unfold articulos_de. cbn [articulos].
  induction (articulos db) as [|x rest IH]; cbn [map filter]; [reflexivity|].
  rewrite pedido_id_actualizar, IH.
  destruct (pedido_id x =? pedido_pk self); reflexivity.
Qed.



End Reparto.

(** * The claims about the distribution *)

Lemma or_cero_no_positiva (rows : list Articulo) :
  base_no_positiva rows ->
  Dec.coeff (or_cero (aggregate_sum_coste_euro rows)) <= 0.
Proof.
  unfold base_no_positiva, or_cero.
  destruct (aggregate_sum_coste_euro rows) as [s|]; [|cbn; lia].
  destruct (Dec.truthy s); cbn; lia.
Qed.

(** C2.  When the total to distribute is zero or negative, or the order
    has no article, or the sum of the base costs is not positive,
    [_distribuir_coste] (and so [distribuir_gastos_aduana] and
    [distribuir_coste_envio]) returns [False] without raising, leaves
    the table as it was and has evaluated no division. *)
Theorem distribuir_sin_efecto (self : Pedido) (db : DB) (T : Dec.t) (f : Campo) :
  Dec.coeff T <= 0 \/
  articulos_de self db = [] \/
  base_no_positiva (articulos_de self db) ->
  _distribuir_coste self (Some T) f db = mkOutcome (Ok false) db O /\
  (gastos_aduana self = Some T ->
   distribuir_gastos_aduana self db = mkOutcome (Ok false) db O) /\
  (coste_envio_agrupado self = Some T ->
   distribuir_coste_envio self db = mkOutcome (Ok false) db O).
Proof.
  intros H.
  assert (H' : Dec.coeff T <= 0 \/ articulos_de self db = [] \/
               Dec.coeff (or_cero (aggregate_sum_coste_euro (articulos_de self db))) <= 0).
  { destruct H as [H|[H|H]]; auto using or_cero_no_positiva. }
  split; [|split].
  - apply distribuir_nada; assumption.
  - intros E. unfold distribuir_gastos_aduana. rewrite E.
    apply distribuir_nada; assumption.
  - intros E. unfold distribuir_coste_envio. rewrite E.
    apply distribuir_nada; assumption.
Qed.

Lemma distribuir_sin_efecto_witness :
  Dec.coeff (D 0 (-2)) <= 0 /\
  distribuir_gastos_aduana (pedido_ejemplo 1 0) (db_escenario 0) =
    mkOutcome (Ok false) (db_escenario 0) O.
Proof.
  split; [cbn; lia|].
  apply (distribuir_sin_efecto (pedido_ejemplo 1 0) (db_escenario 0) (D 0 (-2))
           campo_aduana_imputada); [left; cbn; lia | reflexivity].
Defined.

(** C8.  The batch write of [_distribuir_coste] is all or nothing: when
    the operation returns [True] every row of the order holds the value
    stored for its share (and the other rows are as before); when it
    returns [False] or raises, the table is exactly as it was, and the
    exception is what the caller gets. *)
Theorem distribuir_atomico (self : Pedido) (total : option Dec.t) (f : Campo)
    (db : DB) :
  claves_validas (articulos db) = true ->
  let o := _distribuir_coste self total f db in
  let base := or_cero (aggregate_sum_coste_euro (articulos_de self db)) in
  match res o with
  | Ok true =>
      db_after o =
        mkDB (pedidos db) (map (actualizar self f total base) (articulos db)) /\
      forall r, In r (articulos_de self db) ->
        exists v, cuota_escrita f total base r = Ok v /\
                  In (setattr r f v) (articulos (db_after o))
  | Ok false => db_after o = db
  | Raise _ => db_after o = db
  end.
Proof.
  intros Hk o base.
  destruct total as [T|].
  2:{ reflexivity. }
  destruct (distribuir_casos self f T db Hk) as [H|[[[e He] H]|H]]; fold o in H.
  - rewrite H. reflexivity.
  - fold o in He. rewrite He. exact H.
  - fold base in H. destruct H as (_ & _ & _ & [ws Hws] & Hr & Hd).
    rewrite Hr. split; [exact Hd|].
    intros r Hin.
    destruct (mapR_ok_in _ _ _ Hws r Hin) as [v Hv].
    exists v. split; [exact Hv|].
    rewrite Hd. cbn [articulos].
    apply filter_In in Hin. destruct Hin as [Hin Hb].
    apply in_map_iff. exists r. split; [|exact Hin].
    unfold actualizar. rewrite Hb. unfold valor_escrito. rewrite Hv. reflexivity.
Qed.

Lemma distribuir_atomico_witness :
  claves_validas (articulos db_desborde) = true /\
  let o := _distribuir_coste (pedido_ejemplo 1 5000) (Some (D 5000 (-2)))
             campo_aduana_imputada db_desborde in
  let base := or_cero (aggregate_sum_coste_euro
                         (articulos_de (pedido_ejemplo 1 5000) db_desborde)) in
  match res o with
  | Ok true =>
      db_after o =
        mkDB (pedidos db_desborde)
          (map (actualizar (pedido_ejemplo 1 5000) campo_aduana_imputada
                  (Some (D 5000 (-2))) base) (articulos db_desborde)) /\
      forall r, In r (articulos_de (pedido_ejemplo 1 5000) db_desborde) ->
        exists v,
          cuota_escrita campo_aduana_imputada (Some (D 5000 (-2))) base r = Ok v /\
          In (setattr r campo_aduana_imputada v) (articulos (db_after o))
  | Ok false => db_after o = db_desborde
  | Raise _ => db_after o = db_desborde
  end.
Proof.
  split; [reflexivity|].
  exact (distribuir_atomico (pedido_ejemplo 1 5000) (Some (D 5000 (-2)))
           campo_aduana_imputada db_desborde eq_refl).
Defined.

(** The order of [db_desborde]: the second share is rejected, the
    exception reaches the caller and the table is the one before. *)
Example distribuir_desborde :
  let o := distribuir_gastos_aduana (pedido_ejemplo 1 5000) db_desborde in
  res o = Raise InvalidOperation /\ db_after o = db_desborde.
Proof. vm_compute. split; reflexivity. Qed.

(** Without the decorator the same order is left half-updated: the
    first share is written before the second is rejected. *)
Example cuerpo_sin_decorador_parcial :
  let o := distribuir_coste_cuerpo (pedido_ejemplo 1 5000) (Some (D 5000 (-2)))
             campo_aduana_imputada db_desborde in
  res o = Raise InvalidOperation /\
  map aduana_imputada (articulos (db_after o)) =
    [Some (D 2500 (-2)); Some (D 0 (-2)); Some (D 0 (-2))].
Proof. vm_compute. split; reflexivity. Qed.

Lemma escenario_general (self : Pedido) (db : DB) (a1 a2 : Articulo)
    (T w1 w2 : Dec.t) :
  claves_validas (articulos db) = true ->
  articulos_de self db = [a1; a2] ->
  coste_euro a1 = Some (D 1000 (-2)) ->
  coste_euro a2 = Some (D 2000 (-2)) ->
  0 < Dec.coeff T ->
  cuota_escrita campo_aduana_imputada (Some T) (D 3000 (-2))
    (articulo_ejemplo 1 1 1000) = Ok (Some w1) ->
  cuota_escrita campo_aduana_imputada (Some T) (D 3000 (-2))
    (articulo_ejemplo 2 1 2000) = Ok (Some w2) ->
  let o := _distribuir_coste self (Some T) campo_aduana_imputada db in
  res o = Ok true /\
  articulos_de self (db_after o) =
    [setattr a1 campo_aduana_imputada (Some w1);
     setattr a2 campo_aduana_imputada (Some w2)].
Proof.
  intros Hk Hrows Hc1 Hc2 HT Hw1 Hw2 o.
  assert (Hne : articulos_de self db <> []) by (rewrite Hrows; discriminate).
  assert (Hbase : or_cero (aggregate_sum_coste_euro (articulos_de self db)) = D 3000 (-2)).
  { rewrite Hrows. unfold aggregate_sum_coste_euro. cbn [map sql_sum].
    rewrite Hc1, Hc2. reflexivity. }
  assert (E1 : cuota_escrita campo_aduana_imputada (Some T) (D 3000 (-2)) a1 = Ok (Some w1)).
  { rewrite <- Hw1. unfold cuota_escrita, cuota_de. rewrite Hc1. reflexivity. }
  assert (E2 : cuota_escrita campo_aduana_imputada (Some T) (D 3000 (-2)) a2 = Ok (Some w2)).
  { rewrite <- Hw2. unfold cuota_escrita, cuota_de. rewrite Hc2. reflexivity. }
  pose proof (distribuir_spec self campo_aduana_imputada T db Hk HT Hne) as H.
  cbv zeta in H. fold o in H. rewrite Hbase in H.
  specialize (H eq_refl).
  rewrite Hrows in H. cbn [mapR] in H. rewrite E1, E2 in H. cbn [rbind] in H.
  destruct H as [Hr Hd]. split; [exact Hr|].
  rewrite Hd, articulos_de_actualizar, Hrows. cbn [map].
  assert (Hb : forall a, In a [a1; a2] -> (pedido_id a =? pedido_pk self) = true).
  { intros a Ha. rewrite <- Hrows in Ha. apply filter_In in Ha. apply Ha. }
  unfold actualizar, valor_escrito.
  rewrite (Hb a1), (Hb a2) by (cbn; auto).
  rewrite E1, E2. reflexivity.
Qed.

(** C9.  An order with exactly two articles of base costs 10.00 and
    20.00: with 30.00 of customs [distribuir_gastos_aduana] stores
    10.00 and 20.00, with 15.00 of customs it stores 5.00 and 10.00. *)
Theorem escenario_aduana (self : Pedido) (db : DB) (a1 a2 : Articulo) :
  claves_validas (articulos db) = true ->
  articulos_de self db = [a1; a2] ->
  coste_euro a1 = Some (D 1000 (-2)) ->
  coste_euro a2 = Some (D 2000 (-2)) ->
  (gastos_aduana self = Some (D 3000 (-2)) ->
   let o := distribuir_gastos_aduana self db in
   res o = Ok true /\
   articulos_de self (db_after o) =
     [setattr a1 campo_aduana_imputada (Some (D 1000 (-2)));
      setattr a2 campo_aduana_imputada (Some (D 2000 (-2)))]) /\
  (gastos_aduana self = Some (D 1500 (-2)) ->
   let o := distribuir_gastos_aduana self db in
   res o = Ok true /\
   articulos_de self (db_after o) =
     [setattr a1 campo_aduana_imputada (Some (D 500 (-2)));
      setattr a2 campo_aduana_imputada (Some (D 1000 (-2)))]).
Proof.
  intros Hk Hrows Hc1 Hc2. split; intros Hg; unfold distribuir_gastos_aduana;
    rewrite Hg.
  - apply escenario_general; try assumption.
    + reflexivity.
    + vm_compute; reflexivity.
    + vm_compute; reflexivity.
  - apply escenario_general; try assumption.
    + reflexivity.
    + vm_compute; reflexivity.
    + vm_compute; reflexivity.
Qed.

Lemma escenario_aduana_witness :
  map aduana_imputada
    (articulos (db_after (distribuir_gastos_aduana (pedido_ejemplo 1 3000)
                            (db_escenario 3000)))) =
    [Some (D 1000 (-2)); Some (D 2000 (-2)); Some (D 0 (-2))] /\
  map aduana_imputada
    (articulos_de (pedido_ejemplo 1 1500)
       (db_after (distribuir_gastos_aduana (pedido_ejemplo 1 1500)
                    (db_escenario 1500)))) =
    [Some (D 500 (-2)); Some (D 1000 (-2))].
Proof.
  split; [vm_compute; reflexivity|].
  destruct (escenario_aduana (pedido_ejemplo 1 1500) (db_escenario 1500)
              (articulo_ejemplo 1 1 1000) (articulo_ejemplo 2 1 2000)
              eq_refl eq_refl eq_refl eq_refl) as [_ H].
  destruct (H eq_refl) as [_ H2]. rewrite H2. reflexivity.
Defined.

(** C5 on the code: an article whose individual shipping cost is NULL
    (the column is declared [null=True]) makes
    [coste_adquisicion_total] raise [TypeError]; only the VAT is
    replaced by zero when it is NULL. *)
Example coste_adquisicion_total_envio_nulo :
  coste_adquisicion_total articulo_sin_envio = Raise TypeError.
Proof. vm_compute. reflexivity. Qed.

(** * Exact arithmetic on stored money *)

Lemma add_dinero (a b : Dec.t) :
  Dec.exp a = -2 -> Dec.exp b = -2 ->
  Z.abs (Dec.coeff a + Dec.coeff b) < 10 ^ 28 ->
  Dec.add a b = D (Dec.coeff a + Dec.coeff b) (-2).
Proof.
  intros Ha Hb Hs. unfold Dec.add, Dec.add_exact. rewrite Ha, Hb.
  change (Z.min (-2) (-2)) with (-2). change (-2 - -2) with 0.
  change (10 ^ 0) with 1. rewrite !Z.mul_1_r.
  apply DecFacts.fix_small. exact Hs.
Qed.

Lemma sub_dinero (a b : Dec.t) :
  Dec.exp a = -2 -> Dec.exp b = -2 ->
  Z.abs (Dec.coeff a - Dec.coeff b) < 10 ^ 28 ->
  Dec.sub a b = D (Dec.coeff a - Dec.coeff b) (-2).
Proof.
  intros Ha Hb Hs. unfold Dec.sub.
  assert (E : Dec.coeff a + Dec.coeff (Dec.neg b) = Dec.coeff a - Dec.coeff b)
    by (cbn [Dec.neg Dec.coeff]; lia).
  rewrite add_dinero.
  - rewrite E. reflexivity.
  - exact Ha.
  - exact Hb.
  - rewrite E. exact Hs.
Qed.

Lemma add_exact_dinero (a b : Dec.t) :
  Dec.exp a = -2 -> Dec.exp b = -2 ->
  Dec.add_exact a b = D (Dec.coeff a + Dec.coeff b) (-2).
Proof.
  intros Ha Hb. unfold Dec.add_exact. rewrite Ha, Hb.
  change (Z.min (-2) (-2)) with (-2). change (-2 - -2) with 0.
  change (10 ^ 0) with 1. rewrite !Z.mul_1_r. reflexivity.
Qed.

Lemma mul_exacta (a b : Dec.t) :
  Z.abs (Dec.coeff a * Dec.coeff b) < 10 ^ 28 ->
  Dec.mul a b = D (Dec.coeff a * Dec.coeff b) (Dec.exp a + Dec.exp b).
Proof. intros H. unfold Dec.mul. apply DecFacts.fix_small. exact H. Qed.

(** The value [iva or Decimal('0.00')] of a stored VAT. *)
Lemma or_cero_dinero (v : option Dec.t) :
  es_dinero_opt v ->
  or_cero v = D (centimos v) (-2).
Proof.
  destruct v as [[c e]|]; cbn [es_dinero_opt or_cero centimos]; [|reflexivity].
  intros [He _]. cbn in He. subst e. unfold Dec.truthy. cbn [Dec.coeff].
  destruct (Z.eqb_spec c 0) as [->|]; reflexivity.
Qed.

Section ArticuloValido.

Variable self : Articulo.
Variables c s a n : Dec.t.

Hypothesis Hc : coste_euro self = Some c.
Hypothesis Hs : coste_envio_individual self = Some s.
Hypothesis Ha : aduana_imputada self = Some a.
Hypothesis Hn : coste_envio_nacional self = Some n.
Hypothesis Dc : es_dinero c.
Hypothesis Ds : es_dinero s.
Hypothesis Da : es_dinero a.
Hypothesis Dn : es_dinero n.
Hypothesis Di : es_dinero_opt (iva self).

Let total : Z :=
  Dec.coeff c + centimos (iva self) + Dec.coeff s + Dec.coeff a + Dec.coeff n.

Lemma centimos_iva_cota : Z.abs (centimos (iva self)) < 10 ^ 10.
Proof.
  destruct (iva self) as [i|]; cbn [centimos es_dinero_opt] in *.
  - apply Di.
  - cbn. lia.
Qed.

Lemma coste_adquisicion_total_valido :
  coste_adquisicion_total self = Ok (D total (-2)).
Proof.
  pose proof centimos_iva_cota as Hi.
  destruct Dc as [Ec Bc], Ds as [Es Bs], Da as [Ea Ba], Dn as [En Bn].
  assert (P28 : 10 ^ 10 * 8 < 10 ^ 28) by (vm_compute; reflexivity).
  unfold coste_adquisicion_total.
  rewrite Hc, Hs, Ha, Hn, (or_cero_dinero _ Di).
  cbn [py_add rbind].
  rewrite (add_dinero c) by (cbn [D Dec.exp Dec.coeff]; try assumption; try reflexivity; lia).
  cbn [rbind].
  rewrite (add_dinero _ s) by (cbn [D Dec.exp Dec.coeff]; try assumption; try reflexivity; lia).
  rewrite (add_dinero _ a) by (cbn [D Dec.exp Dec.coeff]; try assumption; try reflexivity; lia).
  rewrite (add_dinero _ n) by (cbn [D Dec.exp Dec.coeff]; try assumption; try reflexivity; lia).
  reflexivity.
Qed.

Lemma total_cota : Z.abs total < 10 ^ 10 * 5.
Proof.
  pose proof centimos_iva_cota as Hi.
  destruct Dc as [_ Bc], Ds as [_ Bs], Da as [_ Ba], Dn as [_ Bn].
  unfold total. lia.
Qed.

Lemma beneficio_valido (pv : Dec.t) :
  precio_venta self = Some pv -> es_dinero pv ->
  beneficio self = Ok (Some (D (Dec.coeff pv - total - Dec.coeff n) (-2))).
Proof.
  intros Hp [Ep Bp]. pose proof total_cota as Ht.
  destruct Dn as [En Bn].
  assert (P28 : 10 ^ 10 * 8 < 10 ^ 28) by (vm_compute; reflexivity).
  unfold beneficio. rewrite Hp, coste_adquisicion_total_valido, Hn.
  cbn [rbind py_sub].
  rewrite (sub_dinero pv) by (cbn [D Dec.exp Dec.coeff]; try assumption; try reflexivity; lia).
  rewrite (sub_dinero _ n) by (cbn [D Dec.exp Dec.coeff]; try assumption; try reflexivity; lia).
  reflexivity.
Qed.

End ArticuloValido.

(** * The read-only properties of an article *)

Lemma es_dinero_req_some (v : option Dec.t) :
  es_dinero_req v -> exists d, v = Some d /\ es_dinero d.
Proof. destruct v as [d|]; cbn; [eauto|tauto]. Qed.

Lemma costes_validos_total (r : Articulo) (pv : Dec.t) :
  precio_venta r = Some pv -> es_dinero pv -> costes_validos r ->
  coste_adquisicion_total r = Ok (D (suma_costes r) (-2)) /\
  beneficio r =
    Ok (Some (D (Dec.coeff pv - suma_costes r - centimos (coste_envio_nacional r)) (-2))) /\
  Z.abs (suma_costes r) < 10 ^ 10 * 5.
Proof.
  intros Hp Dp (Hc & Hs & Hi & Ha & Hn).
  destruct (es_dinero_req_some _ Hc) as (c & Ec & Dc).
  destruct (es_dinero_req_some _ Hs) as (s & Es & Ds).
  destruct (es_dinero_req_some _ Ha) as (a & Ea & Da).
  destruct (es_dinero_req_some _ Hn) as (n & En & Dn).
  unfold suma_costes. rewrite Ec, Es, Ea, En. cbn [centimos].
  split; [|split].
  - apply coste_adquisicion_total_valido; assumption.
  - apply beneficio_valido; assumption.
  - apply (total_cota r c s a n); assumption.
Qed.

(** C6.  For an article with a sale price, [beneficio] is the sale
    price minus the total acquisition cost minus the national shipping
    cost; on stored values the arithmetic is exact, so the national
    shipping cost is counted twice: the profit in cents is the price
    minus the five cost columns minus the national shipping again. *)
Theorem beneficio_resta_dos_veces (self : Articulo) (pv : Dec.t) :
  precio_venta self = Some pv ->
  (forall ct n,
     coste_adquisicion_total self = Ok ct ->
     coste_envio_nacional self = Some n ->
     beneficio self = Ok (Some (Dec.sub (Dec.sub pv ct) n))) /\
  (es_dinero pv -> costes_validos self ->
   coste_adquisicion_total self = Ok (D (suma_costes self) (-2)) /\
   beneficio self =
     Ok (Some (D (Dec.coeff pv - suma_costes self
                  - centimos (coste_envio_nacional self)) (-2)))).
Proof.
  intros Hp. split.
  - intros ct n Hct Hn. unfold beneficio. rewrite Hp, Hct, Hn. reflexivity.
  - intros Dp Hv.
    destruct (costes_validos_total self pv Hp Dp Hv) as (H1 & H2 & _).
    split; assumption.
Qed.

Lemma articulo_vendido_valido : costes_validos articulo_vendido.
Proof. repeat split; reflexivity. Qed.

Lemma beneficio_resta_dos_veces_witness :
  precio_venta articulo_vendido = Some (D 5000 (-2)) /\
  beneficio articulo_vendido = Ok (Some (D 3040 (-2))).
Proof.
  split; [reflexivity|].
  destruct (beneficio_resta_dos_veces articulo_vendido (D 5000 (-2)) eq_refl)
    as [_ H].
  destruct (H ltac:(split; reflexivity) articulo_vendido_valido) as [_ H2].
  rewrite H2. reflexivity.
Defined.

(** * Saving an article *)

Lemma rhe_div_0 (m : Z) : Dec.rhe_div 0 m = 0.
Proof. reflexivity. Qed.

Lemma rescale_rhe (e : Z) (d : Dec.t) :
  Dec.exp d < e ->
  Dec._rescale e d = D (Dec.rhe_div (Dec.coeff d) (10 ^ (e - Dec.exp d))) e.
Proof.
  intros H. unfold Dec._rescale.
  destruct (Z.eqb_spec (Dec.coeff d) 0) as [->|_]; [reflexivity|].
  destruct (Z.leb_spec e (Dec.exp d)); [lia|reflexivity].
Qed.

Lemma quantize_ok (p e : Z) (d q : Dec.t) :
  Dec.quantize p e d = Ok q -> q = Dec._rescale e d.
Proof.
  unfold Dec.quantize.
  destruct (Z.eqb_spec (Dec.coeff d) 0) as [E|_].
  - intros [= <-]. unfold Dec._rescale. rewrite E. reflexivity.
  - destruct (p <? _); [discriminate|].
    destruct (p <? _); [discriminate|]. intros [= <-]. reflexivity.
Qed.

(** A stored money value goes through the column unchanged. *)
Lemma adapt_dinero (d : Dec.t) :
  es_dinero d -> adapt_decimalfield_value 10 2 (Some d) = Ok (Some d).
Proof.
  destruct d as [c e]. intros [He Hb]. cbn in He, Hb. subst e.
  unfold adapt_decimalfield_value, Dec.quantize. cbn [Dec.coeff Dec.exp Z.opp].
  destruct (Z.eqb_spec c 0) as [->|Hc]; [reflexivity|].
  assert (Hn : Dec.ndigits (Z.abs c) <= 10)
    by (apply DecFacts.ndigits_le; lia).
  destruct (Z.ltb_spec 10 (Dec.ndigits (Z.abs c) + -2 - -2)); [lia|].
  unfold Dec._rescale. cbn [Dec.coeff Dec.exp].
  destruct (Z.eqb_spec c 0); [contradiction|].
  change (-2 <=? -2) with true. cbn match.
  change (-2 - -2) with 0. change (10 ^ 0) with 1. rewrite Z.mul_1_r.
  cbn [Dec.coeff].
  destruct (Z.ltb_spec 10 (Dec.ndigits (Z.abs c))); [lia|]. reflexivity.
Qed.

Lemma adapt_dinero_opt (v : option Dec.t) :
  es_dinero_opt v -> adapt_decimalfield_value 10 2 v = Ok v.
Proof. destruct v; [apply adapt_dinero|reflexivity]. Qed.

Lemma adapt_some (d : Dec.t) (v : option Dec.t) :
  adapt_decimalfield_value 10 2 (Some d) = Ok v ->
  v = Some (Dec._rescale (-2) d).
Proof.
  unfold adapt_decimalfield_value.
  destruct (Dec.quantize 10 (- (2)) d) as [q|] eqn:E; cbn [rbind]; [|discriminate].
  intros [= <-]. f_equal. apply (quantize_ok _ _ _ _ E).
Qed.

(** What the written row shares with the object. *)
Lemma fila_de_ok (s fila : Articulo) :
  fila_de s = Ok fila ->
  pk fila = pk s /\ pedido_id fila = pedido_id s /\
  coste_yen fila = coste_yen s /\
  adapt_decimalfield_value 10 2 (iva s) = Ok (iva fila) /\
  (exists ce, adapt_decimalfield_value 10 2 (coste_euro s) = Ok (Some ce) /\
              coste_euro fila = Some ce).
Proof.
  unfold fila_de.
  destruct (adapt_decimalfield_value 10 2 (coste_euro s)) as [[ce|]|]; cbn [rbind not_null];
    try discriminate.
  destruct (adapt_decimalfield_value 10 2 (coste_envio_individual s)); cbn [rbind];
    [|discriminate].
  destruct (adapt_decimalfield_value 10 2 (iva s)); cbn [rbind]; [|discriminate].
  destruct (adapt_decimalfield_value 10 2 (aduana_imputada s)) as [[?|]|];
    cbn [rbind not_null]; try discriminate.
  destruct (adapt_decimalfield_value 10 2 (precio_venta s)) as [[?|]|];
    cbn [rbind not_null]; try discriminate.
  destruct (adapt_decimalfield_value 10 2 (venta_objetiva s)) as [[?|]|];
    cbn [rbind not_null]; try discriminate.
  destruct (adapt_decimalfield_value 10 2 (coste_envio_nacional s)) as [[?|]|];
    cbn [rbind not_null]; try discriminate.
  intros [= <-]. cbn. repeat split; eauto.
Qed.

Lemma find_reemplazo (k : Z) (fila : Articulo) (tbl : list Articulo) (x : Articulo) :
  pk fila = Some k ->
  find (fun r => pk_eqb (pk r) (Some k)) tbl = Some x ->
  find (fun r => pk_eqb (pk r) (Some k))
    (map (fun r => if pk_eqb (pk r) (Some k) then fila else r) tbl) = Some fila.
Proof.
  intros Hf. induction tbl as [|y rest IH]; cbn [find map]; [discriminate|].
  destruct (pk_eqb (pk y) (Some k)) eqn:E.
  - intros _. rewrite Hf. cbn [pk_eqb]. rewrite Z.eqb_refl. reflexivity.
  - rewrite E. exact IH.
Qed.

Lemma find_al_final (k : Z) (fila : Articulo) (tbl : list Articulo) :
  pk fila = Some k ->
  find (fun r => pk_eqb (pk r) (Some k)) tbl = None ->
  find (fun r => pk_eqb (pk r) (Some k)) (tbl ++ [fila]) = Some fila.
Proof.
  intros Hf. induction tbl as [|y rest IH]; cbn [find app].
  - intros _. rewrite Hf. cbn [pk_eqb]. rewrite Z.eqb_refl. reflexivity.
  - destruct (pk_eqb (pk y) (Some k)); [discriminate|exact IH].
Qed.

Lemma max_pk_cota (tbl : list Articulo) (r : Articulo) (j : Z) :
  In r tbl -> pk r = Some j -> j <= max_pk tbl.
Proof.
  induction tbl as [|y rest IH]; cbn [In max_pk fold_right]; [tauto|].
  intros [->|Hin] Hj.
  - rewrite Hj. lia.
  - specialize (IH Hin Hj). unfold max_pk in IH.
    destruct (pk y); lia.
Qed.

Lemma find_clave_nueva (tbl : list Articulo) :
  find (fun r => pk_eqb (pk r) (Some (max_pk tbl + 1))) tbl = None.
Proof.
  destruct (find _ tbl) as [x|] eqn:E; [exfalso|reflexivity].
  apply find_some in E. destruct E as [Hin Hk].
  destruct (pk x) as [j|] eqn:Ej; cbn [pk_eqb] in Hk; [|discriminate].
  apply Z.eqb_eq in Hk. pose proof (max_pk_cota tbl x j Hin Ej). lia.
Qed.

(** After a successful [super().save()] the object has a key and the
    row found under that key is the one prepared from the object. *)
Lemma super_save_ok (s s' : Articulo) (db : DB) :
  res (super_save s db) = Ok s' ->
  exists k fila,
    pk s' = Some k /\ fila_de s' = Ok fila /\
    buscar_articulo k (db_after (super_save s db)) = Some fila /\
    iva s' = iva s /\ coste_yen s' = coste_yen s /\ coste_euro s' = coste_euro s /\
    pedidos (db_after (super_save s db)) = pedidos db.
Proof.
  unfold super_save, buscar_articulo.
  destruct (pk s) as [k|] eqn:Ek.
  - destruct (fila_de s) as [fila|] eqn:Ef; cbn [res]; [|discriminate].
    destruct (fila_de_ok _ _ Ef) as (Hpk & _).
    rewrite Ek in Hpk.
    destruct (find (fun r => pk_eqb (pk r) (Some k)) (articulos db)) as [x|] eqn:Efd;
      cbn [res db_after articulos pedidos]; intros [= <-];
      exists k, fila; repeat split; try assumption.
    + eapply find_reemplazo; eassumption.
    + apply find_al_final; assumption.
  - set (k := max_pk (articulos db) + 1).
    destruct (fila_de (set_pk s k)) as [fila|] eqn:Ef; cbn [res]; [|discriminate].
    destruct (fila_de_ok _ _ Ef) as (Hpk & _). cbn [set_pk pk] in Hpk.
    cbn [res db_after articulos pedidos]. intros [= <-].
    exists k, fila. repeat split; try assumption.
    apply find_al_final; [assumption|apply find_clave_nueva].
Qed.

Lemma save_ok (self self' : Articulo) (db : DB) (p : Pedido) :
  buscar_pedido (pedido_id self) db = Some p ->
  res (save self db) = Ok self' ->
  let s := calcular_coste_yen p (calcular_iva p self) in
  res (super_save s db) = Ok self' /\
  db_after (save self db) = db_after (super_save s db).
Proof.
  intros Hp. unfold save, bind, self_pedido. rewrite Hp.
  cbn [res db_after divisions]. intros H. split; [exact H|reflexivity].
Qed.

Lemma iva_calcular_coste_yen (p : Pedido) (s : Articulo) :
  iva (calcular_coste_yen p s) = iva s /\
  coste_euro (calcular_coste_yen p s) = coste_euro s.
Proof.
  unfold calcular_coste_yen.
  destruct (tasa_cambio_eur_jpy p) as [t|]; [|split; reflexivity].
  destruct (coste_euro s) as [c|] eqn:Ec; [|split; [reflexivity|assumption]].
  destruct (_ && _); cbn [set_coste_yen iva coste_euro]; split;
    try reflexivity; assumption.
Qed.

Lemma coste_euro_calcular_iva (p : Pedido) (s : Articulo) :
  coste_euro (calcular_iva p s) = coste_euro s.
Proof.
  unfold calcular_iva.
  destruct (tasa_iva p) as [t|]; [|reflexivity].
  destruct (coste_euro s) as [c|] eqn:Ec; [|assumption].
  destruct (_ && _); cbn [set_iva coste_euro]; assumption.
Qed.

Lemma save_fila (self self' : Articulo) (db : DB) (p : Pedido) :
  buscar_pedido (pedido_id self) db = Some p ->
  res (save self db) = Ok self' ->
  exists k fila,
    pk self' = Some k /\
    buscar_articulo k (db_after (save self db)) = Some fila /\
    adapt_decimalfield_value 10 2 (iva (calcular_iva p self)) = Ok (iva fila) /\
    iva self' = iva (calcular_iva p self) /\
    coste_yen fila = coste_yen (calcular_coste_yen p (calcular_iva p self)).
Proof.
  intros Hp Hs.
  destruct (save_ok self self' db p Hp Hs) as [H1 H2].
  destruct (super_save_ok _ _ _ H1) as (k & fila & Hk & Hf & Hb & Hi & Hy & _).
  destruct (fila_de_ok _ _ Hf) as (_ & _ & Fy & Fi & _).
  destruct (iva_calcular_coste_yen p (calcular_iva p self)) as [Ei _].
  exists k, fila. rewrite H2. repeat split; try assumption; congruence.
Qed.

(** C3.  When an article is saved under an order with a VAT rate and
    with a base cost that is not zero, the row stored holds the product
    base cost x rate at two decimal places (half-even); with stored
    operands that is the integer nearest to cents x rate / 100.  When
    the base cost is None or zero the computation is skipped: the VAT
    of the object is the one it had, and the row keeps that value. *)
Theorem iva_al_guardar (self self' : Articulo) (db : DB) (p : Pedido) :
  buscar_pedido (pedido_id self) db = Some p ->
  res (save self db) = Ok self' ->
  exists k fila,
    pk self' = Some k /\
    buscar_articulo k (db_after (save self db)) = Some fila /\
    (forall c t,
       coste_euro self = Some c -> tasa_iva p = Some t ->
       Dec.truthy c = true -> Dec.truthy t = true ->
       iva fila = Some (Dec._rescale (-2) (Dec.mul c t)) /\
       (es_dinero c -> Dec.exp t = -2 -> Z.abs (Dec.coeff t) < 10 ^ 5 ->
        iva fila = Some (D (Dec.rhe_div (Dec.coeff c * Dec.coeff t) 100) (-2)))) /\
    (py_truthy (coste_euro self) = false ->
     iva self' = iva self /\
     adapt_decimalfield_value 10 2 (iva self) = Ok (iva fila) /\
     (es_dinero_opt (iva self) -> iva fila = iva self)).
Proof.
  intros Hp Hs.
  destruct (save_fila self self' db p Hp Hs) as (k & fila & Hk & Hb & Fi & Hi & _).
  exists k, fila. split; [exact Hk|]. split; [exact Hb|]. split.
  - intros c t Hc Ht Tc Tt.
    assert (E : iva (calcular_iva p self) = Some (Dec.mul c t)).
    { unfold calcular_iva. rewrite Ht, Hc, Tt, Tc. reflexivity. }
    rewrite E in Fi. apply adapt_some in Fi. split; [exact Fi|].
    intros [Ec Bc] Et Bt. rewrite Fi. f_equal.
    assert (Hprod : Z.abs (Dec.coeff c * Dec.coeff t) < 10 ^ 28).
    { rewrite Z.abs_mul.
      assert (P : 10 ^ 10 * 10 ^ 5 < 10 ^ 28) by (vm_compute; reflexivity).
      pose proof (Z.abs_nonneg (Dec.coeff c)). pose proof (Z.abs_nonneg (Dec.coeff t)).
      nia. }
    rewrite (mul_exacta c t Hprod), Ec, Et.
    rewrite rescale_rhe by (cbn; lia). reflexivity.
  - intros Hf.
    assert (E : calcular_iva p self = self).
    { unfold calcular_iva. destruct (tasa_iva p) as [t|]; [|reflexivity].
      destruct (coste_euro self) as [c|]; [|reflexivity].
      cbn [py_truthy] in Hf. rewrite Hf, andb_false_r. reflexivity. }
    rewrite E in Fi, Hi. split; [exact Hi|]. split; [exact Fi|].
    intros Hd. rewrite (adapt_dinero_opt _ Hd) in Fi. congruence.
Qed.

Lemma iva_al_guardar_witness :
  let self := articulo_ejemplo 7 1 1050 in
  let o := save self (db_escenario 3000) in
  exists self' k fila,
    buscar_pedido (pedido_id self) (db_escenario 3000) = Some (pedido_ejemplo 1 3000) /\
    res o = Ok self' /\
    pk self' = Some k /\ buscar_articulo k (db_after o) = Some fila /\
    iva fila = Some (D 220 (-2)).
Proof.
  intros self o.
  assert (Hp : buscar_pedido (pedido_id self) (db_escenario 3000)
               = Some (pedido_ejemplo 1 3000)) by reflexivity.
  assert (Hs : res o = Ok (set_coste_yen (set_iva self (Some (D 22050 (-4)))) (Some 1732)))
    by (vm_compute; reflexivity).
  destruct (iva_al_guardar self _ (db_escenario 3000) _ Hp Hs)
    as (k & fila & Hk & Hb & H1 & _).
  destruct (H1 (D 1050 (-2)) (D 21 (-2)) eq_refl eq_refl eq_refl eq_refl) as [_ H2].
  exists (set_coste_yen (set_iva self (Some (D 22050 (-4)))) (Some 1732)), k, fila.
  split; [exact Hp|]. split; [exact Hs|]. split; [exact Hk|]. split; [exact Hb|].
  rewrite H2; [reflexivity| split; reflexivity | reflexivity | reflexivity].
Defined.

(** C4.  When an article is saved under an order with an exchange rate
    and with a base cost that is not zero, the row stored holds
    [round(base cost x rate)]; with stored operands that is an integer
    nearest to the exact product, and the even one when the product
    lies half-way between two integers (banker's rounding). *)
Theorem coste_yen_al_guardar (self self' : Articulo) (db : DB) (p : Pedido) :
  buscar_pedido (pedido_id self) db = Some p ->
  res (save self db) = Ok self' ->
  exists k fila,
    pk self' = Some k /\
    buscar_articulo k (db_after (save self db)) = Some fila /\
    forall c t,
      coste_euro self = Some c -> tasa_cambio_eur_jpy p = Some t ->
      Dec.truthy c = true -> Dec.truthy t = true ->
      coste_yen fila = Some (Dec.round_int (Dec.mul c t)) /\
      (es_dinero c -> Dec.exp t = -4 -> Z.abs (Dec.coeff t) < 10 ^ 10 ->
       let y := Dec.rhe_div (Dec.coeff c * Dec.coeff t) (10 ^ 6) in
       coste_yen fila = Some y /\
       2 * Z.abs (y * 10 ^ 6 - Dec.coeff c * Dec.coeff t) <= 10 ^ 6 /\
       (2 * Z.abs (y * 10 ^ 6 - Dec.coeff c * Dec.coeff t) = 10 ^ 6 ->
        Z.even y = true)).
Proof.
  intros Hp Hs.
  destruct (save_fila self self' db p Hp Hs) as (k & fila & Hk & Hb & _ & _ & Fy).
  exists k, fila. split; [exact Hk|]. split; [exact Hb|].
  intros c t Hc Ht Tc Tt.
  assert (E : coste_yen (calcular_coste_yen p (calcular_iva p self))
              = Some (Dec.round_int (Dec.mul c t))).
  { unfold calcular_coste_yen.
    rewrite Ht, coste_euro_calcular_iva, Hc, Tt, Tc. reflexivity. }
  rewrite E in Fy. split; [exact Fy|].
  intros [Ec Bc] Et Bt y.
  assert (Hprod : Z.abs (Dec.coeff c * Dec.coeff t) < 10 ^ 28).
  { rewrite Z.abs_mul.
    assert (P : 10 ^ 10 * 10 ^ 10 < 10 ^ 28) by (vm_compute; reflexivity).
    pose proof (Z.abs_nonneg (Dec.coeff c)). pose proof (Z.abs_nonneg (Dec.coeff t)).
    nia. }
  split.
  - rewrite Fy. f_equal. unfold Dec.round_int.
    rewrite (mul_exacta c t Hprod), Ec, Et.
    rewrite rescale_rhe by (cbn; lia). reflexivity.
  - apply DecFacts.rhe_div_spec. reflexivity.
Qed.

Lemma coste_yen_al_guardar_witness :
  let self := articulo_nuevo 3 100 in
  let o := save self db_mitad in
  exists self' k fila,
    buscar_pedido (pedido_id self) db_mitad = Some pedido_mitad /\
    res o = Ok self' /\
    pk self' = Some k /\ buscar_articulo k (db_after o) = Some fila /\
    coste_yen fila = Some 100.
Proof.
  intros self o.
  assert (Hp : buscar_pedido (pedido_id self) db_mitad = Some pedido_mitad)
    by reflexivity.
  assert (Hs : res o = Ok (set_pk (set_coste_yen (set_iva self (Some (D 2100 (-4))))
                                     (Some 100)) 1))
    by (vm_compute; reflexivity).
  destruct (coste_yen_al_guardar self _ db_mitad _ Hp Hs)
    as (k & fila & Hk & Hb & H1).
  destruct (H1 (D 100 (-2)) (D 1005000 (-4)) eq_refl eq_refl eq_refl eq_refl)
    as [H2 _].
  exists (set_pk (set_coste_yen (set_iva self (Some (D 2100 (-4)))) (Some 100)) 1),
    k, fila.
  split; [exact Hp|]. split; [exact Hs|]. split; [exact Hk|]. split; [exact Hb|].
  rewrite H2. reflexivity.
Defined.

(** The half-way products 100.5 and 101.5 go to the even neighbours. *)
Example round_mitad :
  Dec.round_int (Dec.mul (D 100 (-2)) (D 1005000 (-4))) = 100 /\
  Dec.round_int (Dec.mul (D 100 (-2)) (D 1015000 (-4))) = 102.
Proof. vm_compute. split; reflexivity. Qed.

(** * Rounding errors of the decimal operations, over the reals *)

Local Open Scope R_scope.

Lemma p10_pos (e : Z) : 0 < p10 e.
Proof. apply powerRZ_lt. lra. Qed.

Lemma p10_add (a b : Z) : p10 (a + b) = p10 a * p10 b.
Proof. apply powerRZ_add. lra. Qed.

Lemma p10_0 : p10 0 = 1.
Proof. reflexivity. Qed.

Lemma p10_IZR (k : Z) : (0 <= k)%Z -> IZR (10 ^ k) = p10 k.
Proof.
  intros Hk. unfold p10. rewrite <- (Z2Nat.id k Hk).
  rewrite <- pow_IZR, <- pow_powerRZ. reflexivity.
Qed.

Lemma p10_le (a b : Z) : (a <= b)%Z -> p10 a <= p10 b.
Proof.
  intros H. replace b with (a + (b - a))%Z by lia. rewrite p10_add.
  rewrite <- (p10_IZR (b - a)) by lia.
  assert (1 <= IZR (10 ^ (b - a))).
  { apply IZR_le. pose proof (Z.pow_pos_nonneg 10 (b - a)). lia. }
  pose proof (p10_pos a). nra.
Qed.

Lemma p10_lt_inv (a b : Z) : p10 a < p10 b -> (a < b)%Z.
Proof.
  intros H. destruct (Z_lt_le_dec a b) as [|Hle]; [assumption|exfalso].
  pose proof (p10_le b a Hle). lra.
Qed.

Lemma p10_opp (a : Z) : p10 (- a) * p10 a = 1.
Proof. rewrite <- p10_add. replace (- a + a)%Z with 0%Z by lia. apply p10_0. Qed.

Lemma toR_mk (c e : Z) : Dec.toR (Dec.mk c e) = IZR c * p10 e.
Proof. reflexivity. Qed.

(** [_fix] moves a value by at most half a unit in the 28th digit. *)
Lemma fix_Z (d : Dec.t) :
  exists m : Z,
    Dec.toR (Dec._fix d) = IZR m * p10 (Dec.exp d) /\
    (2 * Z.abs (m - Dec.coeff d) * 10 ^ 27 <= Z.abs (Dec.coeff d))%Z.
Proof.
  destruct d as [c e]. unfold Dec._fix, Dec._fix_prec. cbn [Dec.coeff Dec.exp].
  set (n := Dec.ndigits (Z.abs c)).
  destruct (Z.leb_spec n Dec.prec) as [Hn|Hn].
  - exists c. split; [reflexivity|]. replace (c - c)%Z with 0%Z by lia. cbn. lia.
  - unfold Dec.prec in *. set (k := (n - 28)%Z).
    assert (Hk : (1 <= k)%Z) by (unfold k; lia).
    assert (Hc0 : (0 < Z.abs c)%Z).
    { destruct (Z.eq_dec (Z.abs c) 0) as [E|]; [|lia].
      unfold n in Hn. rewrite E in Hn. vm_compute in Hn. discriminate. }
    destruct (DecFacts.ndigits_spec (Z.abs c) Hc0) as (_ & Hlo & Hhi). fold n in Hlo, Hhi.
    assert (Hpk : (0 < 10 ^ k)%Z) by (apply Z.pow_pos_nonneg; lia).
    assert (Elo : (10 ^ (n - 1) = 10 ^ 27 * 10 ^ k)%Z).
    { rewrite <- Z.pow_add_r by lia. f_equal. unfold k. lia. }
    assert (Ehi : (10 ^ n = 10 ^ 28 * 10 ^ k)%Z).
    { rewrite <- Z.pow_add_r by lia. f_equal. unfold k. lia. }
    set (r := Dec.rhe_div c (10 ^ k)).
    destruct (DecFacts.rhe_div_spec c (10 ^ k) Hpk) as [Hr _]. fold r in Hr.
    pose proof (DecFacts.rhe_div_abs_le c (10 ^ k) Hpk) as Hra. fold r in Hra.
    assert (Hm : (2 * Z.abs (r * 10 ^ k - c) * 10 ^ 27 <= Z.abs c)%Z) by nia.
    assert (Hval : forall c' e', (c' * 10 ^ (e' - e) = r * 10 ^ k)%Z -> (e <= e')%Z ->
               Dec.toR (Dec.mk c' e') = IZR (r * 10 ^ k) * p10 e).
    { intros c' e' E He. rewrite toR_mk, <- E, mult_IZR, p10_IZR by lia.
      rewrite Rmult_assoc, <- p10_add. f_equal. f_equal. lia. }
    exists (r * 10 ^ k)%Z. split; [|exact Hm].
    destruct (Z.ltb_spec 28 (Dec.ndigits (Z.abs r))) as [Hcarry|Hcarry].
    + assert (H28 : (10 ^ 28 <= Z.abs r)%Z) by (apply DecFacts.ndigits_gt; lia).
      assert (Hle : (Z.abs r <= 10 ^ 28)%Z).
      { pose proof (Z.div_mod (10 ^ k) 2 ltac:(lia)).
        pose proof (Z.mod_pos_bound (10 ^ k) 2 ltac:(lia)). nia. }
      assert (Hq : (Z.quot r 10 * 10 = r)%Z).
      { assert (Er : r = (10 ^ 28)%Z \/ r = (- 10 ^ 28)%Z) by lia.
        destruct Er as [->| ->]; vm_compute; reflexivity. }
      apply Hval; [|lia].
      replace (e + k + 1 - e)%Z with (k + 1)%Z by lia.
      rewrite Z.pow_add_r by lia. change (10 ^ 1)%Z with 10%Z. rewrite <- Hq at 2. lia.
    + apply Hval; [|lia]. do 2 f_equal. lia.
Qed.

Lemma fix_err (d : Dec.t) :
  Rabs (Dec.toR (Dec._fix d) - Dec.toR d) <= Rabs (Dec.toR d) * u28.
Proof.
  destruct (fix_Z d) as (m & Hv & Hm). rewrite Hv. unfold Dec.toR at 1 2.
  fold (p10 (Dec.exp d)).
  replace (IZR m * p10 (Dec.exp d) - IZR (Dec.coeff d) * p10 (Dec.exp d))
    with (IZR (m - Dec.coeff d) * p10 (Dec.exp d)) by (rewrite minus_IZR; ring).
  rewrite !Rabs_mult, (Rabs_pos_eq (p10 _)) by (left; apply p10_pos).
  rewrite <- !abs_IZR.
  apply IZR_le in Hm. rewrite !mult_IZR in Hm.
  rewrite (p10_IZR 27) in Hm by lia.
  pose proof (p10_pos (Dec.exp d)) as He.
  pose proof (p10_opp 27 : p10 (-27) * p10 27 = 1) as Ho. pose proof (p10_pos (-27)) as Hn.
  pose proof (p10_pos 27) as Hp.
  unfold u28.
  assert (H1 : IZR (Z.abs (m - Dec.coeff d)) <= IZR (Z.abs (Dec.coeff d)) * (/ 2 * p10 (-27))).
  { assert (0 <= IZR (Z.abs (m - Dec.coeff d))) by (apply IZR_le; lia).
    assert (E : IZR (Z.abs (m - Dec.coeff d)) =
                (2 * IZR (Z.abs (m - Dec.coeff d)) * p10 27) * (/ 2 * p10 (-27))).
    { transitivity (IZR (Z.abs (m - Dec.coeff d)) * (p10 (-27) * p10 27)).
      - rewrite Ho. ring.
      - field. }
    rewrite E. apply Rmult_le_compat_r; [nra|]. exact Hm. }
  nra.
Qed.

Lemma u28_cotas : 0 < p10 (-27) /\ p10 (-27) <= 1 /\ p10 (-28) * 10 = p10 (-27).
Proof.
  split; [apply p10_pos|]. split.
  - rewrite <- p10_0. apply p10_le. lia.
  - assert (E : p10 1 = 10) by (exact (powerRZ_1 10)).
    rewrite <- E at 1. rewrite <- p10_add. reflexivity.
Qed.

(** A value within 1e-28 (relative) of [V] stays within 1e-27 of it
    after [_fix]. *)
Lemma fix_chain (d0 : Dec.t) (V : R) :
  Rabs (Dec.toR d0 - V) <= Rabs V * p10 (-28) ->
  Rabs (Dec.toR (Dec._fix d0) - V) <= Rabs V * p10 (-27).
Proof.
  intros H. pose proof (fix_err d0) as Hf. unfold u28 in Hf.
  destruct u28_cotas as (T0 & T1 & T2).
  set (t := p10 (-27)) in *. set (s := p10 (-28)) in *.
  pose proof (Rabs_pos V) as HV.
  assert (Hd0 : Rabs (Dec.toR d0) <= Rabs V + Rabs V * s).
  { replace (Dec.toR d0) with (V + (Dec.toR d0 - V)) by ring.
    eapply Rle_trans; [apply Rabs_triang|]. lra. }
  replace (Dec.toR (Dec._fix d0) - V)
    with ((Dec.toR (Dec._fix d0) - Dec.toR d0) + (Dec.toR d0 - V)) by ring.
  eapply Rle_trans; [apply Rabs_triang|].
  assert (Hs : s = t / 10) by lra.
  clearbody t s. subst s. clear T2.
  assert (Rabs (Dec.toR d0) * (/ 2 * t) <= (Rabs V + Rabs V * (t / 10)) * (/ 2 * t)).
  { apply Rmult_le_compat_r; [lra|exact Hd0]. }
  assert (HVt : 0 <= Rabs V * t) by (apply Rmult_le_pos; lra).
  assert (Rabs V * t * t <= Rabs V * t * 1) by (apply Rmult_le_compat_l; lra).
  first [lra | nra].
Qed.

Lemma mul_err (a b : Dec.t) :
  Rabs (Dec.toR (Dec.mul a b) - Dec.toR a * Dec.toR b)
  <= Rabs (Dec.toR a * Dec.toR b) * u28.
Proof.
  unfold Dec.mul.
  set (d := Dec.mk (Dec.coeff a * Dec.coeff b) (Dec.exp a + Dec.exp b)).
  assert (E : Dec.toR d = Dec.toR a * Dec.toR b).
  { unfold d. rewrite toR_mk, mult_IZR, p10_add. unfold Dec.toR. fold (p10 (Dec.exp a)).
    fold (p10 (Dec.exp b)). ring. }
  rewrite <- E. apply fix_err.
Qed.

Lemma strip_value (fuel : nat) :
  forall c e c' e',
    Dec.strip_zeros fuel c e = (c', e') ->
    (e <= e')%Z /\ (c' * 10 ^ (e' - e) = c)%Z.
Proof.
  induction fuel as [|f IH]; intros c e c' e'; cbn [Dec.strip_zeros].
  - intros [= <- <-]. rewrite Z.sub_diag. split; lia.
  - destruct (Z.eqb_spec (c mod 10) 0) as [E|E].
    + intros H. destruct (IH _ _ _ _ H) as [H1 H2]. split; [lia|].
      replace (e' - e)%Z with (Z.succ (e' - (e + 1)))%Z by lia.
      rewrite Z.pow_succ_r by lia.
      pose proof (Z.div_mod c 10 ltac:(lia)). nia.
    + intros [= <- <-]. rewrite Z.sub_diag. split; lia.
Qed.

Lemma IZR_div_sgn (A B : Z) :
  A <> 0%Z -> B <> 0%Z ->
  IZR A / IZR B = IZR (Z.sgn A * Z.sgn B) * (IZR (Z.abs A) / IZR (Z.abs B)).
Proof.
  intros HA HB.
  assert (NA : IZR (Z.abs A) <> 0) by (apply not_0_IZR; lia).
  assert (NB : IZR (Z.abs B) <> 0) by (apply not_0_IZR; lia).
  assert (NB' : IZR B <> 0) by (apply not_0_IZR; lia).
  rewrite mult_IZR.
  destruct (Z.sgn_spec A) as [[HA' ->]|[[HA' ->]|[HA' ->]]]; [|lia|];
  destruct (Z.sgn_spec B) as [[HB' ->]|[[HB' ->]|[HB' ->]]]; try lia.
  - rewrite !Z.abs_eq by lia. field. assumption.
  - rewrite (Z.abs_eq A), (Z.abs_neq B) by lia. rewrite !opp_IZR. field.
    assumption.
  - rewrite (Z.abs_neq A), (Z.abs_eq B) by lia. rewrite !opp_IZR. field.
    assumption.
  - rewrite (Z.abs_neq A), (Z.abs_neq B) by lia. rewrite !opp_IZR. field.
    assumption.
Qed.

(** The quotient is within 1e-27 (relative) of the exact one. *)
Lemma div_err (a b : Dec.t) :
  Dec.coeff b <> 0%Z ->
  exists q, Dec.div a b = Ok q /\
    Rabs (Dec.toR q - Dec.toR a / Dec.toR b)
    <= Rabs (Dec.toR a / Dec.toR b) * p10 (-27).
Proof.
  intros HB. unfold Dec.div.
  destruct (Z.eqb_spec (Dec.coeff b) 0) as [|_]; [contradiction|].
  destruct (Z.eqb_spec (Dec.coeff a) 0) as [EA|HA].
  - eexists. split; [reflexivity|].
    assert (EV : Dec.toR a / Dec.toR b = 0).
    { unfold Dec.toR at 1. rewrite EA. unfold Rdiv. ring. }
    rewrite EV. apply fix_chain. rewrite toR_mk. 
    replace (0 * p10 (Dec.exp a - Dec.exp b) - 0) with 0 by ring.
    rewrite Rabs_R0. lra.
  - cbv zeta.
    set (A := Dec.coeff a) in *. set (B := Dec.coeff b) in *.
    set (sg := (Z.sgn A * Z.sgn B)%Z).
    set (ca := Z.abs A). set (cb := Z.abs B).
    set (shift := (Dec.ndigits cb - Dec.ndigits ca + Dec.prec + 1)%Z).
    set (e0 := (Dec.exp a - Dec.exp b - shift)%Z).
    set (num := if (0 <=? shift)%Z then (ca * 10 ^ shift)%Z else ca).
    set (den := if (0 <=? shift)%Z then cb else (cb * 10 ^ (- shift))%Z).
    assert (Hca : (0 < ca)%Z) by (unfold ca; lia).
    assert (Hcb : (0 < cb)%Z) by (unfold cb; lia).
    destruct (DecFacts.ndigits_spec ca Hca) as (La & Alo & Ahi).
    destruct (DecFacts.ndigits_spec cb Hcb) as (Lb & Blo & Bhi).
    set (la := Dec.ndigits ca) in *. set (lb := Dec.ndigits cb) in *.
    unfold Dec.prec in shift.
    (* integer facts about the scaled operands *)
    assert (Hden : (0 < den)%Z).
    { unfold den. destruct (Z.leb_spec 0 shift); [lia|].
      pose proof (Z.pow_pos_nonneg 10 (- shift) ltac:(lia) ltac:(lia)). nia. }
    assert (Hbig : (10 ^ 28 * den <= num)%Z).
    { unfold num, den. destruct (Z.leb_spec 0 shift) as [Hs|Hs].
      - assert (E : (10 ^ (la - 1) * 10 ^ shift = 10 ^ 28 * 10 ^ lb)%Z).
        { rewrite <- !Z.pow_add_r by lia. f_equal. unfold shift. lia. }
        pose proof (Z.pow_pos_nonneg 10 shift ltac:(lia) ltac:(lia)). nia.
      - assert (E : (10 ^ 28 * (10 ^ lb * 10 ^ (- shift)) = 10 ^ (la - 1))%Z).
        { rewrite <- !Z.pow_add_r by lia. f_equal. unfold shift. lia. }
        pose proof (Z.pow_pos_nonneg 10 (- shift) ltac:(lia) ltac:(lia)). nia. }
    (* the exact quotient over the reals *)
    set (W := IZR ca / IZR cb * p10 (Dec.exp a - Dec.exp b)).
    assert (Nden : IZR den <> 0) by (apply not_0_IZR; lia).
    assert (Ncb : IZR cb <> 0) by (apply not_0_IZR; lia).
    assert (EW : IZR num / IZR den * p10 e0 = W).
    { unfold W, num, den, e0. destruct (Z.leb_spec 0 shift) as [Hs|Hs].
      - rewrite mult_IZR, p10_IZR by lia.
        replace (Dec.exp a - Dec.exp b - shift)%Z
          with ((Dec.exp a - Dec.exp b) + - shift)%Z by lia.
        rewrite p10_add. pose proof (p10_opp shift).
        field_simplify; [|assumption|assumption].
        replace (IZR ca * p10 shift * p10 (Dec.exp a - Dec.exp b) * p10 (- shift))
          with (IZR ca * p10 (Dec.exp a - Dec.exp b) * (p10 (- shift) * p10 shift)) by ring.
        rewrite H. field. assumption.
      - rewrite mult_IZR, p10_IZR by lia.
        replace (Dec.exp a - Dec.exp b - shift)%Z
          with ((Dec.exp a - Dec.exp b) + - shift)%Z by lia.
        rewrite p10_add. pose proof (p10_pos (- shift)).
        field. split; lra. }
    assert (EV : Dec.toR a / Dec.toR b = IZR sg * W).
    { unfold Dec.toR. fold A B (p10 (Dec.exp a)) (p10 (Dec.exp b)).
      assert (Ep : p10 (Dec.exp a) = p10 (Dec.exp a - Dec.exp b) * p10 (Dec.exp b)).
      { rewrite <- p10_add. f_equal. lia. }
      pose proof (p10_pos (Dec.exp b)).
      assert (NB : IZR B <> 0) by (apply not_0_IZR; assumption).
      transitivity (IZR A / IZR B * p10 (Dec.exp a - Dec.exp b)).
      - rewrite Ep. field. split; first [lra|assumption].
      - rewrite (IZR_div_sgn A B HA HB). fold sg ca cb. unfold W. ring. }
    assert (Hsg : Rabs (IZR sg) = 1).
    { rewrite <- abs_IZR. unfold sg.
      destruct (Z.sgn_spec A) as [[? ->]|[[? ->]|[? ->]]]; [|lia|];
      destruct (Z.sgn_spec B) as [[? ->]|[[? ->]|[? ->]]]; try lia; reflexivity. }
    assert (Pden : 0 < IZR den) by (apply IZR_lt; lia).
    assert (HX : p10 28 <= IZR num / IZR den).
    { apply IZR_le in Hbig. rewrite mult_IZR, p10_IZR in Hbig by lia.
      apply Rmult_le_reg_r with (IZR den); [assumption|].
      replace (IZR num / IZR den * IZR den) with (IZR num) by (field; assumption).
      exact Hbig. }
    pose proof (p10_pos 28) as P28. pose proof (p10_pos (-28)) as Pm28.
    pose proof (p10_opp 28 : p10 (-28) * p10 28 = 1) as O28.
    pose proof (p10_pos e0) as Pe0.
    assert (HWabs : Rabs (IZR sg * W) = IZR num / IZR den * p10 e0).
    { rewrite Rabs_mult, Hsg, Rmult_1_l, <- EW. apply Rabs_pos_eq.
      apply Rmult_le_pos; lra. }
    pose proof (Z.div_mod num den ltac:(lia)) as Hdm.
    pose proof (Z.mod_pos_bound num den Hden) as Hmod.
    set (q0 := (num / den)%Z) in *. set (r := (num mod den)%Z) in *.
    assert (EX : IZR num / IZR den = IZR q0 + IZR r / IZR den).
    { rewrite Hdm, plus_IZR, mult_IZR. field. assumption. }
    destruct (Z.eqb_spec r 0) as [Er|Er].
    + destruct (Dec.strip_zeros (Z.to_nat (Dec.exp a - Dec.exp b - e0)) q0 e0)
        as [q' e'] eqn:Es.
      eexists. split; [reflexivity|].
      apply strip_value in Es. destruct Es as [He Hq].
      rewrite EV. apply fix_chain.
      assert (E : Dec.toR (Dec.mk (sg * q') e') = IZR sg * W).
      { rewrite toR_mk, mult_IZR, <- EW, EX, Er.
        replace e' with (e0 + (e' - e0))%Z at 1 by lia.
        rewrite p10_add, <- (p10_IZR (e' - e0)) by lia.
        rewrite <- Hq, mult_IZR. unfold Rdiv. ring. }
      rewrite E. replace (IZR sg * W - IZR sg * W) with 0 by ring.
      rewrite Rabs_R0. apply Rmult_le_pos; [apply Rabs_pos|lra].
    + eexists. split; [reflexivity|].
      rewrite EV. apply fix_chain.
      set (q' := if (q0 mod 5 =? 0)%Z then (q0 + 1)%Z else q0).
      assert (Hq' : Rabs (IZR q' - IZR num / IZR den) <= 1).
      { assert (0 <= IZR r / IZR den < 1).
        { split.
          - apply Rmult_le_pos; [apply IZR_le; lia|].
            left. apply Rinv_0_lt_compat. assumption.
          - apply Rmult_lt_reg_r with (IZR den); [assumption|].
            replace (IZR r / IZR den * IZR den) with (IZR r) by (field; assumption).
            rewrite Rmult_1_l. apply IZR_lt. lia. }
        rewrite EX. unfold q'. destruct (q0 mod 5 =? 0)%Z.
        - rewrite plus_IZR. apply Rabs_le. lra.
        - apply Rabs_le. lra. }
      rewrite HWabs, toR_mk, mult_IZR, <- EW.
      replace (IZR sg * IZR q' * p10 e0 - IZR sg * (IZR num / IZR den * p10 e0))
        with (IZR sg * ((IZR q' - IZR num / IZR den) * p10 e0)) by ring.
      rewrite !Rabs_mult, Hsg, Rmult_1_l, (Rabs_pos_eq (p10 e0)) by lra.
      assert (1 <= IZR num / IZR den * p10 (-28)) by nra.
      assert (Rabs (IZR q' - IZR num / IZR den) * p10 e0 <= 1 * p10 e0)
        by (apply Rmult_le_compat_r; lra).
      nra.
Qed.

(** [_rescale] lands within half a unit of the target exponent. *)
Lemma rescale_err (e : Z) (d : Dec.t) :
  exists w, Dec._rescale e d = Dec.mk w e /\
    Rabs (IZR w * p10 e - Dec.toR d) <= / 2 * p10 e.
Proof.
  pose proof (p10_pos e) as Pe.
  unfold Dec._rescale. destruct (Z.eqb_spec (Dec.coeff d) 0) as [E|E].
  - exists 0%Z. split; [reflexivity|]. unfold Dec.toR. rewrite E.
    replace (0 * p10 e - 0 * powerRZ 10 (Dec.exp d)) with 0 by ring.
    rewrite Rabs_R0. lra.
  - destruct (Z.leb_spec e (Dec.exp d)) as [H|H].
    + eexists. split; [reflexivity|].
      rewrite mult_IZR, p10_IZR by lia. unfold Dec.toR. fold (p10 (Dec.exp d)).
      replace (p10 (Dec.exp d)) with (p10 (Dec.exp d - e) * p10 e)
        by (rewrite <- p10_add; f_equal; lia).
      replace (IZR (Dec.coeff d) * p10 (Dec.exp d - e) * p10 e -
               IZR (Dec.coeff d) * (p10 (Dec.exp d - e) * p10 e)) with 0 by ring.
      rewrite Rabs_R0. lra.
    + set (k := (e - Dec.exp d)%Z).
      assert (Hk : (0 < 10 ^ k)%Z) by (apply Z.pow_pos_nonneg; unfold k; lia).
      destruct (DecFacts.rhe_div_spec (Dec.coeff d) (10 ^ k) Hk) as [Hr _].
      set (w := Dec.rhe_div (Dec.coeff d) (10 ^ k)) in *.
      exists w. split; [reflexivity|].
      unfold Dec.toR. fold (p10 (Dec.exp d)).
      assert (Ee : p10 e = IZR (10 ^ k) * p10 (Dec.exp d)).
      { rewrite p10_IZR by (unfold k; lia). rewrite <- p10_add. f_equal. unfold k. lia. }
      rewrite Ee.
      replace (IZR w * (IZR (10 ^ k) * p10 (Dec.exp d)) - IZR (Dec.coeff d) * p10 (Dec.exp d))
        with (IZR (w * 10 ^ k - Dec.coeff d) * p10 (Dec.exp d))
        by (rewrite minus_IZR, mult_IZR; ring).
      pose proof (p10_pos (Dec.exp d)) as Pd.
      rewrite Rabs_mult, (Rabs_pos_eq (p10 _)) by lra.
      rewrite <- abs_IZR.
      apply IZR_le in Hr. rewrite mult_IZR in Hr.
      assert (IZR (Z.abs (w * 10 ^ k - Dec.coeff d)) * p10 (Dec.exp d)
              <= / 2 * IZR (10 ^ k) * p10 (Dec.exp d))
        by (apply Rmult_le_compat_r; lra).
      lra.
Qed.

(** A value below 10^p - 1/2 units of the target exponent is quantized
    without [InvalidOperation]. *)
Lemma quantize_fits (p e : Z) (d : Dec.t) :
  (1 <= p)%Z ->
  Rabs (Dec.toR d) < (IZR (10 ^ p) - / 2) * p10 e ->
  exists w, Dec.quantize p e d = Ok (Dec.mk w e) /\
    Rabs (IZR w * p10 e - Dec.toR d) <= / 2 * p10 e.
Proof.
  intros Hp Hd. pose proof (p10_pos e) as Pe.
  unfold Dec.quantize. destruct (Z.eqb_spec (Dec.coeff d) 0) as [E|E].
  - exists 0%Z. split; [reflexivity|]. unfold Dec.toR. rewrite E.
    replace (0 * p10 e - 0 * powerRZ 10 (Dec.exp d)) with 0 by ring.
    rewrite Rabs_R0. lra.
  - assert (Hc : (0 < Z.abs (Dec.coeff d))%Z) by lia.
    destruct (DecFacts.ndigits_spec _ Hc) as (Hn & Hlo & _).
    set (n := Dec.ndigits (Z.abs (Dec.coeff d))) in *.
    assert (Habs : Rabs (Dec.toR d) = IZR (Z.abs (Dec.coeff d)) * p10 (Dec.exp d)).
    { unfold Dec.toR. fold (p10 (Dec.exp d)).
      rewrite Rabs_mult, <- abs_IZR, (Rabs_pos_eq (p10 _)); [reflexivity|].
      left. apply p10_pos. }
    assert (H1 : (n + Dec.exp d - e <= p)%Z).
    { assert (Hlt : p10 (n - 1 + Dec.exp d) < p10 (p + e)).
      { rewrite !p10_add, <- (p10_IZR (n - 1)), <- (p10_IZR p) by lia.
        apply IZR_le in Hlo. pose proof (p10_pos (Dec.exp d)).
        assert (IZR (10 ^ (n - 1)) * p10 (Dec.exp d)
                <= IZR (Z.abs (Dec.coeff d)) * p10 (Dec.exp d))
          by (apply Rmult_le_compat_r; lra).
        nra. }
      apply p10_lt_inv in Hlt. lia. }
    destruct (Z.ltb_spec p (n + Dec.exp d - e)); [lia|].
    destruct (rescale_err e d) as (w & Ew & Hw). rewrite Ew. cbn [Dec.coeff].
    assert (Hwb : (Z.abs w < 10 ^ p)%Z).
    { apply lt_IZR. rewrite abs_IZR.
      assert (Rabs (IZR w) * p10 e < IZR (10 ^ p) * p10 e).
      { rewrite <- (Rabs_pos_eq (p10 e)) at 1 by lra. rewrite <- Rabs_mult.
        replace (IZR w * p10 e) with ((IZR w * p10 e - Dec.toR d) + Dec.toR d) by ring.
        eapply Rle_lt_trans; [apply Rabs_triang|]. lra. }
      apply Rmult_lt_reg_r with (p10 e); assumption. }
    assert (Dec.ndigits (Z.abs w) <= p)%Z by (apply DecFacts.ndigits_le; lia).
    destruct (Z.ltb_spec p (Dec.ndigits (Z.abs w))); [lia|].
    exists w. split; [reflexivity|exact Hw].
Qed.

(** * The share of one article, in cents *)

Local Open Scope R_scope.

Lemma toR_centimos (d : Dec.t) :
  Dec.exp d = (-2)%Z -> Dec.toR d = IZR (Dec.coeff d) * p10 (-2).
Proof. intros E. unfold Dec.toR. rewrite E. reflexivity. Qed.

Lemma cuota_cota (f : Campo) (T S c : Dec.t) (r : Articulo) :
  es_dinero T -> (0 < Dec.coeff T)%Z ->
  Dec.exp S = (-2)%Z -> (0 < Dec.coeff S)%Z ->
  coste_euro r = Some c -> Dec.exp c = (-2)%Z ->
  (0 <= Dec.coeff c <= Dec.coeff S)%Z ->
  exists w,
    cuota_escrita f (Some T) S r = Ok (Some (D w (-2))) /\
    Rabs (IZR w - IZR (Dec.coeff T) * IZR (Dec.coeff c) / IZR (Dec.coeff S))
    <= / 2 + IZR (Dec.coeff T) * IZR (Dec.coeff c) / IZR (Dec.coeff S)
             * (2 * p10 (-27)).
Proof.
  intros [ET BT] HT ES HS Hc Ec [Hc0 HcS].
  set (Tc := Dec.coeff T) in *. set (Sc := Dec.coeff S) in *.
  set (cc := Dec.coeff c) in *.
  destruct u28_cotas as (T0 & T1 & T2). set (t := p10 (-27)) in *.
  pose proof (p10_pos (-2)) as P2.
  assert (PS : 0 < IZR Sc) by (apply IZR_lt; assumption).
  assert (PT : 0 < IZR Tc) by (apply IZR_lt; assumption).
  assert (Pc : 0 <= IZR cc) by (apply IZR_le; assumption).
  assert (PcS : IZR cc <= IZR Sc) by (apply IZR_le; assumption).
  set (rho := IZR cc / IZR Sc).
  assert (Hrho : 0 <= rho <= 1).
  { unfold rho. split.
    - apply Rmult_le_pos; [assumption|]. left. apply Rinv_0_lt_compat. assumption.
    - apply Rmult_le_reg_r with (IZR Sc); [assumption|].
      replace (IZR cc / IZR Sc * IZR Sc) with (IZR cc) by (field; lra). lra. }
  (* the quotient *)
  destruct (div_err c S ltac:(fold Sc; lia)) as (p & Ep & Hp).
  assert (EV : Dec.toR c / Dec.toR S = rho).
  { rewrite (toR_centimos c Ec), (toR_centimos S ES). fold cc Sc. unfold rho.
    field. split; lra. }
  rewrite EV in Hp. rewrite (Rabs_pos_eq rho) in Hp by lra. fold t in Hp.
  (* the product *)
  pose proof (mul_err T p) as Hx. unfold u28 in Hx. fold t in Hx.
  set (x := Dec.mul T p) in *.
  rewrite (toR_centimos T ET) in Hx. fold Tc in Hx.
  set (vT := IZR Tc * p10 (-2)) in *.
  assert (PvT : 0 < vT) by (unfold vT; nra).
  assert (Hvp : Rabs (Dec.toR p) <= rho + rho * t).
  { replace (Dec.toR p) with (rho + (Dec.toR p - rho)) by ring.
    eapply Rle_trans; [apply Rabs_triang|]. rewrite (Rabs_pos_eq rho) by lra. lra. }
  rewrite Rabs_mult, (Rabs_pos_eq vT) in Hx by lra.
  assert (Hx2 : Rabs (Dec.toR x - vT * rho) <= vT * rho * (2 * t)).
  { replace (Dec.toR x - vT * rho)
      with ((Dec.toR x - vT * Dec.toR p) + vT * (Dec.toR p - rho)) by ring.
    eapply Rle_trans; [apply Rabs_triang|].
    rewrite (Rabs_mult vT), (Rabs_pos_eq vT) by lra.
    assert (vT * Rabs (Dec.toR p) * (/ 2 * t) <= vT * (rho + rho * t) * (/ 2 * t)).
    { apply Rmult_le_compat_r; [lra|]. apply Rmult_le_compat_l; lra. }
    assert (vT * Rabs (Dec.toR p - rho) <= vT * (rho * t))
      by (apply Rmult_le_compat_l; lra).
    assert (0 <= vT * rho * t)
      by (apply Rmult_le_pos; [apply Rmult_le_pos; lra | lra]).
    assert (vT * rho * t * t <= vT * rho * t * 1) by (apply Rmult_le_compat_l; lra).
    lra. }
  (* it fits the column *)
  assert (HTb : IZR Tc <= IZR (10 ^ 10) - 1).
  { rewrite <- (minus_IZR _ 1). apply IZR_le. unfold Tc. lia. }
  assert (Ht17 : IZR (10 ^ 10) * t <= / 10).
  { unfold t. rewrite (p10_IZR 10) by lia.
    assert (E1 : p10 (-1) * 10 = 1).
    { assert (E10 : p10 1 = 10) by (exact (powerRZ_1 10)).
      pose proof (p10_opp 1 : p10 (-1) * p10 1 = 1) as H1.
      rewrite E10 in H1. exact H1. }
    assert (p10 (-29 + 10 + 2) <= p10 (-1)) by (apply p10_le; lia).
    assert (p10 (-27 + 10) <= p10 (-1)) by (apply p10_le; lia).
    rewrite Rmult_comm, <- p10_add. lra. }
  assert (P10 : 1 <= IZR (10 ^ 10)) by (apply IZR_le; lia).
  assert (Hfit : Rabs (Dec.toR x) < (IZR (10 ^ 10) - / 2) * p10 (-2)).
  { replace (Dec.toR x) with (vT * rho + (Dec.toR x - vT * rho)) by ring.
    eapply Rle_lt_trans; [apply Rabs_triang|].
    assert (0 <= vT * rho) by (apply Rmult_le_pos; lra).
    rewrite (Rabs_pos_eq (vT * rho)) by assumption.
    assert (vT * rho <= vT * 1) by (apply Rmult_le_compat_l; lra).
    assert (vT * rho * (2 * t) <= vT * 1 * (2 * t))
      by (apply Rmult_le_compat_r; lra).
    assert (IZR Tc * t <= IZR (10 ^ 10) * t) by (apply Rmult_le_compat_r; lra).
    unfold vT in *. nra. }
  destruct (quantize_fits 10 (-2) x ltac:(lia) Hfit) as (w & Ew & Hw).
  exists w. split.
  - unfold cuota_escrita, cuota_de. rewrite Hc, Ep. cbn [rbind py_mul].
    fold x. unfold prep_campo, adapt_decimalfield_value.
    change (- (2))%Z with (-2)%Z. rewrite Ew. cbn [rbind].
    destruct f; reflexivity.
  - (* in cents *)
    pose proof (p10_opp 2 : p10 (-2) * p10 2 = 1) as O2. pose proof (p10_pos 2) as Pp2.
    assert (E1 : IZR w - IZR Tc * IZR cc / IZR Sc
                 = ((IZR w * p10 (-2) - Dec.toR x) + (Dec.toR x - vT * rho)) * p10 2).
    { transitivity (IZR w * (p10 (-2) * p10 2) - IZR Tc * rho * (p10 (-2) * p10 2)).
      - rewrite O2. unfold rho. field. lra.
      - unfold vT. ring. }
    rewrite E1, Rabs_mult, (Rabs_pos_eq (p10 2)) by lra.
    assert (E2 : IZR Tc * IZR cc / IZR Sc * (2 * t) = vT * rho * (2 * t) * p10 2).
    { unfold vT, rho.
      replace (IZR Tc * p10 (-2) * (IZR cc / IZR Sc) * (2 * t) * p10 2)
        with (IZR Tc * (IZR cc / IZR Sc) * (2 * t) * (p10 (-2) * p10 2)) by ring.
      rewrite O2. unfold Rdiv. ring. }
    rewrite E2.
    assert (E3 : / 2 = / 2 * p10 (-2) * p10 2).
    { rewrite Rmult_assoc, O2. ring. }
    rewrite E3 at 1. rewrite <- Rmult_plus_distr_r.
    apply Rmult_le_compat_r; [lra|].
    eapply Rle_trans; [apply Rabs_triang|]. lra.
Qed.

(** * The sum of the shares *)

Local Close Scope R_scope.
Local Open Scope Z_scope.

Lemma suma_base_cotas (rows : list Articulo) :
  Forall coste_base_valido rows ->
  0 <= suma_centimos coste_euro rows /\
  forall r, In r rows -> 0 <= centimos (coste_euro r) <= suma_centimos coste_euro rows.
Proof.
  induction 1 as [|x rest Hx _ [IH0 IH]]; cbn [suma_centimos fold_right].
  - split; [lia|intros r []].
  - fold (suma_centimos coste_euro rest).
    assert (Hx0 : 0 <= centimos (coste_euro x)).
    { unfold coste_base_valido in Hx. destruct (coste_euro x); cbn; [tauto|lia]. }
    split; [lia|]. intros r [<-|Hin]; [lia|].
    specialize (IH r Hin). lia.
Qed.

Lemma aggregate_dinero (rows : list Articulo) :
  rows <> [] -> Forall coste_base_valido rows ->
  aggregate_sum_coste_euro rows = Some (D (suma_centimos coste_euro rows) (-2)).
Proof.
  unfold aggregate_sum_coste_euro.
  induction rows as [|x rest IH]; [congruence|]. intros _ Hf.
  inversion Hf as [|? ? Hx Hrest]; subst.
  cbn [map sql_sum suma_centimos fold_right]. fold (suma_centimos coste_euro rest).
  unfold coste_base_valido in Hx.
  destruct (coste_euro x) as [[c e]|]; [|contradiction].
  destruct Hx as [[Ee _] _]. cbn in Ee. subst e. cbn [centimos Dec.coeff].
  destruct rest as [|y rest'].
  - cbn. rewrite Z.add_0_r. reflexivity.
  - rewrite IH by (assumption || discriminate).
    rewrite add_exact_dinero by reflexivity. reflexivity.
Qed.

Lemma mapR_todos {A B} (g : A -> Result B) (l : list A) :
  (forall a, In a l -> exists b, g a = Ok b) -> exists bs, mapR g l = Ok bs.
Proof.
  induction l as [|x r IH]; intros H; cbn [mapR]; [eauto|].
  destruct (H x (or_introl eq_refl)) as [b ->].
  destruct IH as [bs ->]; [intros a Ha; apply H; right; assumption|].
  cbn [rbind]. eauto.
Qed.

Lemma suma_actualizar (self : Pedido) (f : Campo) total base (rows : list Articulo) :
  (forall r, In r rows -> (pedido_id r =? pedido_pk self) = true) ->
  suma_centimos (fun r => getattr r f) (map (actualizar self f total base) rows) =
  suma_centimos (valor_escrito f total base) rows.
Proof.
  induction rows as [|x rest IH]; intros H; cbn [map suma_centimos fold_right];
    [reflexivity|].
  fold (suma_centimos (fun r => getattr r f) (map (actualizar self f total base) rest)).
  fold (suma_centimos (valor_escrito f total base) rest).
  rewrite IH by (intros r Hr; apply H; right; assumption).
  unfold actualizar at 1. rewrite (H x (or_introl eq_refl)), getattr_setattr.
  reflexivity.
Qed.

Local Open Scope R_scope.

Section SumaCuotas.

Variable f : Campo.
Variables T S : Dec.t.
Hypothesis HT : es_dinero T.
Hypothesis HT0 : (0 < Dec.coeff T)%Z.
Hypothesis ES : Dec.exp S = (-2)%Z.
Hypothesis HS0 : (0 < Dec.coeff S)%Z.

Lemma suma_cuotas_cota (rows : list Articulo) :
  Forall coste_base_valido rows ->
  (forall r, In r rows -> (centimos (coste_euro r) <= Dec.coeff S)%Z) ->
  (forall r, In r rows ->
     exists w, cuota_escrita f (Some T) S r = Ok (Some (D w (-2)))) /\
  Rabs (IZR (suma_centimos (valor_escrito f (Some T) S) rows)
        - IZR (Dec.coeff T) * IZR (suma_centimos coste_euro rows) / IZR (Dec.coeff S))
  <= INR (List.length rows) / 2
     + IZR (Dec.coeff T) * IZR (suma_centimos coste_euro rows) / IZR (Dec.coeff S)
       * (2 * p10 (-27)).
Proof.
  induction 1 as [|x rest Hx Hrest IH]; intros Hle.
  - split; [intros r []|]. cbn [suma_centimos fold_right List.length INR].
    unfold Rdiv. rewrite !Rmult_0_r, !Rmult_0_l, Rminus_0_r, Rabs_R0. lra.
  - destruct IH as [IHok IHb]; [intros r Hr; apply Hle; right; assumption|].
    unfold coste_base_valido in Hx.
    destruct (coste_euro x) as [c|] eqn:Ec; [|contradiction].
    destruct Hx as [[Ee Bc] Hc0].
    pose proof (Hle x (or_introl eq_refl)) as HcS. rewrite Ec in HcS. cbn [centimos] in HcS.
    destruct (cuota_cota f T S c x HT HT0 ES HS0 Ec Ee (conj Hc0 HcS)) as (w & Ew & Hw).
    split.
    + intros r [<-|Hr]; eauto.
    + cbn [suma_centimos fold_right].
      fold (suma_centimos (valor_escrito f (Some T) S) rest).
      fold (suma_centimos coste_euro rest).
      unfold valor_escrito at 1. rewrite Ew, Ec. cbn [centimos D Dec.coeff].
      rewrite !plus_IZR.
      change (List.length (x :: rest)) with (Datatypes.S (List.length rest)).
      rewrite S_INR.
      set (a := IZR (Dec.coeff T) * IZR (Dec.coeff c) / IZR (Dec.coeff S)) in *.
      set (b := IZR (Dec.coeff T) * IZR (suma_centimos coste_euro rest)
                / IZR (Dec.coeff S)) in *.
      replace (IZR (Dec.coeff T) * (IZR (Dec.coeff c)
                 + IZR (suma_centimos coste_euro rest)) / IZR (Dec.coeff S))
        with (a + b) by (unfold a, b, Rdiv; ring).
      replace (IZR w + IZR (suma_centimos (valor_escrito f (Some T) S) rest) - (a + b))
        with ((IZR w - a)
              + (IZR (suma_centimos (valor_escrito f (Some T) S) rest) - b)) by ring.
      eapply Rle_trans; [apply Rabs_triang|]. lra.
Qed.

End SumaCuotas.

Lemma p10_17 : IZR (10 ^ 10) * p10 (-27) <= / 10.
Proof.
  assert (E10 : p10 1 = 10) by (exact (powerRZ_1 10)).
  pose proof (p10_opp 1 : p10 (-1) * p10 1 = 1) as H1. rewrite E10 in H1.
  assert (p10 (10 + -27) <= p10 (-1)) by (apply p10_le; lia).
  rewrite (p10_IZR 10) by lia. rewrite <- p10_add. lra.
Qed.

Local Close Scope R_scope.
Local Open Scope Z_scope.

(** C1, as the code has it.  For an order whose articles have stored,
    non-negative base costs of positive sum and a stored positive total,
    [_distribuir_coste] returns [True], every share is written with two
    decimal places, and the sum of the written shares differs from the
    total by at most half a cent per article: at most n/2 cents (integer
    division) for n articles, hence at most one cent up to three
    articles.  No remainder is redistributed. *)
Theorem reparto_suma_cota (self : Pedido) (f : Campo) (T : Dec.t) (db : DB) :
  claves_validas (articulos db) = true ->
  es_dinero T -> 0 < Dec.coeff T ->
  Forall coste_base_valido (articulos_de self db) ->
  0 < suma_centimos coste_euro (articulos_de self db) ->
  let o := _distribuir_coste self (Some T) f db in
  let rows' := articulos_de self (db_after o) in
  res o = Ok true /\
  Forall (fun r => exists w, getattr r f = Some (D w (-2))) rows' /\
  2 * Z.abs (suma_centimos (fun r => getattr r f) rows' - Dec.coeff T)
  <= Z.of_nat (List.length rows').
Proof.
  intros Hk HT HT0 Hval Hsum o rows'.
  set (rows := articulos_de self db) in *.
  set (Sc := suma_centimos coste_euro rows) in *.
  assert (Hne : rows <> []).
  { intros E. unfold Sc in Hsum. rewrite E in Hsum. cbn in Hsum. lia. }
  assert (Hbase : or_cero (aggregate_sum_coste_euro rows) = D Sc (-2)).
  { rewrite (aggregate_dinero rows Hne Hval). fold Sc. unfold or_cero, Dec.truthy.
    cbn [D Dec.coeff]. destruct (Z.eqb_spec Sc 0); [lia|reflexivity]. }
  destruct (suma_base_cotas rows Hval) as [_ Hle].
  assert (Hle' : forall r, In r rows -> centimos (coste_euro r) <= Dec.coeff (D Sc (-2))).
  { intros r Hr. cbn [D Dec.coeff]. apply Hle. assumption. }
  destruct (suma_cuotas_cota f T (D Sc (-2)) HT HT0 eq_refl Hsum rows Hval Hle')
    as [Hok Hb].
  destruct (mapR_todos (cuota_escrita f (Some T) (D Sc (-2))) rows) as [ws Hws].
  { intros r Hr. destruct (Hok r Hr) as [w Hw]. eauto. }
  pose proof (distribuir_spec self f T db Hk HT0 Hne) as Hspec. cbv zeta in Hspec.
  fold rows in Hspec. rewrite Hbase in Hspec. specialize (Hspec Hsum).
  rewrite Hws in Hspec. fold o in Hspec. destruct Hspec as [Hr Hd].
  assert (Hrows' : rows' = map (actualizar self f (Some T) (D Sc (-2))) rows).
  { unfold rows'. rewrite Hd. apply articulos_de_actualizar. }
  assert (Hbel : forall r, In r rows -> (pedido_id r =? pedido_pk self) = true).
  { intros r Hin. apply filter_In in Hin. apply Hin. }
  split; [exact Hr|]. split.
  - rewrite Hrows'. apply Forall_forall. intros r' Hr'.
    apply in_map_iff in Hr'. destruct Hr' as (r & <- & Hin).
    destruct (Hok r Hin) as [w Hw]. exists w.
    unfold actualizar. rewrite (Hbel r Hin), getattr_setattr.
    unfold valor_escrito. rewrite Hw. reflexivity.
  - rewrite Hrows', suma_actualizar by assumption. rewrite length_map.
    cbn [D Dec.coeff] in Hb. fold Sc in Hb.
    set (W := suma_centimos (valor_escrito f (Some T) (D Sc (-2))) rows) in *.
    assert (PS : (0 < IZR Sc)%R) by (apply IZR_lt; assumption).
    replace (IZR (Dec.coeff T) * IZR Sc / IZR Sc)%R with (IZR (Dec.coeff T)) in Hb
      by (field; lra).
    rewrite <- minus_IZR, <- abs_IZR in Hb.
    destruct HT as [_ BT].
    assert (HTb : (IZR (Dec.coeff T) <= IZR (10 ^ 10))%R) by (apply IZR_le; lia).
    pose proof p10_17 as H17. pose proof (p10_pos (-27)) as Pt.
    assert (H4 : (IZR (Dec.coeff T) * p10 (-27) <= IZR (10 ^ 10) * p10 (-27))%R)
      by (apply Rmult_le_compat_r; lra).
    rewrite INR_IZR_INZ in Hb.
    assert (Hlt : (IZR (2 * Z.abs (W - Dec.coeff T))
                   < IZR (Z.of_nat (List.length rows) + 1))%R).
    { rewrite mult_IZR, plus_IZR. lra. }
    apply lt_IZR in Hlt. lia.
Qed.

Lemma db_escenario_costes :
  Forall coste_base_valido
    (articulos_de (pedido_ejemplo 1 1500) (db_escenario 1500)).
Proof.
  repeat constructor; cbn; lia.
Qed.

Lemma reparto_suma_cota_witness :
  claves_validas (articulos (db_escenario 1500)) = true /\
  es_dinero (D 1500 (-2)) /\ 0 < Dec.coeff (D 1500 (-2)) /\
  0 < suma_centimos coste_euro
        (articulos_de (pedido_ejemplo 1 1500) (db_escenario 1500)) /\
  let o := _distribuir_coste (pedido_ejemplo 1 1500) (Some (D 1500 (-2)))
             campo_aduana_imputada (db_escenario 1500) in
  let rows' := articulos_de (pedido_ejemplo 1 1500) (db_after o) in
  res o = Ok true /\
  Forall (fun r => exists w, getattr r campo_aduana_imputada = Some (D w (-2))) rows' /\
  2 * Z.abs (suma_centimos (fun r => getattr r campo_aduana_imputada) rows'
             - Dec.coeff (D 1500 (-2)))
  <= Z.of_nat (List.length rows').
Proof.
  split; [reflexivity|]. split; [split; reflexivity|]. split; [reflexivity|].
  split; [reflexivity|].
  exact (reparto_suma_cota (pedido_ejemplo 1 1500) campo_aduana_imputada
           (D 1500 (-2)) (db_escenario 1500) eq_refl (conj eq_refl eq_refl)
           eq_refl db_escenario_costes eq_refl).
Defined.

(** C1 as stated fails: five articles of 1.00 under 0.13 of customs
    each receive 0.03, fifteen cents in all, two cents above the total. *)
Lemma reparto_no_cuadra_al_centimo :
  let o := distribuir_gastos_aduana (pedido_ejemplo 1 13) db_cinco in
  res o = Ok true /\
  Forall coste_base_valido (articulos_de (pedido_ejemplo 1 13) db_cinco) /\
  0 < suma_centimos coste_euro (articulos_de (pedido_ejemplo 1 13) db_cinco) /\
  ~ (Z.abs (suma_centimos aduana_imputada
              (articulos_de (pedido_ejemplo 1 13) (db_after o)) - 13) <= 1).
Proof.
  split; [vm_compute; reflexivity|].
  split; [repeat constructor; cbn; lia|].
  split; [reflexivity|].
  vm_compute. intros H. apply H. reflexivity.
Qed.

(** * The outcome of a distribution as a function of the order's articles *)

Lemma escribir_res (f : Campo) (objs : list Articulo) :
  forall tbl,
    match escribir f objs tbl with
    | Ok _ => exists vs, mapR (fun o => prep_campo f (getattr o f)) objs = Ok vs
    | Raise e => mapR (fun o => prep_campo f (getattr o f)) objs = Raise e
    end.
Proof.
  induction objs as [|o rest IH]; intros tbl; cbn [escribir mapR]; [eauto|].
  destruct (prep_campo f (getattr o f)) as [v|e]; cbn [rbind]; [|reflexivity].
  specialize (IH (update_campo (pk o) f v tbl)).
  destruct (escribir f rest (update_campo (pk o) f v tbl)) as [t|e].
  - destruct IH as [vs ->]. cbn [rbind]. eauto.
  - rewrite IH. reflexivity.
Qed.

Lemma mapR_paso_datos (f : Campo) total base (rows : list Articulo) :
  match mapR (cuota_de_coste total base) (map coste_euro rows) with
  | Ok xs =>
      exists objs,
        mapR (paso total base f) rows = Ok objs /\
        map pk objs = map pk rows /\
        map (fun o => getattr o f) objs = map Some xs
  | Raise e => mapR (paso total base f) rows = Raise e
  end.
Proof.
  induction rows as [|a rest IH]; cbn [map mapR]; [exists []; auto|].
  unfold paso at 1 3, cuota_de. unfold cuota_de_coste at 1.
  destruct (coste_euro a) as [c|]; cbn [rbind]; [|reflexivity].
  destruct (Dec.div c base) as [p|e]; cbn [rbind]; [|reflexivity].
  destruct (py_mul total (Some p)) as [x|e]; cbn [rbind]; [|reflexivity].
  destruct (mapR (cuota_de_coste total base) (map coste_euro rest)) as [xs|e].
  - destruct IH as (objs & -> & Hk & Hg). cbn [rbind].
    eexists. split; [reflexivity|]. cbn [map].
    rewrite pk_setattr, getattr_setattr, Hk, Hg. split; reflexivity.
  - rewrite IH. reflexivity.
Qed.

Lemma res_atomic {A} (body : M A) (db : DB) :
  res (transaction_atomic body db) = res (body db).
Proof.
  unfold transaction_atomic. destruct (res (body db)) eqn:E; [exact E|reflexivity].
Qed.

Lemma existsb_pk_none_map (objs : list Articulo) :
  existsb_pk_none objs =
  existsb (fun k => match k with None => true | Some _ => false end) (map pk objs).
Proof.
  unfold existsb_pk_none. induction objs as [|o r IH]; cbn [existsb map];
    [reflexivity|]. rewrite IH. reflexivity.
Qed.

Lemma mapR_map_some {B} (g : option Dec.t -> Result B) (objs : list Articulo)
    (f : Campo) (xs : list Dec.t) :
  map (fun o => getattr o f) objs = map Some xs ->
  mapR (fun o => g (getattr o f)) objs = mapR (fun x => g (Some x)) xs.
Proof.
  revert xs. induction objs as [|o r IH]; intros [|x xs]; cbn [map mapR];
    try discriminate; [reflexivity|].
  intros [= E1 E2]. rewrite E1, (IH xs E2). reflexivity.
Qed.

(** The value returned, or the exception raised, is the one read off
    the keys and base costs of the order's articles. *)
Lemma distribuir_res (self : Pedido) (total : option Dec.t) (f : Campo) (db : DB) :
  res (_distribuir_coste self total f db) =
  resultado_reparto f total
    (map pk (articulos_de self db)) (map coste_euro (articulos_de self db)).
Proof.
  unfold _distribuir_coste. rewrite res_atomic.
  destruct total as [T|]; [|reflexivity].
  rewrite cuerpo_eq. cbv zeta. unfold resultado_reparto.
  cbn [py_gt0 rbind]. rewrite !DecFacts.gtb_zero.
  set (rows := articulos_de self db).
  fold (aggregate_sum_coste_euro rows).
  assert (Enil : match map coste_euro rows with [] => true | _ :: _ => false end
                 = match rows with [] => true | _ :: _ => false end)
    by (destruct rows; reflexivity).
  rewrite Enil.
  destruct ((0 <? Dec.coeff T) && negb match rows with [] => true | _ :: _ => false end);
    [|reflexivity].
  set (base := or_cero (aggregate_sum_coste_euro rows)).
  destruct (0 <? Dec.coeff base); [|reflexivity].
  destruct (bucle_spec (Some T) base f rows db) as [Br Bd].
  pose proof (mapR_paso_datos f (Some T) base rows) as Hd.
  destruct (mapR (cuota_de_coste (Some T) base) (map coste_euro rows)) as [xs|e];
    cbn [rbind].
  - destruct Hd as (objs & Ho & Hk & Hg). rewrite Ho in Br.
    destruct (bind_ok_eq _
                (fun a_actualizar =>
                   match a_actualizar with
                   | [] => ret false
                   | _ :: _ => bind (bulk_update a_actualizar f) (fun _ => ret true)
                   end) _ _ Br) as [R1 _].
    rewrite R1, Bd. clear R1.
    destruct objs as [|o objs']; destruct xs as [|x xs']; try discriminate;
      [reflexivity|].
    rewrite <- Hk, <- existsb_pk_none_map.
    unfold bulk_update.
    destruct (existsb_pk_none (o :: objs')) eqn:En.
    + reflexivity.
    + destruct (writes_spec f (o :: objs') db) as [_ Ww].
      pose proof (escribir_res f (o :: objs') (articulos db)) as He.
      rewrite (mapR_map_some (prep_campo f) _ _ _ Hg) in He.
      destruct (escribir f (o :: objs') (articulos db)) as [t|e].
      * destruct Ww as [W1 _]. destruct He as [vs ->]. cbn [rbind].
        destruct (bind_ok_eq _ (fun _ : unit => ret true) _ _ W1) as [R1 _].
        rewrite R1. reflexivity.
      * rewrite He. cbn [rbind].
        destruct (bind_raise_eq _ (fun _ : unit => ret true) _ _ Ww) as [R1 _].
        exact R1.
  - rewrite Hd in Br.
    destruct (bind_raise_eq _
                (fun a_actualizar =>
                   match a_actualizar with
                   | [] => ret false
                   | _ :: _ => bind (bulk_update a_actualizar f) (fun _ => ret true)
                   end) _ _ Br) as [R1 _].
    exact R1.
Qed.

(** The table a distribution leaves, given how it ended. *)
Lemma distribuir_forma (self : Pedido) (total : option Dec.t) (f : Campo) (db : DB) :
  claves_validas (articulos db) = true ->
  let o := _distribuir_coste self total f db in
  let base := or_cero (aggregate_sum_coste_euro (articulos_de self db)) in
  db_after o =
    mkDB (pedidos db) (map (efecto_reparto self f total base (res o)) (articulos db)).
Proof.
  intros Hk o base.
  assert (Hid : db = mkDB (pedidos db) (map (fun a => a) (articulos db))).
  { rewrite map_id. destruct db; reflexivity. }
  destruct total as [T|].
  2:{ exact Hid. }
  destruct (distribuir_casos self f T db Hk) as [H|[[[e He] H]|H]]; fold o in H.
  - rewrite H. exact Hid.
  - fold o in He. rewrite He, H. exact Hid.
  - destruct H as (_ & _ & _ & _ & Hr & Hd). rewrite Hr. exact Hd.
Qed.

Lemma efecto_conserva (self : Pedido) (f : Campo) total base (res0 : Result bool)
    (r : Articulo) :
  pk (efecto_reparto self f total base res0 r) = pk r /\
  pedido_id (efecto_reparto self f total base res0 r) = pedido_id r /\
  coste_euro (efecto_reparto self f total base res0 r) = coste_euro r.
Proof.
  unfold efecto_reparto. destruct res0 as [[|]|]; try (repeat split; reflexivity).
  repeat split;
    [apply pk_actualizar | apply pedido_id_actualizar | apply coste_euro_actualizar].
Qed.

Lemma articulos_de_map (self : Pedido) (h : Articulo -> Articulo) (db : DB) :
  (forall r, pedido_id (h r) = pedido_id r) ->
  articulos_de self (mkDB (pedidos db) (map h (articulos db))) =
  map h (articulos_de self db).
Proof.
  intros Hh. unfold articulos_de. cbn [articulos].
  induction (articulos db) as [|x rest IH]; cbn [map filter]; [reflexivity|].
  rewrite Hh, IH. destruct (pedido_id x =? pedido_pk self); reflexivity.
Qed.

(** A distribution run on a table whose rows were changed without
    touching keys, order links or base costs ends the same way and does
    to each row what it would have done. *)
Lemma distribuir_tras (self : Pedido) (total : option Dec.t) (f : Campo) (db : DB)
    (h : Articulo -> Articulo) :
  (forall r, pk (h r) = pk r) ->
  (forall r, pedido_id (h r) = pedido_id r) ->
  (forall r, coste_euro (h r) = coste_euro r) ->
  claves_validas (articulos db) = true ->
  let o := _distribuir_coste self total f db in
  let o_h := _distribuir_coste self total f (mkDB (pedidos db) (map h (articulos db))) in
  let base := or_cero (aggregate_sum_coste_euro (articulos_de self db)) in
  res o_h = res o /\
  db_after o_h =
    mkDB (pedidos db)
      (map (fun r => efecto_reparto self f total base (res o) (h r)) (articulos db)).
Proof.
  intros Hpk Hpid Hce Hk o o_h base.
  assert (Hrows : articulos_de self (mkDB (pedidos db) (map h (articulos db)))
                  = map h (articulos_de self db))
    by (apply articulos_de_map; assumption).
  assert (Hres : res o_h = res o).
  { unfold o_h, o. rewrite !distribuir_res, Hrows, !map_map.
    f_equal; apply map_ext; assumption. }
  split; [exact Hres|].
  assert (Hk' : claves_validas (articulos (mkDB (pedidos db) (map h (articulos db)))) = true).
  { cbn [articulos]. rewrite claves_map; assumption. }
  pose proof (distribuir_forma self total f _ Hk') as Hf. cbv zeta in Hf.
  fold o_h in Hf. rewrite Hf, Hres, Hrows. cbn [pedidos articulos].
  assert (Hb : aggregate_sum_coste_euro (map h (articulos_de self db))
               = aggregate_sum_coste_euro (articulos_de self db)).
  { unfold aggregate_sum_coste_euro. rewrite map_map. f_equal.
    apply map_ext. assumption. }
  rewrite Hb, map_map. reflexivity.
Qed.

Lemma valor_escrito_setattr (f : Campo) total base (r : Articulo) (g : Campo)
    (v : option Dec.t) :
  valor_escrito f total base (setattr r g v) = valor_escrito f total base r.
Proof. unfold valor_escrito. rewrite cuota_escrita_setattr. reflexivity. Qed.

Lemma setattr_conmuta (r : Articulo) (v w : option Dec.t) :
  setattr (setattr r campo_aduana_imputada v) campo_coste_envio_individual w =
  setattr (setattr r campo_coste_envio_individual w) campo_aduana_imputada v.
Proof. reflexivity. Qed.

Lemma efecto_conmuta (self : Pedido) ta ba te be (ra re : Result bool) (r : Articulo) :
  efecto_reparto self campo_coste_envio_individual te be re
    (efecto_reparto self campo_aduana_imputada ta ba ra r) =
  efecto_reparto self campo_aduana_imputada ta ba ra
    (efecto_reparto self campo_coste_envio_individual te be re r).
Proof.
  unfold efecto_reparto.
  destruct ra as [[|]|]; destruct re as [[|]|]; try reflexivity.
  unfold actualizar. 
  destruct (pedido_id r =? pedido_pk self) eqn:E; rewrite ?pedido_id_setattr, ?E;
    [|reflexivity].
  rewrite !valor_escrito_setattr. apply setattr_conmuta.
Qed.

Lemma Forall2_map_r {A B} (R : A -> B -> Prop) (h : A -> B) (l : list A) :
  (forall x, R x (h x)) -> Forall2 R l (map h l).
Proof. intros H. induction l; cbn [map]; constructor; auto. Qed.

(** X1.  Whatever its outcome, a distribution leaves the orders table
    alone and changes at most the target column of the rows of its own
    order: every other row, and every other column, is as before. *)
Theorem distribuir_solo_destino (self : Pedido) (total : option Dec.t) (f : Campo)
    (db : DB) :
  claves_validas (articulos db) = true ->
  let o := _distribuir_coste self total f db in
  pedidos (db_after o) = pedidos db /\
  Forall2
    (fun r r' =>
       r' = r \/ (pedido_id r = pedido_pk self /\ exists v, r' = setattr r f v))
    (articulos db) (articulos (db_after o)).
Proof.
  intros Hk o. pose proof (distribuir_forma self total f db Hk) as Hf.
  cbv zeta in Hf. fold o in Hf. rewrite Hf. cbn [pedidos articulos].
  split; [reflexivity|].
  apply Forall2_map_r. intros x.
  unfold efecto_reparto. destruct (res o) as [[|]|]; auto.
  unfold actualizar. destruct (Z.eqb_spec (pedido_id x) (pedido_pk self)); eauto.
Qed.

Lemma distribuir_solo_destino_witness :
  claves_validas (articulos (db_escenario 3000)) = true /\
  let o := _distribuir_coste (pedido_ejemplo 1 3000) (Some (D 3000 (-2)))
             campo_aduana_imputada (db_escenario 3000) in
  pedidos (db_after o) = pedidos (db_escenario 3000) /\
  Forall2
    (fun r r' =>
       r' = r \/ (pedido_id r = pedido_pk (pedido_ejemplo 1 3000) /\
                  exists v, r' = setattr r campo_aduana_imputada v))
    (articulos (db_escenario 3000)) (articulos (db_after o)).
Proof.
  split; [reflexivity|].
  exact (distribuir_solo_destino (pedido_ejemplo 1 3000) (Some (D 3000 (-2)))
           campo_aduana_imputada (db_escenario 3000) eq_refl).
Defined.

(** X2.  The value returned by a distribution, or the exception it
    raises, depends only on the total and on the keys and base costs of
    the articles of the order: two tables that agree on those give the
    same outcome, whatever the other orders hold and whatever was in
    the target column. *)
Theorem distribuir_resultado_puro (self : Pedido) (total : option Dec.t) (f : Campo)
    (db1 db2 : DB) :
  map pk (articulos_de self db1) = map pk (articulos_de self db2) ->
  map coste_euro (articulos_de self db1) = map coste_euro (articulos_de self db2) ->
  res (_distribuir_coste self total f db1) = res (_distribuir_coste self total f db2).
Proof.
  intros H1 H2. rewrite !distribuir_res, H1, H2. reflexivity.
Qed.

Lemma distribuir_resultado_puro_witness :
  res (distribuir_gastos_aduana (pedido_ejemplo 1 5000) db_desborde) =
  res (distribuir_gastos_aduana (pedido_ejemplo 1 5000)
         (mkDB [] (articulos db_desborde ++ [articulo_ejemplo 9 2 700]))).
Proof.
  apply (distribuir_resultado_puro (pedido_ejemplo 1 5000) (Some (D 5000 (-2)))
           campo_aduana_imputada); reflexivity.
Defined.

Lemma filter_map_ext {A B} (p : B -> bool) (g h : A -> B) (l : list A) :
  (forall x, p (g x) = p (h x)) ->
  (forall x, p (h x) = true -> g x = h x) ->
  filter p (map g l) = filter p (map h l).
Proof.
  intros H1 H2. induction l as [|x r IH]; cbn [map filter]; [reflexivity|].
  rewrite H1, IH. destruct (p (h x)) eqn:E; [|reflexivity].
  rewrite (H2 x E). reflexivity.
Qed.

(** X3.  A successful distribution overwrites the target column: the
    rows it leaves for the order do not depend on what that column held
    before. *)
Theorem distribuir_sobrescribe (self : Pedido) (total : option Dec.t) (f : Campo)
    (db : DB) (previo : Articulo -> option Dec.t) :
  claves_validas (articulos db) = true ->
  let db' := mkDB (pedidos db) (map (fun r => setattr r f (previo r)) (articulos db)) in
  let o := _distribuir_coste self total f db in
  let o' := _distribuir_coste self total f db' in
  res o' = res o /\
  (res o = Ok true ->
   articulos_de self (db_after o') = articulos_de self (db_after o)).
Proof.
  intros Hk db' o o'.
  destruct (distribuir_tras self total f db (fun r => setattr r f (previo r))
              ltac:(intros; apply pk_setattr) ltac:(intros; apply pedido_id_setattr)
              ltac:(intros; apply coste_euro_setattr) Hk) as [Hr Hd].
  fold db' o o' in Hr, Hd. split; [exact Hr|]. intros Hok.
  pose proof (distribuir_forma self total f db Hk) as Hf. cbv zeta in Hf.
  fold o in Hf. rewrite Hd, Hf, Hok. unfold efecto_reparto.
  set (base := or_cero (aggregate_sum_coste_euro (articulos_de self db))).
  unfold articulos_de. cbn [articulos].
  apply filter_map_ext.
  - intros x. rewrite !pedido_id_actualizar, pedido_id_setattr. reflexivity.
  - intros x E. rewrite pedido_id_actualizar in E.
    unfold actualizar. rewrite pedido_id_setattr, E.
    rewrite valor_escrito_setattr. apply setattr_setattr.
Qed.

Lemma distribuir_sobrescribe_witness :
  claves_validas (articulos (db_escenario 3000)) = true /\
  let db' := mkDB (pedidos (db_escenario 3000))
               (map (fun r => setattr r campo_aduana_imputada (Some (D 777 (-2))))
                  (articulos (db_escenario 3000))) in
  let o := _distribuir_coste (pedido_ejemplo 1 3000) (Some (D 3000 (-2)))
             campo_aduana_imputada (db_escenario 3000) in
  let o' := _distribuir_coste (pedido_ejemplo 1 3000) (Some (D 3000 (-2)))
              campo_aduana_imputada db' in
  res o' = res o /\
  (res o = Ok true ->
   articulos_de (pedido_ejemplo 1 3000) (db_after o') =
   articulos_de (pedido_ejemplo 1 3000) (db_after o)).
Proof.
  split; [reflexivity|].
  exact (distribuir_sobrescribe (pedido_ejemplo 1 3000) (Some (D 3000 (-2)))
           campo_aduana_imputada (db_escenario 3000)
           (fun _ => Some (D 777 (-2))) eq_refl).
Defined.

(** X4.  The two distributions are independent: customs then shipping
    and shipping then customs return the same values (or raise the same
    exceptions) and leave the same database. *)
Theorem distribuciones_conmutan (self : Pedido) (db : DB) :
  claves_validas (articulos db) = true ->
  let a1 := distribuir_gastos_aduana self db in
  let e1 := distribuir_coste_envio self (db_after a1) in
  let e2 := distribuir_coste_envio self db in
  let a2 := distribuir_gastos_aduana self (db_after e2) in
  res a2 = res a1 /\ res e1 = res e2 /\ db_after e1 = db_after a2.
Proof.
  intros Hk a1 e1 e2 a2.
  set (base := or_cero (aggregate_sum_coste_euro (articulos_de self db))).
  set (hA := efecto_reparto self campo_aduana_imputada (gastos_aduana self) base (res a1)).
  set (hE := efecto_reparto self campo_coste_envio_individual
               (coste_envio_agrupado self) base (res e2)).
  assert (HA : db_after a1 = mkDB (pedidos db) (map hA (articulos db)))
    by (apply (distribuir_forma self (gastos_aduana self) campo_aduana_imputada db Hk)).
  assert (HE : db_after e2 = mkDB (pedidos db) (map hE (articulos db)))
    by (apply (distribuir_forma self (coste_envio_agrupado self)
                 campo_coste_envio_individual db Hk)).
  destruct (distribuir_tras self (coste_envio_agrupado self)
              campo_coste_envio_individual db hA
              ltac:(intros; apply efecto_conserva)
              ltac:(intros; apply efecto_conserva)
              ltac:(intros; apply efecto_conserva) Hk) as [Re De].
  destruct (distribuir_tras self (gastos_aduana self)
              campo_aduana_imputada db hE
              ltac:(intros; apply efecto_conserva)
              ltac:(intros; apply efecto_conserva)
              ltac:(intros; apply efecto_conserva) Hk) as [Ra Da].
  rewrite <- HA in Re, De. rewrite <- HE in Ra, Da.
  fold base in De, Da.
  change (_distribuir_coste self (coste_envio_agrupado self)
            campo_coste_envio_individual (db_after a1)) with e1 in Re, De.
  change (_distribuir_coste self (coste_envio_agrupado self)
            campo_coste_envio_individual db) with e2 in Re, De.
  change (_distribuir_coste self (gastos_aduana self)
            campo_aduana_imputada (db_after e2)) with a2 in Ra, Da.
  change (_distribuir_coste self (gastos_aduana self)
            campo_aduana_imputada db) with a1 in Ra, Da.
  split; [exact Ra|]. split; [exact Re|].
  rewrite De, Da. f_equal. apply map_ext. intros r. apply efecto_conmuta.
Qed.

Lemma distribuciones_conmutan_witness :
  claves_validas (articulos (db_escenario 3000)) = true /\
  let self := mkPedido 1 "pedido" (Some (D 900 (-2))) (Some (D 3000 (-2)))
                (Some (D 1650000 (-4))) (Some (D 21 (-2))) in
  let a1 := distribuir_gastos_aduana self (db_escenario 3000) in
  let e1 := distribuir_coste_envio self (db_after a1) in
  let e2 := distribuir_coste_envio self (db_escenario 3000) in
  let a2 := distribuir_gastos_aduana self (db_after e2) in
  res a2 = res a1 /\ res e1 = res e2 /\ db_after e1 = db_after a2.
Proof.
  split; [reflexivity|].
  exact (distribuciones_conmutan
           (mkPedido 1 "pedido" (Some (D 900 (-2))) (Some (D 3000 (-2)))
              (Some (D 1650000 (-4))) (Some (D 21 (-2))))
           (db_escenario 3000) eq_refl).
Defined.

(** * Small orders, free articles, equal articles *)

(** The sum of the written shares is within half a cent per article of
    the total (shared by the statements below). *)
Lemma suma_escrita_cota (self : Pedido) (f : Campo) (T : Dec.t) (db : DB) :
  claves_validas (articulos db) = true ->
  es_dinero T -> 0 < Dec.coeff T ->
  Forall coste_base_valido (articulos_de self db) ->
  0 < suma_centimos coste_euro (articulos_de self db) ->
  let o := _distribuir_coste self (Some T) f db in
  let rows' := articulos_de self (db_after o) in
  res o = Ok true /\
  Forall (fun r => exists w, getattr r f = Some (D w (-2))) rows' /\
  2 * Z.abs (suma_centimos (fun r => getattr r f) rows' - Dec.coeff T)
  <= Z.of_nat (List.length rows').
Proof.
  intros Hk HT HT0 Hval Hsum o rows'.
  set (rows := articulos_de self db) in *.
  set (Sc := suma_centimos coste_euro rows) in *.
  assert (Hne : rows <> []).
  { intros E. unfold Sc in Hsum. rewrite E in Hsum. cbn in Hsum. lia. }
  assert (Hbase : or_cero (aggregate_sum_coste_euro rows) = D Sc (-2)).
  { rewrite (aggregate_dinero rows Hne Hval). fold Sc. unfold or_cero, Dec.truthy.
    cbn [D Dec.coeff]. destruct (Z.eqb_spec Sc 0); [lia|reflexivity]. }
  destruct (suma_base_cotas rows Hval) as [_ Hle].
  assert (Hle' : forall r, In r rows -> centimos (coste_euro r) <= Dec.coeff (D Sc (-2))).
  { intros r Hr. cbn [D Dec.coeff]. apply Hle. assumption. }
  destruct (suma_cuotas_cota f T (D Sc (-2)) HT HT0 eq_refl Hsum rows Hval Hle')
    as [Hok Hb].
  destruct (mapR_todos (cuota_escrita f (Some T) (D Sc (-2))) rows) as [ws Hws].
  { intros r Hr. destruct (Hok r Hr) as [w Hw]. eauto. }
  pose proof (distribuir_spec self f T db Hk HT0 Hne) as Hspec. cbv zeta in Hspec.
  fold rows in Hspec. rewrite Hbase in Hspec. specialize (Hspec Hsum).
  rewrite Hws in Hspec. fold o in Hspec. destruct Hspec as [Hr Hd].
  assert (Hrows' : rows' = map (actualizar self f (Some T) (D Sc (-2))) rows).
  { unfold rows'. rewrite Hd. apply articulos_de_actualizar. }
  assert (Hbel : forall r, In r rows -> (pedido_id r =? pedido_pk self) = true).
  { intros r Hin. apply filter_In in Hin. apply Hin. }
  split; [exact Hr|]. split.
  - rewrite Hrows'. apply Forall_forall. intros r' Hr'.
    apply in_map_iff in Hr'. destruct Hr' as (r & <- & Hin).
    destruct (Hok r Hin) as [w Hw]. exists w.
    unfold actualizar. rewrite (Hbel r Hin), getattr_setattr.
    unfold valor_escrito. rewrite Hw. reflexivity.
  - rewrite Hrows', suma_actualizar by assumption. rewrite length_map.
    cbn [D Dec.coeff] in Hb. fold Sc in Hb.
    set (W := suma_centimos (valor_escrito f (Some T) (D Sc (-2))) rows) in *.
    assert (PS : (0 < IZR Sc)%R) by (apply IZR_lt; assumption).
    replace (IZR (Dec.coeff T) * IZR Sc / IZR Sc)%R with (IZR (Dec.coeff T)) in Hb
      by (field; lra).
    rewrite <- minus_IZR, <- abs_IZR in Hb.
    destruct HT as [_ BT].
    assert (HTb : (IZR (Dec.coeff T) <= IZR (10 ^ 10))%R) by (apply IZR_le; lia).
    pose proof p10_17 as H17. pose proof (p10_pos (-27)) as Pt.
    assert (H4 : (IZR (Dec.coeff T) * p10 (-27) <= IZR (10 ^ 10) * p10 (-27))%R)
      by (apply Rmult_le_compat_r; lra).
    rewrite INR_IZR_INZ in Hb.
    assert (Hlt : (IZR (2 * Z.abs (W - Dec.coeff T))
                   < IZR (Z.of_nat (List.length rows) + 1))%R).
    { rewrite mult_IZR, plus_IZR. lra. }
    apply lt_IZR in Hlt. lia.
Qed.

Lemma distribuir_true (self : Pedido) (total : option Dec.t) (f : Campo) (db : DB) :
  claves_validas (articulos db) = true ->
  res (_distribuir_coste self total f db) = Ok true ->
  let base := or_cero (aggregate_sum_coste_euro (articulos_de self db)) in
  (exists T, total = Some T) /\ 0 < Dec.coeff base /\
  db_after (_distribuir_coste self total f db) =
    mkDB (pedidos db) (map (actualizar self f total base) (articulos db)).
Proof.
  intros Hk Hok base. destruct total as [T|]; [|discriminate].
  destruct (distribuir_casos self f T db Hk) as [H|[[[e He] _]|H]].
  - rewrite H in Hok. discriminate.
  - rewrite He in Hok. discriminate.
  - destruct H as (_ & _ & HB & _ & _ & Hd). split; [eauto|]. split; assumption.
Qed.

(** X5.  For stored base costs that are not negative and add up to a
    positive sum, and a stored positive total, the distribution over an
    order of at most three articles succeeds and is closed to the cent
    (the written shares sum to the total within one cent); an order of
    a single article gives it the whole total, exactly. *)
Theorem reparto_pocos_articulos (self : Pedido) (f : Campo) (T : Dec.t) (db : DB) :
  claves_validas (articulos db) = true ->
  es_dinero T -> 0 < Dec.coeff T ->
  Forall coste_base_valido (articulos_de self db) ->
  0 < suma_centimos coste_euro (articulos_de self db) ->
  (List.length (articulos_de self db) <= 3)%nat ->
  let o := _distribuir_coste self (Some T) f db in
  let rows' := articulos_de self (db_after o) in
  res o = Ok true /\
  Z.abs (suma_centimos (fun r => getattr r f) rows' - Dec.coeff T) <= 1 /\
  (List.length (articulos_de self db) = 1%nat ->
   Forall (fun r => getattr r f = Some T) rows').
Proof.
  intros Hk HT HT0 Hval Hsum Hn o rows'.
  destruct (suma_escrita_cota self f T db Hk HT HT0 Hval Hsum) as (Hr & Hw & Hb).
  fold o in Hr. fold o rows' in Hw, Hb.
  assert (Hlen : List.length rows' = List.length (articulos_de self db)).
  { destruct (distribuir_true self (Some T) f db Hk Hr) as (_ & _ & Hd).
    unfold rows', o. rewrite Hd, articulos_de_actualizar. apply length_map. }
  split; [exact Hr|]. split; [lia|].
  intros H1. rewrite <- Hlen in H1.
  destruct rows' as [|r [|? ?]]; try discriminate.
  constructor; [|constructor].
  inversion Hw as [|? ? [w Ew] _]; subst.
  cbn [suma_centimos fold_right List.length] in Hb. rewrite Ew in Hb |- *.
  cbn [centimos D Dec.coeff] in Hb.
  destruct T as [Tc Te]. destruct HT as [ETe _]. cbn in ETe. subst Te.
  cbn [Dec.coeff] in *. assert (w = Tc) by lia. subst w. reflexivity.
Qed.

Lemma db_escenario_costes_otro :
  Forall coste_base_valido
    (articulos_de (pedido_ejemplo 2 700) (db_escenario 3000)).
Proof.
  repeat constructor; cbn; lia.
Qed.

Lemma reparto_pocos_articulos_witness :
  claves_validas (articulos (db_escenario 3000)) = true /\
  es_dinero (D 700 (-2)) /\ 0 < Dec.coeff (D 700 (-2)) /\
  0 < suma_centimos coste_euro
        (articulos_de (pedido_ejemplo 2 700) (db_escenario 3000)) /\
  (List.length (articulos_de (pedido_ejemplo 2 700) (db_escenario 3000)) <= 3)%nat /\
  let o := _distribuir_coste (pedido_ejemplo 2 700) (Some (D 700 (-2)))
             campo_aduana_imputada (db_escenario 3000) in
  let rows' := articulos_de (pedido_ejemplo 2 700) (db_after o) in
  res o = Ok true /\
  Z.abs (suma_centimos (fun r => getattr r campo_aduana_imputada) rows'
         - Dec.coeff (D 700 (-2))) <= 1 /\
  (List.length (articulos_de (pedido_ejemplo 2 700) (db_escenario 3000)) = 1%nat ->
   Forall (fun r => getattr r campo_aduana_imputada = Some (D 700 (-2))) rows').
Proof.
  split; [reflexivity|]. split; [split; reflexivity|]. split; [reflexivity|].
  split; [reflexivity|]. split; [cbn; lia|].
  exact (reparto_pocos_articulos (pedido_ejemplo 2 700) campo_aduana_imputada
           (D 700 (-2)) (db_escenario 3000) eq_refl (conj eq_refl eq_refl)
           eq_refl db_escenario_costes_otro eq_refl
           (le_S _ _ (le_S _ _ (le_n 1)))).
Defined.

Lemma cuota_coste_cero (f : Campo) (T base c : Dec.t) (r : Articulo) :
  coste_euro r = Some c -> Dec.coeff c = 0 -> Dec.coeff base <> 0 ->
  cuota_escrita f (Some T) base r = Ok (Some (D 0 (-2))).
Proof.
  intros Hc Hz Hb. unfold cuota_escrita, cuota_de. rewrite Hc.
  assert (Hd : Dec.div c base = Ok (Dec.mk 0 (Dec.exp c - Dec.exp base))).
  { unfold Dec.div.
    destruct (Z.eqb_spec (Dec.coeff base) 0); [contradiction|].
    destruct (Z.eqb_spec (Dec.coeff c) 0); [|contradiction].
    rewrite DecFacts.fix_small; [reflexivity|].
    unfold Dec.coeff, Dec.prec. lia. }
  rewrite Hd. unfold rbind at 2. unfold py_mul, Dec.mul.
  unfold Dec.coeff at 2. rewrite Z.mul_0_r.
  rewrite DecFacts.fix_small by (unfold Dec.coeff, Dec.prec; lia).
  unfold rbind at 1. unfold prep_campo, adapt_decimalfield_value, Dec.quantize.
  unfold Dec.coeff at 1. 
  change (0 =? 0) with true. cbv iota. unfold rbind.
  destruct f; reflexivity.
Qed.

(** X6.  In a successful distribution an article whose base cost is
    zero is allocated exactly 0.00. *)
Theorem reparto_coste_cero (self : Pedido) (total : option Dec.t) (f : Campo)
    (db : DB) (r : Articulo) (c : Dec.t) :
  claves_validas (articulos db) = true ->
  res (_distribuir_coste self total f db) = Ok true ->
  In r (articulos_de self db) ->
  coste_euro r = Some c -> Dec.coeff c = 0 ->
  In (setattr r f (Some (D 0 (-2))))
     (articulos_de self (db_after (_distribuir_coste self total f db))).
Proof.
  intros Hk Hok Hin Hc Hz.
  destruct (distribuir_true self total f db Hk Hok) as ([T ->] & HB & Hd).
  rewrite Hd, articulos_de_actualizar.
  apply in_map_iff. exists r. split; [|exact Hin].
  apply filter_In in Hin. destruct Hin as [_ Hb].
  unfold actualizar, valor_escrito. rewrite Hb.
  rewrite (cuota_coste_cero f T _ c r Hc Hz) by lia. reflexivity.
Qed.

Lemma db_gratis_ok :
  res (_distribuir_coste (pedido_ejemplo 1 3000) (Some (D 3000 (-2)))
         campo_aduana_imputada db_gratis) = Ok true.
Proof.
  vm_compute. reflexivity.
Qed.

Lemma reparto_coste_cero_witness :
  In (setattr (articulo_ejemplo 2 1 0) campo_aduana_imputada (Some (D 0 (-2))))
     (articulos_de (pedido_ejemplo 1 3000)
        (db_after (_distribuir_coste (pedido_ejemplo 1 3000) (Some (D 3000 (-2)))
                     campo_aduana_imputada db_gratis))).
Proof.
  exact (reparto_coste_cero (pedido_ejemplo 1 3000) (Some (D 3000 (-2)))
           campo_aduana_imputada db_gratis (articulo_ejemplo 2 1 0) (D 0 (-2))
           eq_refl db_gratis_ok (or_intror (or_introl eq_refl)) eq_refl eq_refl).
Defined.

(** X7.  In a successful distribution two articles of the order with
    the same base cost are allocated the same amount. *)
Theorem reparto_costes_iguales (self : Pedido) (total : option Dec.t) (f : Campo)
    (db : DB) (r1 r2 : Articulo) :
  claves_validas (articulos db) = true ->
  res (_distribuir_coste self total f db) = Ok true ->
  In r1 (articulos_de self db) -> In r2 (articulos_de self db) ->
  coste_euro r1 = coste_euro r2 ->
  exists v,
    In (setattr r1 f v)
       (articulos_de self (db_after (_distribuir_coste self total f db))) /\
    In (setattr r2 f v)
       (articulos_de self (db_after (_distribuir_coste self total f db))).
Proof.
  intros Hk Hok H1 H2 Hc.
  destruct (distribuir_true self total f db Hk Hok) as (_ & _ & Hd).
  set (base := or_cero (aggregate_sum_coste_euro (articulos_de self db))) in *.
  exists (valor_escrito f total base r1).
  rewrite Hd, articulos_de_actualizar.
  assert (Hact : forall r, In r (articulos_de self db) ->
            actualizar self f total base r = setattr r f (valor_escrito f total base r)).
  { intros r Hr. apply filter_In in Hr. destruct Hr as [_ Hb].
    unfold actualizar. rewrite Hb. reflexivity. }
  split; apply in_map_iff.
  - exists r1. split; [apply Hact|]; assumption.
  - exists r2. split; [|assumption]. rewrite (Hact r2 H2). f_equal.
    unfold valor_escrito, cuota_escrita, cuota_de. rewrite Hc. reflexivity.
Qed.

Lemma db_cinco_ok :
  res (_distribuir_coste (pedido_ejemplo 1 13) (Some (D 13 (-2)))
         campo_aduana_imputada db_cinco) = Ok true.
Proof.
  vm_compute. reflexivity.
Qed.

Lemma reparto_costes_iguales_witness :
  exists v,
    In (setattr (articulo_ejemplo 1 1 100) campo_aduana_imputada v)
       (articulos_de (pedido_ejemplo 1 13)
          (db_after (_distribuir_coste (pedido_ejemplo 1 13) (Some (D 13 (-2)))
                       campo_aduana_imputada db_cinco))) /\
    In (setattr (articulo_ejemplo 4 1 100) campo_aduana_imputada v)
       (articulos_de (pedido_ejemplo 1 13)
          (db_after (_distribuir_coste (pedido_ejemplo 1 13) (Some (D 13 (-2)))
                       campo_aduana_imputada db_cinco))).
Proof.
  exact (reparto_costes_iguales (pedido_ejemplo 1 13) (Some (D 13 (-2)))
           campo_aduana_imputada db_cinco
           (articulo_ejemplo 1 1 100) (articulo_ejemplo 4 1 100)
           eq_refl db_cinco_ok (or_introl eq_refl)
           (or_intror (or_intror (or_intror (or_introl eq_refl)))) eq_refl).
Defined.

(** * Running a distribution again *)



(** The allocation of 15.00 over base costs of 10.00 and 20.00. *)
Example reparto_de_escenario :
  reparto_de campo_aduana_imputada (Some (D 1500 (-2)))
    [Some (D 1000 (-2)); Some (D 2000 (-2))]
  = [Some (D 500 (-2)); Some (D 1000 (-2))].
Proof. vm_compute. reflexivity. Qed.

(** * Saving an article: failures, keys, repetition *)

Lemma save_eq (self : Articulo) (db : DB) (p : Pedido) :
  buscar_pedido (pedido_id self) db = Some p ->
  save self db = super_save (calcular_coste_yen p (calcular_iva p self)) db.
Proof.
  intros Hp. unfold save, bind, self_pedido. rewrite Hp.
  cbn [res db_after divisions Nat.add].
  destruct (super_save _ db); reflexivity.
Qed.

Lemma save_sin_pedido (self : Articulo) (db : DB) :
  buscar_pedido (pedido_id self) db = None ->
  save self db = mkOutcome (Raise DoesNotExist) db O.
Proof.
  intros Hp. unfold save, bind, self_pedido. rewrite Hp. reflexivity.
Qed.

(** The table after a successful [super().save()] of an object whose
    key is [k] and whose row is [fila]. *)
Lemma super_save_casos (s : Articulo) (db : DB) :
  (exists e, super_save s db = mkOutcome (Raise e) db O) \/
  (exists k fila s',
     pk s' = Some k /\ pk fila = Some k /\ fila_de s' = Ok fila /\
     (s' = s \/ (pk s = None /\ s' = set_pk s k)) /\
     super_save s db =
       mkOutcome (Ok s')
         (mkDB (pedidos db)
            (match buscar_articulo k db with
             | Some _ =>
                 map (fun r => if pk_eqb (pk r) (Some k) then fila else r)
                   (articulos db)
             | None => articulos db ++ [fila]
             end)) O).
Proof.
  unfold super_save.
  destruct (pk s) as [k|] eqn:Ek.
  - destruct (fila_de s) as [fila|e] eqn:Ef; [|left; eauto].
    right. exists k, fila, s.
    destruct (fila_de_ok _ _ Ef) as (Hpk & _). rewrite Ek in Hpk.
    repeat split; auto.
    destruct (buscar_articulo k db); reflexivity.
  - set (k := max_pk (articulos db) + 1).
    destruct (fila_de (set_pk s k)) as [fila|e] eqn:Ef; [|left; eauto].
    right. exists k, fila, (set_pk s k).
    destruct (fila_de_ok _ _ Ef) as (Hpk & _). cbn [set_pk pk] in Hpk.
    repeat split; auto.
    unfold buscar_articulo, k. rewrite find_clave_nueva. reflexivity.
Qed.

Lemma find_none_existsb {A} (g : A -> bool) (l : list A) :
  find g l = None -> existsb g l = false.
Proof.
  induction l as [|x r IH]; cbn [find existsb]; [reflexivity|].
  destruct (g x); [discriminate|exact IH].
Qed.

Lemma claves_al_final (k : Z) (fila : Articulo) (tbl : list Articulo) :
  pk fila = Some k ->
  find (fun r => pk_eqb (pk r) (Some k)) tbl = None ->
  claves_validas tbl = true -> claves_validas (tbl ++ [fila]) = true.
Proof.
  intros Hf. induction tbl as [|x rest IH]; cbn [find app claves_validas].
  - intros _ _. rewrite Hf. reflexivity.
  - destruct (pk x) as [j|] eqn:Ej; [|intros _ H; discriminate].
    cbn [pk_eqb]. destruct (Z.eqb_spec j k) as [->|Hjk]; [discriminate|].
    intros Hn H. apply andb_prop in H. destruct H as [H1 H2].
    rewrite (IH Hn H2), andb_true_r.
    rewrite existsb_app. cbn [existsb]. rewrite Hf. cbn [pk_eqb].
    apply negb_true_iff in H1. rewrite H1.
    destruct (Z.eqb_spec k j); [congruence|reflexivity].
Qed.

Lemma pk_reemplazo (k : Z) (fila r : Articulo) :
  pk fila = Some k ->
  pk (if pk_eqb (pk r) (Some k) then fila else r) = pk r.
Proof.
  intros Hf. destruct (pk_eqb (pk r) (Some k)) eqn:E; [|reflexivity].
  apply pk_eqb_true in E. destruct E as (j & E1 & [= <-]). congruence.
Qed.

(** X8.  A [save] that raises (the order of the article is missing, a
    value does not fit its column, a required column is None) leaves
    both tables as they were. *)
Theorem save_fallo_sin_cambios (self : Articulo) (db : DB) (e : exn) :
  res (save self db) = Raise e -> db_after (save self db) = db.
Proof.
  destruct (buscar_pedido (pedido_id self) db) as [p|] eqn:Hp.
  - rewrite (save_eq self db p Hp).
    destruct (super_save_casos (calcular_coste_yen p (calcular_iva p self)) db)
      as [[e' ->]|(k & fila & s' & _ & _ & _ & _ & ->)]; [reflexivity|discriminate].
  - rewrite (save_sin_pedido self db Hp). reflexivity.
Qed.

Lemma save_fallo_sin_cambios_witness :
  res (save (articulo_ejemplo 7 99 1050) (db_escenario 3000)) = Raise DoesNotExist /\
  db_after (save (articulo_ejemplo 7 99 1050) (db_escenario 3000)) = db_escenario 3000.
Proof.
  split; [reflexivity|].
  exact (save_fallo_sin_cambios (articulo_ejemplo 7 99 1050) (db_escenario 3000)
           DoesNotExist eq_refl).
Defined.


(** X9.  [save] keeps the primary keys of the article table present and
    pairwise distinct, whether it updates a row, inserts one under the
    key of the object, or inserts one under a fresh key. *)
Theorem save_conserva_claves (self : Articulo) (db : DB) :
  claves_validas (articulos db) = true ->
  claves_validas (articulos (db_after (save self db))) = true.
Proof.
  intros Hk.
  destruct (buscar_pedido (pedido_id self) db) as [p|] eqn:Hp.
  2:{ rewrite (save_sin_pedido self db Hp). exact Hk. }
  rewrite (save_eq self db p Hp).
  destruct (super_save_casos (calcular_coste_yen p (calcular_iva p self)) db)
    as [[e' ->]|(k & fila & s' & _ & Hf & _ & _ & ->)]; [exact Hk|].
  cbn [db_after articulos]. unfold buscar_articulo.
  destruct (find _ (articulos db)) eqn:Efd.
  - rewrite claves_map; [exact Hk|]. intros r. exact (pk_reemplazo k fila r Hf).
  - apply (claves_al_final k); assumption.
Qed.

Lemma save_conserva_claves_witness :
  claves_validas (articulos (db_escenario 3000)) = true /\
  claves_validas
    (articulos (db_after (save (articulo_nuevo 1 1050) (db_escenario 3000)))) = true.
Proof.
  split; [reflexivity|].
  exact (save_conserva_claves (articulo_nuevo 1 1050) (db_escenario 3000) eq_refl).
Defined.


Lemma calcular_iva_idem (p : Pedido) (s : Articulo) :
  calcular_iva p (calcular_iva p s) = calcular_iva p s.
Proof.
  unfold calcular_iva.
  destruct (tasa_iva p) as [t|]; [|reflexivity].
  destruct (coste_euro s) as [c|] eqn:Ec; [|rewrite Ec; reflexivity].
  destruct (Dec.truthy t && Dec.truthy c) eqn:Eg.
  - cbn [set_iva coste_euro]. rewrite Ec, Eg. destruct s; reflexivity.
  - rewrite Ec, Eg. reflexivity.
Qed.

Lemma calcular_iva_set_coste_yen (p : Pedido) (x : Articulo) (y : option Z) :
  calcular_iva p (set_coste_yen x y) = set_coste_yen (calcular_iva p x) y.
Proof.
  unfold calcular_iva.
  destruct (tasa_iva p) as [ti|]; [|reflexivity].
  destruct x as [? ? ? ? [c|] ? ? ? ? ? ? ? ?]; cbn [set_coste_yen coste_euro];
    [|reflexivity].
  destruct (Dec.truthy ti && Dec.truthy c); reflexivity.
Qed.

Lemma calcular_iva_coste_yen (p : Pedido) (s : Articulo) :
  calcular_iva p (calcular_coste_yen p (calcular_iva p s)) =
  calcular_coste_yen p (calcular_iva p s).
Proof.
  set (s1 := calcular_iva p s).
  assert (H1 : calcular_iva p s1 = s1) by apply calcular_iva_idem.
  unfold calcular_coste_yen.
  destruct (tasa_cambio_eur_jpy p) as [t|]; [|exact H1].
  destruct (coste_euro s1) as [c|] eqn:Ec; [|exact H1].
  destruct (Dec.truthy t && Dec.truthy c); [|exact H1].
  rewrite calcular_iva_set_coste_yen, H1. reflexivity.
Qed.

Lemma calcular_coste_yen_idem (p : Pedido) (s : Articulo) :
  calcular_coste_yen p (calcular_coste_yen p s) = calcular_coste_yen p s.
Proof.
  unfold calcular_coste_yen.
  destruct (tasa_cambio_eur_jpy p) as [t|]; [|reflexivity].
  destruct (coste_euro s) as [c|] eqn:Ec; [|rewrite Ec; reflexivity].
  destruct (Dec.truthy t && Dec.truthy c) eqn:Eg.
  - cbn [set_coste_yen coste_euro]. rewrite Ec, Eg. destruct s; reflexivity.
  - rewrite Ec, Eg. reflexivity.
Qed.

(** The two computations of [save] change nothing on an object they
    have already been applied to. *)
Lemma calcular_idem (p : Pedido) (s : Articulo) :
  let s2 := calcular_coste_yen p (calcular_iva p s) in
  calcular_coste_yen p (calcular_iva p s2) = s2.
Proof.
  cbv zeta. rewrite calcular_iva_coste_yen. apply calcular_coste_yen_idem.
Qed.

Lemma calcular_set_pk (p : Pedido) (s : Articulo) (k : Z) :
  calcular_coste_yen p (calcular_iva p (set_pk s k)) =
  set_pk (calcular_coste_yen p (calcular_iva p s)) k.
Proof.
  unfold calcular_iva, calcular_coste_yen.
  destruct (tasa_iva p) as [ti|], (tasa_cambio_eur_jpy p) as [t|];
    destruct s as [? ? ? ? [c|] ? ? ? ? ? ? ? ?]; cbn [set_pk coste_euro];
    try reflexivity;
    repeat match goal with
           | |- context [if ?b then _ else _] => destruct b; cbn [set_pk set_iva coste_euro]
           end; reflexivity.
Qed.

Lemma pedido_id_calcular (p : Pedido) (s : Articulo) :
  pedido_id (calcular_coste_yen p (calcular_iva p s)) = pedido_id s.
Proof.
  unfold calcular_iva, calcular_coste_yen.
  destruct (tasa_iva p) as [ti|], (tasa_cambio_eur_jpy p) as [t|];
    destruct s as [? ? ? ? [c|] ? ? ? ? ? ? ? ?]; cbn [coste_euro];
    try reflexivity;
    repeat match goal with
           | |- context [if ?b then _ else _] => destruct b; cbn [set_iva coste_euro]
           end; reflexivity.
Qed.

Lemma reemplazo_idem (k : Z) (fila : Articulo) (tbl : list Articulo) :
  pk fila = Some k ->
  (forall r, In r tbl -> pk_eqb (pk r) (Some k) = true -> r = fila) ->
  map (fun r => if pk_eqb (pk r) (Some k) then fila else r) tbl = tbl.
Proof.
  intros Hf H. rewrite <- (map_id tbl) at 2. apply map_ext_in.
  intros r Hr. destruct (pk_eqb (pk r) (Some k)) eqn:E; [|reflexivity].
  symmetry. apply H; assumption.
Qed.

(** X10.  Saving again the object a successful [save] returned changes
    nothing: the same object comes back and both tables stay as the
    first [save] left them. *)
Theorem save_dos_veces (self self' : Articulo) (db : DB) :
  res (save self db) = Ok self' ->
  save self' (db_after (save self db)) =
    mkOutcome (Ok self') (db_after (save self db)) O.
Proof.
  destruct (buscar_pedido (pedido_id self) db) as [p|] eqn:Hp.
  2:{ rewrite (save_sin_pedido self db Hp). discriminate. }
  rewrite (save_eq self db p Hp).
  set (s := calcular_coste_yen p (calcular_iva p self)).
  destruct (super_save_casos s db)
    as [[e' ->]|(k & fila & s' & Hk & Hf & Hfila & Hs' & ->)]; [discriminate|].
  cbn [res db_after]. intros [= <-].
  set (tbl' := match buscar_articulo k db with
               | Some _ => map (fun r => if pk_eqb (pk r) (Some k) then fila else r)
                             (articulos db)
               | None => articulos db ++ [fila]
               end).
  assert (Hid : pedido_id s' = pedido_id self).
  { destruct Hs' as [->|[_ ->]]; [|cbn [set_pk pedido_id]];
      apply pedido_id_calcular. }
  assert (Hp' : buscar_pedido (pedido_id s') (mkDB (pedidos db) tbl') = Some p).
  { rewrite Hid. exact Hp. }
  rewrite (save_eq s' _ p Hp').
  assert (Hc : calcular_coste_yen p (calcular_iva p s') = s').
  { destruct Hs' as [->|[_ ->]].
    - apply calcular_idem.
    - rewrite calcular_set_pk. f_equal. apply calcular_idem. }
  rewrite Hc. unfold super_save. rewrite Hk, Hfila.
  assert (Hfind : buscar_articulo k (mkDB (pedidos db) tbl') = Some fila).
  { unfold buscar_articulo, tbl'. cbn [articulos]. unfold buscar_articulo.
    destruct (find _ (articulos db)) eqn:Efd.
    - eapply find_reemplazo; eassumption.
    - apply find_al_final; assumption. }
  rewrite Hfind. cbn [pedidos articulos]. f_equal. f_equal.
  apply reemplazo_idem; [exact Hf|].
  intros r Hr Hrk. unfold tbl', buscar_articulo in Hr.
  destruct (find _ (articulos db)) eqn:Efd.
  - apply in_map_iff in Hr. destruct Hr as (r0 & <- & _).
    destruct (pk_eqb (pk r0) (Some k)) eqn:E0; [reflexivity|congruence].
  - apply in_app_or in Hr. destruct Hr as [Hr|[<-|[]]]; [|reflexivity].
    pose proof (find_none _ _ Efd r Hr) as Hn. cbv beta in Hn. congruence.
Qed.

Lemma save_articulo_nuevo :
  res (save (articulo_nuevo 3 100) db_mitad) =
  Ok (set_pk (set_coste_yen (set_iva (articulo_nuevo 3 100) (Some (D 2100 (-4))))
                (Some 100)) 1).
Proof.
  vm_compute. reflexivity.
Qed.

Lemma save_dos_veces_witness :
  let self' := set_pk (set_coste_yen (set_iva (articulo_nuevo 3 100)
                                        (Some (D 2100 (-4)))) (Some 100)) 1 in
  res (save (articulo_nuevo 3 100) db_mitad) = Ok self' /\
  save self' (db_after (save (articulo_nuevo 3 100) db_mitad)) =
    mkOutcome (Ok self') (db_after (save (articulo_nuevo 3 100) db_mitad)) O.
Proof.
  split; [exact save_articulo_nuevo|].
  exact (save_dos_veces (articulo_nuevo 3 100) _ db_mitad save_articulo_nuevo).
Defined.


(** X11.  A successful [save] touches one row only: the order table is
    unchanged, every row whose key is not the key of the saved object
    is still in the article table, and the table has at most one row
    more than before. *)
Theorem save_una_fila (self self' : Articulo) (db : DB) :
  res (save self db) = Ok self' ->
  let db' := db_after (save self db) in
  pedidos db' = pedidos db /\
  (forall r, In r (articulos db) ->
     pk_eqb (pk r) (pk self') = false -> In r (articulos db')) /\
  (List.length (articulos db) <= List.length (articulos db')
     <= S (List.length (articulos db)))%nat.
Proof.
  destruct (buscar_pedido (pedido_id self) db) as [p|] eqn:Hp.
  2:{ rewrite (save_sin_pedido self db Hp). discriminate. }
  rewrite (save_eq self db p Hp).
  destruct (super_save_casos (calcular_coste_yen p (calcular_iva p self)) db)
    as [[e' ->]|(k & fila & s' & Hk & Hf & Hfila & Hs' & ->)]; [discriminate|].
  cbn [res db_after]. intros [= <-]. cbv zeta. cbn [pedidos articulos].
  split; [reflexivity|].
  destruct (buscar_articulo k db).
  - split.
    + intros r Hr Hne. apply in_map_iff. exists r. rewrite Hk in Hne.
      rewrite Hne. auto.
    + rewrite length_map. lia.
  - split.
    + intros r Hr _. apply in_or_app. left. exact Hr.
    + rewrite length_app. cbn [List.length]. lia.
Qed.

Lemma save_articulo_escenario :
  res (save (articulo_nuevo 1 1050) (db_escenario 3000)) =
  Ok (set_pk (set_coste_yen (set_iva (articulo_nuevo 1 1050) (Some (D 22050 (-4))))
                (Some 1732)) 4).
Proof.
  vm_compute. reflexivity.
Qed.

Lemma save_una_fila_witness :
  let self' := set_pk (set_coste_yen (set_iva (articulo_nuevo 1 1050)
                                        (Some (D 22050 (-4)))) (Some 1732)) 4 in
  let db' := db_after (save (articulo_nuevo 1 1050) (db_escenario 3000)) in
  pedidos db' = pedidos (db_escenario 3000) /\
  (forall r, In r (articulos (db_escenario 3000)) ->
     pk_eqb (pk r) (pk self') = false -> In r (articulos db')) /\
  (List.length (articulos (db_escenario 3000)) <= List.length (articulos db')
     <= S (List.length (articulos (db_escenario 3000))))%nat.
Proof.
  exact (save_una_fila (articulo_nuevo 1 1050) _ (db_escenario 3000)
           save_articulo_escenario).
Defined.

(** * How a distribution can fail *)

Lemma mapR_raise_in {A B} (g : A -> Result B) (l : list A) (e : exn) :
  mapR g l = Raise e -> exists a, In a l /\ g a = Raise e.
Proof.
  induction l as [|x r IH]; cbn [mapR]; [discriminate|].
  destruct (g x) as [b|e'] eqn:Eg; cbn [rbind].
  - destruct (mapR g r) as [bs|e'']; cbn [rbind]; [discriminate|].
    intros [= <-]. destruct (IH eq_refl) as (a & Ha & Hga).
    exists a. split; [right; exact Ha|exact Hga].
  - intros [= <-]. exists x. split; [left; reflexivity|exact Eg].
Qed.

(** A division by a divisor that is not zero returns. *)
Lemma div_ok (a b : Dec.t) :
  Dec.coeff b <> 0 -> exists q, Dec.div a b = Ok q.
Proof.
  intros Hb. unfold Dec.div.
  destruct (Z.eqb_spec (Dec.coeff b) 0); [contradiction|].
  destruct (Dec.coeff a =? 0); [eauto|].
  cbv zeta. destruct (_ =? 0); [|eauto].
  destruct (Dec.strip_zeros _ _ _). eauto.
Qed.

Lemma cuota_de_coste_raise (T base : Dec.t) (c : option Dec.t) (e : exn) :
  Dec.coeff base <> 0 ->
  cuota_de_coste (Some T) base c = Raise e -> c = None /\ e = TypeError.
Proof.
  intros Hb. unfold cuota_de_coste. destruct c as [c|].
  - destruct (div_ok c base Hb) as [q ->]. cbn [rbind py_mul]. discriminate.
  - intros [= <-]. split; reflexivity.
Qed.

(** What the column stores is a two-place amount within ten digits;
    the only exception it raises is [InvalidOperation]. *)
Lemma quantize_dinero (d q : Dec.t) :
  Dec.quantize 10 (-2) d = Ok q -> es_dinero q.
Proof.
  unfold Dec.quantize.
  destruct (Z.eqb_spec (Dec.coeff d) 0) as [E|_].
  - intros [= <-]. split; [reflexivity|]. cbn [Dec.coeff]. reflexivity.
  - destruct (10 <? _); [discriminate|].
    destruct (Z.ltb_spec 10 (Dec.ndigits (Z.abs (Dec.coeff (Dec._rescale (-2) d)))))
      as [|Hn]; [discriminate|].
    intros [= <-]. split.
    + unfold Dec._rescale. destruct (_ =? 0); [reflexivity|].
      destruct (_ <=? _); reflexivity.
    + set (c := Dec.coeff (Dec._rescale (-2) d)) in *.
      destruct (Z.eq_dec (Z.abs c) 0) as [->|Hc]; [reflexivity|].
      assert (Hpos : 0 < Z.abs c) by (pose proof (Z.abs_nonneg c); lia).
      destruct (DecFacts.ndigits_spec (Z.abs c) Hpos) as [_ [_ Hlt]].
      eapply Z.lt_le_trans; [exact Hlt|].
      apply Z.pow_le_mono_r; lia.
Qed.

Lemma quantize_raise (p e : Z) (d : Dec.t) (x : exn) :
  Dec.quantize p e d = Raise x -> x = InvalidOperation.
Proof.
  unfold Dec.quantize. destruct (_ =? 0); [discriminate|].
  destruct (p <? _); [intros [= <-]; reflexivity|].
  destruct (p <? _); [intros [= <-]; reflexivity|discriminate].
Qed.

Lemma prep_campo_some (f : Campo) (x : Dec.t) :
  match prep_campo f (Some x) with
  | Ok v => exists d, v = Some d /\ es_dinero d
  | Raise e => e = InvalidOperation
  end.
Proof.
  unfold prep_campo, adapt_decimalfield_value.
  change (- (2)) with (-2).
  destruct (Dec.quantize 10 (-2) x) as [q|e] eqn:Eq; cbn [rbind].
  - pose proof (quantize_dinero x q Eq).
    destruct f; cbn [not_null]; eauto.
  - apply (quantize_raise _ _ _ _ Eq).
Qed.

(** X12.  A distribution never divides by zero: whatever the table,
    the total and the target column, the exception [DivisionByZero] is
    not among its outcomes, the divisions being made only under a
    base sum above zero. *)
Theorem reparto_no_divide_por_cero (self : Pedido) (total : option Dec.t)
    (f : Campo) (db : DB) :
  res (_distribuir_coste self total f db) <> Raise DivisionByZero.
Proof.
  rewrite distribuir_res. unfold resultado_reparto.
  set (rows := articulos_de self db).
  destruct total as [T|]; cbn [py_gt0 rbind]; [|discriminate].
  destruct (_ && _); [|discriminate].
  cbv zeta. set (base := or_cero (sql_sum (map coste_euro rows))).
  rewrite DecFacts.gtb_zero.
  destruct (Z.ltb_spec 0 (Dec.coeff base)) as [HB|]; [|discriminate].
  destruct (mapR (cuota_de_coste (Some T) base) (map coste_euro rows))
    as [xs|e'] eqn:Ex; cbn [rbind].
  - destruct xs as [|x0 xs']; [discriminate|].
    destruct (existsb _ (map pk rows)); [discriminate|].
    destruct (mapR (fun x => prep_campo f (Some x)) (x0 :: xs')) as [?|e'] eqn:Ep;
      cbn [rbind]; [discriminate|].
    destruct (mapR_raise_in _ _ _ Ep) as (x & _ & Hpx).
    pose proof (prep_campo_some f x) as Hq. rewrite Hpx in Hq. subst e'.
    discriminate.
  - destruct (mapR_raise_in _ _ _ Ex) as (c & _ & Hgc).
    apply cuota_de_coste_raise in Hgc; [|lia]. destruct Hgc as [_ ->].
    discriminate.
Qed.

(** X14.  A distribution, whatever its outcome, keeps the primary keys
    of the article table present and pairwise distinct, and leaves the
    order table as it was. *)
Theorem reparto_conserva_claves (self : Pedido) (total : option Dec.t) (f : Campo)
    (db : DB) :
  claves_validas (articulos db) = true ->
  claves_validas (articulos (db_after (_distribuir_coste self total f db))) = true /\
  pedidos (db_after (_distribuir_coste self total f db)) = pedidos db.
Proof.
  intros Hk. rewrite (distribuir_forma self total f db Hk).
  cbn [articulos pedidos]. split; [|reflexivity].
  rewrite claves_map; [exact Hk|].
  intros r. apply efecto_conserva.
Qed.

Lemma reparto_conserva_claves_witness :
  claves_validas
    (articulos (db_after (_distribuir_coste (pedido_ejemplo 1 13) (Some (D 13 (-2)))
                            campo_aduana_imputada db_cinco))) = true /\
  pedidos (db_after (_distribuir_coste (pedido_ejemplo 1 13) (Some (D 13 (-2)))
                       campo_aduana_imputada db_cinco)) = pedidos db_cinco.
Proof.
  exact (reparto_conserva_claves (pedido_ejemplo 1 13) (Some (D 13 (-2)))
           campo_aduana_imputada db_cinco eq_refl).
Defined.

(** * The admin actions *)

Lemma accion_eq {A} (m : M unit) (x : A) (db : DB) :
  res (bind m (fun _ => ret x) db) =
    match res (m db) with Ok _ => Ok x | Raise e => Raise e end /\
  db_after (bind m (fun _ => ret x) db) = db_after (m db).
Proof.
  unfold bind, ret. destruct (res (m db)); split; reflexivity.
Qed.

Lemma Forall2_map_trans {A} (R R' : A -> A -> Prop) (h : A -> A) (l l2 : list A) :
  (forall x y, R' (h x) y -> R x y) ->
  Forall2 R' (map h l) l2 -> Forall2 R l l2.
Proof.
  intros H. revert l2. induction l as [|x r IH]; intros l2 H2; cbn [map] in H2;
    inversion H2; subst; constructor; auto.
Qed.

Lemma atomic_db {A} (body : M A) (db : DB) (e : exn) :
  res (transaction_atomic body db) = Raise e ->
  db_after (transaction_atomic body db) = db.
Proof.
  unfold transaction_atomic. cbv zeta.
  destruct (body db) as [[a|e'] d n]; cbn [res db_after]; [discriminate|reflexivity].
Qed.

Section Acciones.

Variable g : Pedido -> option Dec.t.
Variable f : Campo.

(** The loop of an action over the selected orders. *)
Lemma bucle_solo_cambia (queryset : list Pedido) :
  forall db,
    claves_validas (articulos db) = true ->
    let o := para_cada_pedido (fun p => _distribuir_coste p (g p) f) queryset db in
    claves_validas (articulos (db_after o)) = true /\
    solo_cambia f queryset db (db_after o).
Proof.
  induction queryset as [|p rest IH]; intros db Hk; cbn [para_cada_pedido].
  - cbv zeta. cbn [ret db_after]. split; [exact Hk|].
    split; [reflexivity|]. rewrite <- (map_id (articulos db)) at 2.
    apply Forall2_map_r. auto.
  - cbv zeta.
    set (o1 := _distribuir_coste p (g p) f db).
    pose proof (distribuir_forma p (g p) f db Hk) as Hf. cbv zeta in Hf. fold o1 in Hf.
    set (h := efecto_reparto p f (g p)
                (or_cero (aggregate_sum_coste_euro (articulos_de p db))) (res o1)) in Hf.
    assert (Hk1 : claves_validas (articulos (db_after o1)) = true).
    { rewrite Hf. cbn [articulos]. rewrite claves_map; [exact Hk|].
      intros r. apply efecto_conserva. }
    assert (Hh : forall r,
               h r = r \/ (pedido_id r = pedido_pk p /\ exists v, h r = setattr r f v)).
    { intros r. unfold h, efecto_reparto. destruct (res o1) as [[|]|]; auto.
      unfold actualizar. destruct (Z.eqb_spec (pedido_id r) (pedido_pk p)); eauto. }
    destruct (res o1) as [b|e] eqn:Er.
    + destruct (bind_ok_eq (fun db0 => _distribuir_coste p (g p) f db0)
                  (fun _ => para_cada_pedido (fun q => _distribuir_coste q (g q) f) rest)
                  db b Er) as [_ Hd].
      unfold bind in Hd |- *. fold o1 in Hd |- *. rewrite Er in Hd |- *.
      cbn [db_after] in Hd |- *.
      destruct (IH (db_after o1) Hk1) as (Hk2 & Hp2 & HF2).
      split; [exact Hk2|]. split.
      * rewrite Hp2, Hf. reflexivity.
      * rewrite Hf in HF2 at 1. cbn [articulos] in HF2.
        eapply Forall2_map_trans; [|exact HF2].
        intros x y [->|[(q & Hq & Hid) (v & ->)]].
        -- destruct (Hh x) as [->|[Hid (v & ->)]]; [left; reflexivity|].
           right. split; [exists p; split; [left; reflexivity|exact Hid]|eauto].
        -- right. split.
           ++ destruct (Hh x) as [E|[Hid' (w & E)]]; rewrite E in Hid.
              ** exists q. split; [right; exact Hq|exact Hid].
              ** rewrite pedido_id_setattr in Hid.
                 exists q. split; [right; exact Hq|exact Hid].
           ++ destruct (Hh x) as [->|[_ (w & ->)]]; [eauto|].
              rewrite setattr_setattr. eauto.
    + unfold bind. fold o1. rewrite Er. cbn [db_after].
      split; [exact Hk1|]. split; [rewrite Hf; reflexivity|].
      rewrite Hf. cbn [articulos]. apply Forall2_map_r.
      intros x. destruct (Hh x) as [->|[Hid (v & ->)]]; [left; reflexivity|].
      right. split; [exists p; split; [left; reflexivity|exact Hid]|eauto].
Qed.

(** A loop whose calls all return False leaves the database alone. *)
Lemma bucle_sin_efecto (queryset : list Pedido) (db : DB) :
  claves_validas (articulos db) = true ->
  (forall p, In p queryset -> res (_distribuir_coste p (g p) f db) = Ok false) ->
  para_cada_pedido (fun p => _distribuir_coste p (g p) f) queryset db =
    mkOutcome (Ok tt) db O.
Proof.
  intros Hk. induction queryset as [|p rest IH]; intros H; cbn [para_cada_pedido];
    [reflexivity|].
  assert (E : _distribuir_coste p (g p) f db = mkOutcome (Ok false) db O).
  { pose proof (H p (or_introl eq_refl)) as Hp.
    destruct (g p) as [T|]; [|discriminate Hp].
    destruct (distribuir_casos p f T db Hk) as [H1|[[[e He] _]|H1]].
    - exact H1.
    - rewrite He in Hp. discriminate.
    - destruct H1 as (_ & _ & _ & _ & H1 & _). rewrite H1 in Hp. discriminate. }
  unfold bind. rewrite E. cbn [res db_after divisions].
  rewrite IH by (intros q Hq; apply H; right; exact Hq). reflexivity.
Qed.

(** When the call on an order raises after the calls on the orders
    before it returned, the loop raises and the database is the one
    those earlier calls left. *)
Lemma bucle_fallo (pre post : list Pedido) (p : Pedido) (e : exn) :
  forall db,
    res (para_cada_pedido (fun q => _distribuir_coste q (g q) f) pre db) = Ok tt ->
    res (_distribuir_coste p (g p) f
           (db_after (para_cada_pedido (fun q => _distribuir_coste q (g q) f) pre db)))
      = Raise e ->
    res (para_cada_pedido (fun q => _distribuir_coste q (g q) f) (pre ++ p :: post) db)
      = Raise e /\
    db_after (para_cada_pedido (fun q => _distribuir_coste q (g q) f)
                (pre ++ p :: post) db)
      = db_after (para_cada_pedido (fun q => _distribuir_coste q (g q) f) pre db).
Proof.
  induction pre as [|q pre' IH]; intros db; cbn [para_cada_pedido app].
  - cbn [ret res db_after]. intros _ He. unfold bind. rewrite He. cbn [res db_after].
    split; [reflexivity|].
    exact (atomic_db _ db e He).
  - unfold bind at 1 2. 
    destruct (res (_distribuir_coste q (g q) f db)) as [b|e'] eqn:Eq;
      cbn [res db_after]; [|discriminate].
    intros Hpre He.
    unfold bind. rewrite Eq. cbn [res db_after].
    apply IH; assumption.
Qed.

End Acciones.

(** X17.  The two admin actions change nothing but the target column
    (the customs share for the first, the individual shipping for the
    second) of the articles of the selected orders, whether they end
    with the message or with an exception. *)
Theorem acciones_solo_cambian (queryset : list Pedido) (db : DB) :
  claves_validas (articulos db) = true ->
  solo_cambia campo_aduana_imputada queryset db
    (db_after (distribuir_aduana_action queryset db)) /\
  solo_cambia campo_coste_envio_individual queryset db
    (db_after (distribuir_envio_action queryset db)).
Proof.
  intros Hk. unfold distribuir_aduana_action, distribuir_envio_action.
  split.
  - rewrite (proj2 (accion_eq _ _ db)).
    apply (bucle_solo_cambia gastos_aduana campo_aduana_imputada queryset db Hk).
  - rewrite (proj2 (accion_eq _ _ db)).
    apply (bucle_solo_cambia coste_envio_agrupado campo_coste_envio_individual
             queryset db Hk).
Qed.

Lemma acciones_solo_cambian_witness :
  solo_cambia campo_aduana_imputada [pedido_ejemplo 1 3000; pedido_desborde]
    db_dos_pedidos
    (db_after (distribuir_aduana_action [pedido_ejemplo 1 3000; pedido_desborde]
                 db_dos_pedidos)) /\
  solo_cambia campo_coste_envio_individual [pedido_ejemplo 1 3000; pedido_desborde]
    db_dos_pedidos
    (db_after (distribuir_envio_action [pedido_ejemplo 1 3000; pedido_desborde]
                 db_dos_pedidos)).
Proof.
  exact (acciones_solo_cambian [pedido_ejemplo 1 3000; pedido_desborde]
           db_dos_pedidos eq_refl).
Defined.

(** X18.  An action reports success even when it distributed nothing:
    if the call on every selected order returns False, the message is
    posted and the database is as before. *)
Theorem acciones_sin_efecto (queryset : list Pedido) (db : DB) :
  claves_validas (articulos db) = true ->
  ((forall p, In p queryset -> res (distribuir_gastos_aduana p db) = Ok false) ->
   distribuir_aduana_action queryset db =
     mkOutcome (Ok (mkMensaje "Gastos de aduana distribuidos." "success")) db O) /\
  ((forall p, In p queryset -> res (distribuir_coste_envio p db) = Ok false) ->
   distribuir_envio_action queryset db =
     mkOutcome (Ok (mkMensaje "Coste de envío agrupado distribuido." "success")) db O).
Proof.
  intros Hk. unfold distribuir_aduana_action, distribuir_envio_action. split; intros H.
  - pose proof (bucle_sin_efecto gastos_aduana campo_aduana_imputada queryset db Hk H)
      as E.
    unfold bind, distribuir_gastos_aduana. rewrite E. reflexivity.
  - pose proof (bucle_sin_efecto coste_envio_agrupado campo_coste_envio_individual
                  queryset db Hk H) as E.
    unfold bind, distribuir_coste_envio. rewrite E. reflexivity.
Qed.

Lemma aduana_escenario_falso (p : Pedido) :
  In p [pedido_ejemplo 2 0] ->
  res (distribuir_gastos_aduana p (db_escenario 3000)) = Ok false.
Proof.
  intros [<-|[]]. vm_compute. reflexivity.
Qed.

Lemma envio_escenario_falso (p : Pedido) :
  In p [pedido_ejemplo 2 0] ->
  res (distribuir_coste_envio p (db_escenario 3000)) = Ok false.
Proof.
  intros [<-|[]]. vm_compute. reflexivity.
Qed.

Lemma acciones_sin_efecto_witness :
  distribuir_aduana_action [pedido_ejemplo 2 0] (db_escenario 3000) =
    mkOutcome (Ok (mkMensaje "Gastos de aduana distribuidos." "success"))
      (db_escenario 3000) O /\
  distribuir_envio_action [pedido_ejemplo 2 0] (db_escenario 3000) =
    mkOutcome (Ok (mkMensaje "Coste de envío agrupado distribuido." "success"))
      (db_escenario 3000) O.
Proof.
  exact (conj
    (proj1 (acciones_sin_efecto [pedido_ejemplo 2 0] (db_escenario 3000) eq_refl)
       aduana_escenario_falso)
    (proj2 (acciones_sin_efecto [pedido_ejemplo 2 0] (db_escenario 3000) eq_refl)
       envio_escenario_falso)).
Defined.

(** X19.  An action is not one transaction.  When the call on a
    selected order raises, the action raises the same exception, posts
    no message, and the database keeps what the calls on the orders
    before it wrote. *)
Theorem accion_fallo_parcial (pre post : list Pedido) (p : Pedido) (db : DB)
    (m : Mensaje) (e : exn) :
  res (distribuir_aduana_action pre db) = Ok m ->
  res (distribuir_gastos_aduana p (db_after (distribuir_aduana_action pre db)))
    = Raise e ->
  res (distribuir_aduana_action (pre ++ p :: post) db) = Raise e /\
  db_after (distribuir_aduana_action (pre ++ p :: post) db)
    = db_after (distribuir_aduana_action pre db).
Proof.
  unfold distribuir_aduana_action.
  rewrite !(proj2 (accion_eq _ _ db)), !(proj1 (accion_eq _ _ db)).
  intros Hpre He.
  assert (Hpre' : res (para_cada_pedido
                         (fun q => _distribuir_coste q (gastos_aduana q)
                                     campo_aduana_imputada) pre db) = Ok tt).
  { change (fun q => _distribuir_coste q (gastos_aduana q) campo_aduana_imputada)
      with distribuir_gastos_aduana.
    destruct (res (para_cada_pedido distribuir_gastos_aduana pre db)) as [[]|];
      [reflexivity|discriminate]. }
  destruct (bucle_fallo gastos_aduana campo_aduana_imputada pre post p e db Hpre' He)
    as [H1 H2].
  change (fun q => _distribuir_coste q (gastos_aduana q) campo_aduana_imputada)
    with distribuir_gastos_aduana in H1, H2.
  rewrite H1, H2. split; reflexivity.
Qed.

Lemma accion_primer_pedido :
  res (distribuir_aduana_action [pedido_ejemplo 1 3000] db_dos_pedidos) =
  Ok (mkMensaje "Gastos de aduana distribuidos." "success").
Proof.
  vm_compute. reflexivity.
Qed.

Lemma accion_segundo_pedido :
  res (distribuir_gastos_aduana pedido_desborde
         (db_after (distribuir_aduana_action [pedido_ejemplo 1 3000] db_dos_pedidos)))
  = Raise InvalidOperation.
Proof.
  vm_compute. reflexivity.
Qed.

Lemma accion_fallo_parcial_witness :
  res (distribuir_aduana_action ([pedido_ejemplo 1 3000] ++ pedido_desborde :: [])
         db_dos_pedidos) = Raise InvalidOperation /\
  db_after (distribuir_aduana_action ([pedido_ejemplo 1 3000] ++ pedido_desborde :: [])
              db_dos_pedidos)
    = db_after (distribuir_aduana_action [pedido_ejemplo 1 3000] db_dos_pedidos).
Proof.
  exact (accion_fallo_parcial [pedido_ejemplo 1 3000] [] pedido_desborde
           db_dos_pedidos _ InvalidOperation
           accion_primer_pedido accion_segundo_pedido).
Defined.

(** * What [save] writes in the columns of the distributions *)

Lemma fila_de_destino (s fila : Articulo) (f : Campo) :
  fila_de s = Ok fila ->
  adapt_decimalfield_value 10 2 (getattr s f) = Ok (getattr fila f).
Proof.
  unfold fila_de. destruct f; cbn [getattr];
  (destruct (adapt_decimalfield_value 10 2 (coste_euro s)) as [[ce|]|];
     cbn [rbind not_null]; try discriminate;
   destruct (adapt_decimalfield_value 10 2 (coste_envio_individual s)) as [cei|];
     cbn [rbind]; [|discriminate];
   destruct (adapt_decimalfield_value 10 2 (iva s)); cbn [rbind]; [|discriminate];
   destruct (adapt_decimalfield_value 10 2 (aduana_imputada s)) as [[ai|]|];
     cbn [rbind not_null]; try discriminate;
   destruct (adapt_decimalfield_value 10 2 (precio_venta s)) as [[?|]|];
     cbn [rbind not_null]; try discriminate;
   destruct (adapt_decimalfield_value 10 2 (venta_objetiva s)) as [[?|]|];
     cbn [rbind not_null]; try discriminate;
   destruct (adapt_decimalfield_value 10 2 (coste_envio_nacional s)) as [[?|]|];
     cbn [rbind not_null]; try discriminate;
   intros [= <-]; reflexivity).
Qed.

Lemma getattr_calcular (p : Pedido) (s : Articulo) (f : Campo) :
  getattr (calcular_coste_yen p (calcular_iva p s)) f = getattr s f.
Proof.
  unfold calcular_iva, calcular_coste_yen.
  destruct (tasa_iva p) as [ti|], (tasa_cambio_eur_jpy p) as [t|];
    destruct s as [? ? ? ? [c|] ? ? ? ? ? ? ? ?]; cbn [coste_euro];
    try reflexivity;
    repeat match goal with
           | |- context [if ?b then _ else _] => destruct b; cbn [set_iva coste_euro]
           end; destruct f; reflexivity.
Qed.

(** X20.  A successful [save] writes the customs share and the
    individual shipping of the object itself: the row found afterwards
    under the key of the object holds, in both columns, the values of
    the object at two places (the very values when they are stored
    amounts), whatever a distribution had put in that row. *)
Theorem save_escribe_destinos (self self' : Articulo) (db : DB) (f : Campo) :
  res (save self db) = Ok self' ->
  exists k fila,
    pk self' = Some k /\
    buscar_articulo k (db_after (save self db)) = Some fila /\
    adapt_decimalfield_value 10 2 (getattr self f) = Ok (getattr fila f) /\
    (es_dinero_opt (getattr self f) -> getattr fila f = getattr self f).
Proof.
  destruct (buscar_pedido (pedido_id self) db) as [p|] eqn:Hp.
  2:{ rewrite (save_sin_pedido self db Hp). discriminate. }
  intros Hs.
  destruct (save_ok self self' db p Hp Hs) as [H1 H2].
  destruct (super_save_ok _ _ _ H1) as (k & fila & Hk & Hf & Hb & _).
  exists k, fila. rewrite H2. split; [exact Hk|]. split; [exact Hb|].
  assert (Hg : getattr self' f = getattr self f).
  { destruct (super_save_casos (calcular_coste_yen p (calcular_iva p self)) db)
      as [[e' E]|(k' & fila' & s' & _ & _ & _ & Hs' & E)]; rewrite E in H1;
      [discriminate|].
    cbn [res] in H1. injection H1 as <-.
    destruct Hs' as [->|[_ ->]].
    - apply getattr_calcular.
    - rewrite <- (getattr_calcular p self f). destruct f; reflexivity. }
  pose proof (fila_de_destino _ _ f Hf) as Ha. rewrite Hg in Ha.
  split; [exact Ha|].
  intros Hd. rewrite (adapt_dinero_opt _ Hd) in Ha. congruence.
Qed.

Lemma save_escribe_destinos_witness :
  exists k fila,
    pk (set_pk (set_coste_yen (set_iva (articulo_nuevo 1 1050) (Some (D 22050 (-4))))
                  (Some 1732)) 4) = Some k /\
    buscar_articulo k (db_after (save (articulo_nuevo 1 1050) (db_escenario 3000)))
      = Some fila /\
    adapt_decimalfield_value 10 2
      (getattr (articulo_nuevo 1 1050) campo_aduana_imputada)
      = Ok (getattr fila campo_aduana_imputada) /\
    (es_dinero_opt (getattr (articulo_nuevo 1 1050) campo_aduana_imputada) ->
     getattr fila campo_aduana_imputada
     = getattr (articulo_nuevo 1 1050) campo_aduana_imputada).
Proof.
  exact (save_escribe_destinos (articulo_nuevo 1 1050) _ (db_escenario 3000)
           campo_aduana_imputada save_articulo_escenario).
Defined.

(** * Binary floating point: rounding errors over the reals *)

Local Open Scope R_scope.

Lemma p2_pos (e : Z) : 0 < p2 e.
Proof. apply powerRZ_lt. lra. Qed.

Lemma p2_add (a b : Z) : p2 (a + b) = p2 a * p2 b.
Proof. apply powerRZ_add. lra. Qed.

Lemma p2_IZR (k : Z) : (0 <= k)%Z -> IZR (2 ^ k) = p2 k.
Proof.
  intros Hk. unfold p2. rewrite <- (Z2Nat.id k Hk).
  rewrite <- pow_IZR, <- pow_powerRZ. reflexivity.
Qed.

Lemma p2_opp (a : Z) : p2 (- a) * p2 a = 1.
Proof. rewrite <- p2_add. replace (- a + a)%Z with 0%Z by lia. reflexivity. Qed.

Lemma b64_toR_mk (m e : Z) : B64.toR (B64.mk m e) = IZR m * p2 e.
Proof. reflexivity. Qed.

Lemma u53_pos : 0 < u53.
Proof. unfold u53. apply Rinv_0_lt_compat. apply IZR_lt. reflexivity. Qed.

(** Rounding a quotient of at least 2^52 to an integer moves it by at
    most one part in 2^53. *)
Lemma rhe_rel (c q : Z) :
  (0 < q)%Z -> (2 ^ 52 * q <= Z.abs c)%Z ->
  Rabs (IZR (Dec.rhe_div c q) - IZR c / IZR q) <= Rabs (IZR c / IZR q) * u53.
Proof.
  intros Hq Hc.
  destruct (DecFacts.rhe_div_spec c q Hq) as [Hr _].
  set (r := Dec.rhe_div c q) in *.
  assert (Hq' : 0 < IZR q) by (apply IZR_lt; exact Hq).
  assert (E : IZR r - IZR c / IZR q = IZR (r * q - c) / IZR q).
  { rewrite minus_IZR, mult_IZR. field. lra. }
  rewrite E. unfold Rdiv. rewrite !Rabs_mult.
  rewrite (Rabs_pos_eq (/ IZR q)) by (left; apply Rinv_0_lt_compat; exact Hq').
  rewrite <- !abs_IZR.
  assert (H1 : 2 * IZR (Z.abs (r * q - c)) <= IZR q).
  { apply IZR_le in Hr. rewrite mult_IZR in Hr. exact Hr. }
  assert (H2 : IZR (2 ^ 52) * IZR q <= IZR (Z.abs c)).
  { apply IZR_le in Hc. rewrite mult_IZR in Hc. exact Hc. }
  assert (H3 : IZR (Z.abs (r * q - c)) <= IZR (Z.abs c) * u53).
  { unfold u53. change (2 ^ 53)%Z with (2 * 2 ^ 52)%Z. rewrite mult_IZR.
    assert (P : 0 < IZR (2 ^ 52)) by (apply IZR_lt; reflexivity).
    apply Rmult_le_reg_r with (2 * IZR (2 ^ 52)); [lra|].
    replace (IZR (Z.abs c) * / (2 * IZR (2 ^ 52)) * (2 * IZR (2 ^ 52)))
      with (IZR (Z.abs c)) by (field; lra).
    assert (0 <= IZR (Z.abs (r * q - c))) by (apply IZR_le; lia).
    nra. }
  assert (Hi : 0 < / IZR q) by (apply Rinv_0_lt_compat; exact Hq').
  pose proof u53_pos.
  replace (IZR (Z.abs c) * / IZR q * u53) with (IZR (Z.abs c) * u53 * / IZR q) by ring.
  apply Rmult_le_compat_r; [lra|exact H3].
Qed.

Lemma escala_err (x y s k : R) :
  0 < s -> Rabs (x - y) <= Rabs y * k -> Rabs (x * s - y * s) <= Rabs (y * s) * k.
Proof.
  intros Hs H.
  replace (x * s - y * s) with ((x - y) * s) by ring.
  rewrite (Rabs_mult (x - y) s), (Rabs_mult y s), (Rabs_pos_eq s) by lra.
  replace (Rabs y * s * k) with (Rabs y * k * s) by ring.
  apply Rmult_le_compat_r; [lra|exact H].
Qed.

Lemma redondear_err (n d : Z) :
  (0 < d)%Z ->
  Rabs (B64.toR (B64.redondear n d) - IZR n / IZR d) <= Rabs (IZR n / IZR d) * u53.
Proof.
  intros Hd. unfold B64.redondear.
  destruct (Z.eqb_spec n 0) as [->|Hn].
  { rewrite b64_toR_mk. unfold Rdiv. rewrite !Rmult_0_l, Rminus_0_r, Rabs_R0. lra. }
  set (a := Z.log2 (Z.abs n)). set (b := Z.log2 d).
  assert (Ha : (2 ^ a <= Z.abs n < 2 ^ (a + 1))%Z).
  { pose proof (Z.log2_spec (Z.abs n) ltac:(lia)) as H. fold a in H.
    replace (a + 1)%Z with (Z.succ a) by lia. exact H. }
  assert (Hb : (2 ^ b <= d < 2 ^ (b + 1))%Z).
  { pose proof (Z.log2_spec d Hd) as H. fold b in H.
    replace (b + 1)%Z with (Z.succ b) by lia. exact H. }
  assert (Ha0 : (0 <= a)%Z) by apply Z.log2_nonneg.
  assert (Hb0 : (0 <= b)%Z) by apply Z.log2_nonneg.
  set (e0 := (a - b - 53)%Z).
  set (num := if (0 <=? e0)%Z then n else (n * 2 ^ (- e0))%Z).
  set (den := if (0 <=? e0)%Z then (d * 2 ^ e0)%Z else d).
  assert (Hden : (0 < den)%Z).
  { unfold den. destruct (Z.leb_spec 0 e0); [|exact Hd].
    pose proof (Z.pow_pos_nonneg 2 e0). nia. }
  assert (Hlo : (2 ^ 52 * den < Z.abs num)%Z).
  { unfold num, den. destruct (Z.leb_spec 0 e0) as [He|He].
    - assert (E : (2 ^ 52 * (2 ^ (b + 1) * 2 ^ e0) = 2 ^ a)%Z).
      { rewrite <- !Z.pow_add_r by lia. f_equal. unfold e0. lia. }
      pose proof (Z.pow_pos_nonneg 2 e0 ltac:(lia) He).
      nia.
    - rewrite Z.abs_mul, (Z.abs_eq (2 ^ (- e0))) by (apply Z.pow_nonneg; lia).
      assert (E : (2 ^ 52 * 2 ^ (b + 1) = 2 ^ a * 2 ^ (- e0))%Z).
      { rewrite <- !Z.pow_add_r by lia. f_equal. unfold e0. lia. }
      pose proof (Z.pow_pos_nonneg 2 (- e0) ltac:(lia) ltac:(lia)).
      nia. }
  assert (Hval : IZR num / IZR den * p2 e0 = IZR n / IZR d).
  { unfold num, den. assert (0 < IZR d) by (apply IZR_lt; exact Hd).
    destruct (Z.leb_spec 0 e0) as [He|He].
    - rewrite mult_IZR, p2_IZR by lia. pose proof (p2_pos e0). field. lra.
    - rewrite mult_IZR, p2_IZR by lia.
      pose proof (p2_opp e0) as Ho. pose proof (p2_pos e0). pose proof (p2_pos (- e0)).
      transitivity (IZR n / IZR d * (p2 (- e0) * p2 e0)); [field; lra|].
      rewrite Ho. ring. }
  assert (Hpe : 0 < p2 e0) by apply p2_pos.
  destruct (Z.leb_spec (2 ^ 53 * den) (Z.abs num)) as [Hbig|Hsmall].
  - rewrite b64_toR_mk.
    assert (Hq : (0 < 2 * den)%Z) by lia.
    assert (Hc : (2 ^ 52 * (2 * den) <= Z.abs num)%Z).
    { change (2 ^ 53)%Z with (2 ^ 52 * 2)%Z in Hbig. lia. }
    pose proof (rhe_rel num (2 * den) Hq Hc) as H.
    assert (E2 : p2 (e0 + 1) = 2 * p2 e0).
    { rewrite p2_add. unfold p2 at 2. rewrite powerRZ_1. ring. }
    assert (E3 : IZR num / IZR (2 * den) * (2 * p2 e0) = IZR n / IZR d).
    { rewrite <- Hval. rewrite mult_IZR.
      assert (0 < IZR den) by (apply IZR_lt; exact Hden). field. lra. }
    rewrite E2, <- E3. apply escala_err; [lra|exact H].
  - rewrite b64_toR_mk.
    pose proof (rhe_rel num den Hden ltac:(lia)) as H.
    rewrite <- Hval. apply escala_err; [lra|exact H].
Qed.

Lemma de_diadico_err (n e : Z) :
  Rabs (B64.toR (B64.de_diadico n e) - IZR n * p2 e) <= Rabs (IZR n * p2 e) * u53.
Proof.
  unfold B64.de_diadico. destruct (Z.leb_spec 0 e) as [He|He].
  - pose proof (redondear_err (n * 2 ^ e) 1 ltac:(lia)) as H.
    rewrite mult_IZR, p2_IZR in H by lia. unfold Rdiv in H.
    rewrite Rinv_1, Rmult_1_r in H. exact H.
  - assert (Hp : (0 < 2 ^ (- e))%Z) by (apply Z.pow_pos_nonneg; lia).
    pose proof (redondear_err n (2 ^ (- e)) Hp) as H.
    rewrite p2_IZR in H by lia.
    assert (E : IZR n / p2 (- e) = IZR n * p2 e).
    { pose proof (p2_opp e) as Ho. pose proof (p2_pos e). pose proof (p2_pos (- e)).
      transitivity (IZR n * (p2 (- e) * p2 e) / p2 (- e)); [rewrite Ho; field; lra|].
      field. lra. }
    rewrite E in H. exact H.
Qed.

Lemma diadico_suma (m1 e1 m2 e2 : Z) :
  let e' := Z.min e1 e2 in
  IZR (m1 * 2 ^ (e1 - e') + m2 * 2 ^ (e2 - e')) * p2 e' = IZR m1 * p2 e1 + IZR m2 * p2 e2.
Proof.
  intros e'. rewrite plus_IZR, !mult_IZR, !p2_IZR by lia.
  rewrite Rmult_plus_distr_r, !Rmult_assoc, <- !p2_add.
  replace (e1 - e' + e')%Z with e1 by lia. replace (e2 - e' + e')%Z with e2 by lia.
  reflexivity.
Qed.

Lemma b64_add_err (x y : B64.t) :
  Rabs (B64.toR (B64.add x y) - (B64.toR x + B64.toR y))
  <= Rabs (B64.toR x + B64.toR y) * u53.
Proof.
  unfold B64.add. cbv zeta.
  pose proof (de_diadico_err
    (B64.m x * 2 ^ (B64.e x - Z.min (B64.e x) (B64.e y))
     + B64.m y * 2 ^ (B64.e y - Z.min (B64.e x) (B64.e y)))
    (Z.min (B64.e x) (B64.e y))) as H.
  pose proof (diadico_suma (B64.m x) (B64.e x) (B64.m y) (B64.e y)) as E. cbv zeta in E.
  rewrite E in H. exact H.
Qed.

Lemma b64_sub_err (x y : B64.t) :
  Rabs (B64.toR (B64.sub x y) - (B64.toR x - B64.toR y))
  <= Rabs (B64.toR x - B64.toR y) * u53.
Proof.
  unfold B64.sub. cbv zeta.
  pose proof (de_diadico_err
    (B64.m x * 2 ^ (B64.e x - Z.min (B64.e x) (B64.e y))
     - B64.m y * 2 ^ (B64.e y - Z.min (B64.e x) (B64.e y)))
    (Z.min (B64.e x) (B64.e y))) as H.
  pose proof (diadico_suma (B64.m x) (B64.e x) (- B64.m y) (B64.e y)) as E. cbv zeta in E.
  replace (B64.m x * 2 ^ (B64.e x - Z.min (B64.e x) (B64.e y))
           + - B64.m y * 2 ^ (B64.e y - Z.min (B64.e x) (B64.e y)))%Z
    with (B64.m x * 2 ^ (B64.e x - Z.min (B64.e x) (B64.e y))
          - B64.m y * 2 ^ (B64.e y - Z.min (B64.e x) (B64.e y)))%Z in E by lia.
  rewrite E, opp_IZR in H.
  replace (IZR (B64.m x) * p2 (B64.e x) + - IZR (B64.m y) * p2 (B64.e y))
    with (B64.toR x - B64.toR y) in H by (unfold B64.toR, p2; ring).
  exact H.
Qed.

Lemma toR_mk_eta (d : Dec.t) : Dec.toR d = IZR (Dec.coeff d) * p10 (Dec.exp d).
Proof. reflexivity. Qed.

Lemma de_decimal_err (d : Dec.t) :
  Rabs (B64.toR (B64.de_decimal d) - Dec.toR d) <= Rabs (Dec.toR d) * u53.
Proof.
  unfold B64.de_decimal. rewrite !(toR_mk_eta d).
  destruct (Z.leb_spec 0 (Dec.exp d)) as [He|He].
  - pose proof (redondear_err (Dec.coeff d * 10 ^ Dec.exp d) 1 ltac:(lia)) as H.
    rewrite mult_IZR, p10_IZR in H by lia. unfold Rdiv in H.
    rewrite Rinv_1, Rmult_1_r in H. exact H.
  - assert (Hp : (0 < 10 ^ (- Dec.exp d))%Z) by (apply Z.pow_pos_nonneg; lia).
    pose proof (redondear_err (Dec.coeff d) (10 ^ (- Dec.exp d)) Hp) as H.
    rewrite p10_IZR in H by lia.
    assert (E : IZR (Dec.coeff d) / p10 (- Dec.exp d) = IZR (Dec.coeff d) * p10 (Dec.exp d)).
    { pose proof (p10_opp (Dec.exp d)) as Ho. pose proof (p10_pos (Dec.exp d)).
      pose proof (p10_pos (- Dec.exp d)).
      transitivity (IZR (Dec.coeff d) * (p10 (- Dec.exp d) * p10 (Dec.exp d))
                    / p10 (- Dec.exp d)); [rewrite Ho; field; lra|].
      field. lra. }
    rewrite E in H. exact H.
Qed.

Lemma reducir_spec (fuel : nat) :
  forall n k : Z, (0 <= k)%Z ->
    (0 <= snd (B64.reducir fuel n k))%Z /\
    IZR (fst (B64.reducir fuel n k)) * p2 (- snd (B64.reducir fuel n k))
    = IZR n * p2 (- k).
Proof.
  induction fuel as [|fuel IH]; intros n k Hk; cbn [B64.reducir]; [split; [exact Hk|reflexivity]|].
  destruct (Z.ltb_spec 0 k) as [Hpos|]; cbn [andb]; [|split; [exact Hk|reflexivity]].
  destruct (Z.even n) eqn:Ev; [|split; [exact Hk|reflexivity]].
  destruct (IH (n / 2)%Z (k - 1)%Z ltac:(lia)) as [H1 H2].
  split; [exact H1|]. rewrite H2.
  apply Z.even_spec in Ev. destruct Ev as [h ->].
  replace (2 * h / 2)%Z with h by (symmetry; rewrite Z.mul_comm; apply Z.div_mul; lia).
  rewrite mult_IZR.
  replace (- (k - 1))%Z with (- k + 1)%Z by lia. rewrite p2_add.
  unfold p2 at 2. rewrite powerRZ_1. ring.
Qed.

Lemma cinco_diez (k : Z) : (0 <= k)%Z -> IZR (5 ^ k) * p10 (- k) = p2 (- k).
Proof.
  intros Hk.
  assert (E : (10 ^ k = 2 ^ k * 5 ^ k)%Z) by (rewrite <- Z.pow_mul_l; reflexivity).
  pose proof (p10_opp k) as H10. pose proof (p2_opp k) as H2.
  rewrite <- (p10_IZR k), E, mult_IZR, (p2_IZR k) in H10 by lia.
  pose proof (p2_pos k). pose proof (p2_pos (- k)). pose proof (p10_pos (- k)).
  assert (H5 : 0 < IZR (5 ^ k)) by (apply IZR_lt; apply Z.pow_pos_nonneg; lia).
  apply Rmult_eq_reg_r with (p2 k); [|lra].
  rewrite H2. rewrite <- H10. ring.
Qed.

(** [Decimal.from_float] is exact. *)
Lemma from_float_toR (x : B64.t) : Dec.toR (B64.from_float x) = B64.toR x.
Proof.
  unfold B64.from_float, B64.as_integer_ratio. destruct x as [m e]. cbn [B64.m B64.e].
  rewrite b64_toR_mk.
  destruct (Z.eqb_spec m 0) as [->|Hm].
  { rewrite toR_mk. cbn. ring. }
  destruct (Z.leb_spec 0 e) as [He|He].
  - rewrite toR_mk. change (5 ^ 0)%Z with 1%Z. rewrite Z.mul_1_r.
    change (- 0)%Z with 0%Z. rewrite p10_0, mult_IZR, p2_IZR by lia. ring.
  - destruct (reducir_spec (Z.to_nat (- e)) m (- e) ltac:(lia)) as [H1 H2].
    destruct (B64.reducir (Z.to_nat (- e)) m (- e)) as [n k]. cbn [fst snd] in H1, H2.
    rewrite toR_mk, mult_IZR, Rmult_assoc, cinco_diez by exact H1.
    rewrite H2. replace (- - e)%Z with e by lia. reflexivity.
Qed.

(** [create_decimal] moves a value by at most half a unit in the 15th digit. *)
Lemma fix15_Z (d : Dec.t) :
  exists m : Z,
    Dec.toR (Dec._fix_prec 15 d) = IZR m * p10 (Dec.exp d) /\
    (2 * Z.abs (m - Dec.coeff d) * 10 ^ 14 <= Z.abs (Dec.coeff d))%Z.
Proof.
  destruct d as [c e]. unfold Dec._fix_prec. cbn [Dec.coeff Dec.exp].
  set (n := Dec.ndigits (Z.abs c)).
  destruct (Z.leb_spec n 15) as [Hn|Hn].
  - exists c. split; [reflexivity|]. replace (c - c)%Z with 0%Z by lia. cbn. lia.
  - set (k := (n - 15)%Z).
    assert (Hk : (1 <= k)%Z) by (unfold k; lia).
    assert (Hc0 : (0 < Z.abs c)%Z).
    { destruct (Z.eq_dec (Z.abs c) 0) as [E|]; [|lia].
      unfold n in Hn. rewrite E in Hn. vm_compute in Hn. discriminate. }
    destruct (DecFacts.ndigits_spec (Z.abs c) Hc0) as (_ & Hlo & Hhi). fold n in Hlo, Hhi.
    assert (Hpk : (0 < 10 ^ k)%Z) by (apply Z.pow_pos_nonneg; lia).
    assert (Elo : (10 ^ (n - 1) = 10 ^ 14 * 10 ^ k)%Z).
    { rewrite <- Z.pow_add_r by lia. f_equal. unfold k. lia. }
    assert (Ehi : (10 ^ n = 10 ^ 15 * 10 ^ k)%Z).
    { rewrite <- Z.pow_add_r by lia. f_equal. unfold k. lia. }
    set (r := Dec.rhe_div c (10 ^ k)).
    destruct (DecFacts.rhe_div_spec c (10 ^ k) Hpk) as [Hr _]. fold r in Hr.
    pose proof (DecFacts.rhe_div_abs_le c (10 ^ k) Hpk) as Hra. fold r in Hra.
    assert (Hm : (2 * Z.abs (r * 10 ^ k - c) * 10 ^ 14 <= Z.abs c)%Z) by nia.
    assert (Hval : forall c' e', (c' * 10 ^ (e' - e) = r * 10 ^ k)%Z -> (e <= e')%Z ->
               Dec.toR (Dec.mk c' e') = IZR (r * 10 ^ k) * p10 e).
    { intros c' e' E He. rewrite toR_mk, <- E, mult_IZR, p10_IZR by lia.
      rewrite Rmult_assoc, <- p10_add. f_equal. f_equal. lia. }
    exists (r * 10 ^ k)%Z. split; [|exact Hm].
    destruct (Z.ltb_spec 15 (Dec.ndigits (Z.abs r))) as [Hcarry|Hcarry].
    + assert (H15 : (10 ^ 15 <= Z.abs r)%Z) by (apply DecFacts.ndigits_gt; lia).
      assert (Hle : (Z.abs r <= 10 ^ 15)%Z).
      { pose proof (Z.div_mod (10 ^ k) 2 ltac:(lia)).
        pose proof (Z.mod_pos_bound (10 ^ k) 2 ltac:(lia)). nia. }
      assert (Hq : (Z.quot r 10 * 10 = r)%Z).
      { assert (Er : r = (10 ^ 15)%Z \/ r = (- 10 ^ 15)%Z) by lia.
        destruct Er as [->| ->]; vm_compute; reflexivity. }
      apply Hval; [|lia].
      replace (e + k + 1 - e)%Z with (k + 1)%Z by lia.
      rewrite Z.pow_add_r by lia. change (10 ^ 1)%Z with 10%Z. rewrite <- Hq at 2. lia.
    + apply Hval; [|lia]. do 2 f_equal. lia.
Qed.

Lemma fix15_err (d : Dec.t) :
  Rabs (Dec.toR (Dec._fix_prec 15 d) - Dec.toR d) <= Rabs (Dec.toR d) * (/ 2 * p10 (-14)).
Proof.
  destruct (fix15_Z d) as (m & Hv & Hm). rewrite Hv. unfold Dec.toR at 1 2.
  fold (p10 (Dec.exp d)).
  replace (IZR m * p10 (Dec.exp d) - IZR (Dec.coeff d) * p10 (Dec.exp d))
    with (IZR (m - Dec.coeff d) * p10 (Dec.exp d)) by (rewrite minus_IZR; ring).
  rewrite !Rabs_mult, (Rabs_pos_eq (p10 _)) by (left; apply p10_pos).
  rewrite <- !abs_IZR.
  apply IZR_le in Hm. rewrite !mult_IZR in Hm.
  rewrite (p10_IZR 14) in Hm by lia.
  pose proof (p10_pos (Dec.exp d)) as He.
  pose proof (p10_opp 14 : p10 (-14) * p10 14 = 1) as Ho. pose proof (p10_pos (-14)) as Hn.
  pose proof (p10_pos 14) as Hp.
  assert (H1 : IZR (Z.abs (m - Dec.coeff d)) <= IZR (Z.abs (Dec.coeff d)) * (/ 2 * p10 (-14))).
  { assert (0 <= IZR (Z.abs (m - Dec.coeff d))) by (apply IZR_le; lia).
    assert (E : IZR (Z.abs (m - Dec.coeff d)) =
                (2 * IZR (Z.abs (m - Dec.coeff d)) * p10 14) * (/ 2 * p10 (-14))).
    { transitivity (IZR (Z.abs (m - Dec.coeff d)) * (p10 (-14) * p10 14)).
      - rewrite Ho. ring.
      - field. }
    rewrite E. apply Rmult_le_compat_r; [nra|]. exact Hm. }
  nra.
Qed.

(** * The profit annotation of the change list *)

Lemma Rabs_cotas (a b : R) : Rabs a <= b -> - b <= a <= b.
Proof. unfold Rabs. destruct (Rcase_abs a); lra. Qed.

Lemma p10_neg (k : Z) : (0 <= k)%Z -> p10 (- k) = / IZR (10 ^ k).
Proof.
  intros Hk. pose proof (p10_opp k) as H. rewrite <- (p10_IZR k) in H by lia.
  assert (0 < IZR (10 ^ k)) by (apply IZR_lt; apply Z.pow_pos_nonneg; lia).
  apply Rmult_eq_reg_r with (IZR (10 ^ k)); [|lra].
  rewrite H. field. lra.
Qed.

Lemma u53_cota : 0 < u53 /\ u53 <= 2 / 10000000000000000.
Proof.
  split; [apply u53_pos|]. unfold u53.
  assert (H : 5000000000000000 <= IZR (2 ^ 53)) by (apply IZR_le; vm_compute; discriminate).
  assert (Hp : 0 < IZR (2 ^ 53)) by lra.
  apply Rmult_le_reg_r with (IZR (2 ^ 53)); [exact Hp|].
  replace (/ IZR (2 ^ 53) * IZR (2 ^ 53)) with 1 by (field; lra). lra.
Qed.

Lemma dinero_cota (d : Dec.t) :
  es_dinero d ->
  Dec.toR d = IZR (Dec.coeff d) / 100 /\ Rabs (Dec.toR d) <= 100000000.
Proof.
  intros [He Hb]. rewrite (toR_centimos d He).
  assert (E : p10 (-2) = / 100).
  { change (-2)%Z with (- (2))%Z. rewrite p10_neg by lia. reflexivity. }
  rewrite E. split; [reflexivity|].
  assert (H1 : (- 10 ^ 10 <= Dec.coeff d <= 10 ^ 10)%Z) by lia.
  destruct H1 as [H1 H2]. apply IZR_le in H1, H2.
  change (IZR (- 10 ^ 10)) with (-10000000000) in H1.
  change (IZR (10 ^ 10)) with 10000000000 in H2.
  apply Rabs_le. lra.
Qed.

Lemma fl_add_aprox (x y : B64.t) (X Y Bx By Ex Ey : R) :
  Rabs X <= Bx -> Rabs Y <= By ->
  Rabs (B64.toR x - X) <= Ex -> Rabs (B64.toR y - Y) <= Ey -> Ex + Ey <= 1 ->
  Rabs (B64.toR (B64.add x y) - (X + Y)) <= Ex + Ey + (Bx + By + 1) * u53.
Proof.
  intros HX HY Hx Hy HE. pose proof (b64_add_err x y) as H. pose proof u53_pos as Hu.
  apply Rabs_cotas in HX, HY, Hx, Hy.
  assert (Hs : Rabs (B64.toR x + B64.toR y) <= Bx + By + 1) by (apply Rabs_le; lra).
  assert (Hm : Rabs (B64.toR x + B64.toR y) * u53 <= (Bx + By + 1) * u53)
    by (apply Rmult_le_compat_r; lra).
  apply Rabs_cotas in H. apply Rabs_le. lra.
Qed.

Lemma fl_sub_aprox (x y : B64.t) (X Y Bx By Ex Ey : R) :
  Rabs X <= Bx -> Rabs Y <= By ->
  Rabs (B64.toR x - X) <= Ex -> Rabs (B64.toR y - Y) <= Ey -> Ex + Ey <= 1 ->
  Rabs (B64.toR (B64.sub x y) - (X - Y)) <= Ex + Ey + (Bx + By + 1) * u53.
Proof.
  intros HX HY Hx Hy HE. pose proof (b64_sub_err x y) as H. pose proof u53_pos as Hu.
  apply Rabs_cotas in HX, HY, Hx, Hy.
  assert (Hs : Rabs (B64.toR x - B64.toR y) <= Bx + By + 1) by (apply Rabs_le; lra).
  assert (Hm : Rabs (B64.toR x - B64.toR y) * u53 <= (Bx + By + 1) * u53)
    by (apply Rmult_le_compat_r; lra).
  apply Rabs_cotas in H. apply Rabs_le. lra.
Qed.

(** What SQLite holds for a stored column, NULL read as zero. *)
Lemma coalesce_aprox (v : option Dec.t) :
  es_dinero_opt v ->
  Rabs (IZR (centimos v) / 100) <= 100000000 /\
  Rabs (B64.toR (Admin.Coalesce v) - IZR (centimos v) / 100) <= 100000000 * u53.
Proof.
  pose proof u53_pos as Hu.
  destruct v as [d|]; cbn [es_dinero_opt Admin.Coalesce centimos].
  - intros Hd. destruct (dinero_cota d Hd) as [E B]. rewrite <- E.
    split; [exact B|].
    pose proof (de_decimal_err d) as H.
    assert (Rabs (Dec.toR d) * u53 <= 100000000 * u53)
      by (apply Rmult_le_compat_r; lra).
    lra.
  - intros _. rewrite b64_toR_mk. unfold Rdiv. rewrite !Rmult_0_l, Rminus_0_r, Rabs_R0.
    split; lra.
Qed.

Lemma create_decimal_err (x : B64.t) (B : R) :
  Rabs (B64.toR x) <= B ->
  Rabs (Dec.toR (B64.create_decimal x) - B64.toR x) <= B * 5 / 1000000000000000.
Proof.
  intros HB. unfold B64.create_decimal.
  pose proof (fix15_err (B64.from_float x)) as H. rewrite from_float_toR in H.
  assert (E : p10 (-14) = / 100000000000000).
  { change (-14)%Z with (- (14))%Z. rewrite p10_neg by lia. reflexivity. }
  rewrite E in H.
  assert (Rabs (B64.toR x) * (/ 2 * / 100000000000000)
          <= B * (/ 2 * / 100000000000000))
    by (apply Rmult_le_compat_r; lra).
  lra.
Qed.

(** The annotation is the price minus the five cost columns, within a
    thousandth of a cent. *)
Lemma anotacion_cota (r : Articulo) (pv : Dec.t) :
  precio_venta r = Some pv -> es_dinero pv -> costes_validos r ->
  exists b_admin,
    Admin._beneficio r = Some b_admin /\
    Rabs (Dec.toR b_admin - IZR (Dec.coeff pv - suma_costes r) / 100) <= / 100000.
Proof.
  intros Hp Dp (Hc & Hs & Hi & Ha & Hn).
  destruct (es_dinero_req_some _ Hc) as (c & Ec & Dc).
  destruct (es_dinero_req_some _ Hs) as (s & Es & Ds).
  destruct (es_dinero_req_some _ Ha) as (a & Ea & Da).
  destruct (es_dinero_req_some _ Hn) as (n & En & Dn).
  unfold Admin._beneficio. rewrite Hp. eexists. split; [reflexivity|].
  unfold Admin.coste_total_expr, Admin.sql_add, Admin.sql_sub.
  destruct u53_cota as [Hu0 Hu].
  destruct (coalesce_aprox (coste_euro r)) as [B1 A1]; [rewrite Ec; exact Dc|].
  destruct (coalesce_aprox (iva r) Hi) as [B2 A2].
  destruct (coalesce_aprox (coste_envio_individual r)) as [B3 A3]; [rewrite Es; exact Ds|].
  destruct (coalesce_aprox (aduana_imputada r)) as [B4 A4]; [rewrite Ea; exact Da|].
  destruct (coalesce_aprox (coste_envio_nacional r)) as [B5 A5]; [rewrite En; exact Dn|].
  destruct (coalesce_aprox (Some pv) Dp) as [B6 A6]. cbn [centimos] in B6, A6.
  set (x1 := Admin.Coalesce (coste_euro r)) in *.
  set (x2 := Admin.Coalesce (iva r)) in *.
  set (x3 := Admin.Coalesce (coste_envio_individual r)) in *.
  set (x4 := Admin.Coalesce (aduana_imputada r)) in *.
  set (x5 := Admin.Coalesce (coste_envio_nacional r)) in *.
  set (x6 := Admin.Coalesce (Some pv)) in *.
  set (v1 := IZR (centimos (coste_euro r)) / 100) in *.
  set (v2 := IZR (centimos (iva r)) / 100) in *.
  set (v3 := IZR (centimos (coste_envio_individual r)) / 100) in *.
  set (v4 := IZR (centimos (aduana_imputada r)) / 100) in *.
  set (v5 := IZR (centimos (coste_envio_nacional r)) / 100) in *.
  set (v6 := IZR (Dec.coeff pv) / 100) in *.
  assert (EV : IZR (Dec.coeff pv - suma_costes r) / 100
               = v6 - ((((v1 + v2) + v3) + v4) + v5)).
  { unfold suma_costes, v1, v2, v3, v4, v5, v6.
    rewrite minus_IZR, !plus_IZR. field. }
  rewrite EV.
  pose proof (fl_add_aprox x1 x2 v1 v2 _ _ _ _ B1 B2 A1 A2 ltac:(lra)) as S1.
  assert (T1 : Rabs (v1 + v2) <= 200000000)
    by (apply Rabs_cotas in B1, B2; apply Rabs_le; lra).
  pose proof (fl_add_aprox _ x3 _ v3 _ _ _ _ T1 B3 S1 A3 ltac:(lra)) as S2.
  assert (T2 : Rabs (v1 + v2 + v3) <= 300000000)
    by (apply Rabs_cotas in T1, B3; apply Rabs_le; lra).
  pose proof (fl_add_aprox _ x4 _ v4 _ _ _ _ T2 B4 S2 A4 ltac:(lra)) as S3.
  assert (T3 : Rabs (v1 + v2 + v3 + v4) <= 400000000)
    by (apply Rabs_cotas in T2, B4; apply Rabs_le; lra).
  pose proof (fl_add_aprox _ x5 _ v5 _ _ _ _ T3 B5 S3 A5 ltac:(lra)) as S4.
  assert (T4 : Rabs (v1 + v2 + v3 + v4 + v5) <= 500000000)
    by (apply Rabs_cotas in T3, B5; apply Rabs_le; lra).
  pose proof (fl_sub_aprox x6 _ v6 _ _ _ _ _ B6 T4 A6 S4 ltac:(lra)) as S5.
  set (bf := B64.sub x6 (B64.add (B64.add (B64.add (B64.add x1 x2) x3) x4) x5)) in *.
  assert (HB : Rabs (B64.toR bf) <= 600000001).
  { apply Rabs_cotas in S5, B6, T4. apply Rabs_le. lra. }
  pose proof (create_decimal_err bf _ HB) as HA.
  apply Rabs_cotas in S5, HA. apply Rabs_le. lra.
Qed.

Lemma eqb_toR (a b : Dec.t) : Dec.eqb a b = true -> Dec.toR a = Dec.toR b.
Proof.
  unfold Dec.eqb, Dec.compare. set (e := Z.min (Dec.exp a) (Dec.exp b)).
  destruct (Z.compare_spec (Dec.coeff a * 10 ^ (Dec.exp a - e))
              (Dec.coeff b * 10 ^ (Dec.exp b - e))) as [E| |]; try discriminate.
  intros _. apply (f_equal IZR) in E. rewrite !mult_IZR, !p10_IZR in E by lia.
  rewrite !toR_mk_eta.
  replace (Dec.exp a) with (Dec.exp a - e + e)%Z at 1 by lia.
  replace (Dec.exp b) with (Dec.exp b - e + e)%Z at 1 by lia.
  rewrite !p10_add, <- !Rmult_assoc, E. reflexivity.
Qed.

(** C10.  For a stored article with a sale price the annotation
    [_beneficio] of the admin list is the sale price minus the five
    cost columns as the database computes it, in binary floating
    point: it lies within a thousandth of a cent of that difference.
    The property [beneficio] subtracts the national shipping once
    more, so the annotation exceeds the property by the national
    shipping cost within a thousandth of a cent, and the two figures
    are different whenever that cost is not zero. *)
Theorem beneficio_admin_y_propiedad (r : Articulo) (pv : Dec.t) :
  precio_venta r = Some pv -> es_dinero pv -> costes_validos r ->
  exists b_admin b_prop,
    Admin._beneficio r = Some b_admin /\
    beneficio r = Ok (Some b_prop) /\
    Rabs (Dec.toR b_admin - IZR (Dec.coeff pv - suma_costes r) / 100) <= / 100000 /\
    Rabs (Dec.toR b_admin - Dec.toR b_prop
          - IZR (centimos (coste_envio_nacional r)) / 100) <= / 100000 /\
    (centimos (coste_envio_nacional r) <> 0%Z -> Dec.eqb b_admin b_prop = false).
Proof.
  intros Hp Dp Hv.
  destruct (anotacion_cota r pv Hp Dp Hv) as (b_admin & Hb & Hcota).
  destruct (costes_validos_total r pv Hp Dp Hv) as (_ & H2 & _).
  exists b_admin. eexists. split; [exact Hb|]. split; [exact H2|].
  set (n := centimos (coste_envio_nacional r)) in *.
  assert (EP : Dec.toR (D (Dec.coeff pv - suma_costes r - n) (-2))
               = IZR (Dec.coeff pv - suma_costes r) / 100 - IZR n / 100).
  { unfold D. rewrite toR_mk. change (-2)%Z with (- (2))%Z.
    rewrite p10_neg by lia. change (IZR (10 ^ 2)) with 100.
    rewrite (minus_IZR _ n). field. }
  rewrite EP.
  assert (Hdif : Rabs (Dec.toR b_admin
                       - (IZR (Dec.coeff pv - suma_costes r) / 100 - IZR n / 100)
                       - IZR n / 100) <= / 100000).
  { replace (Dec.toR b_admin
             - (IZR (Dec.coeff pv - suma_costes r) / 100 - IZR n / 100) - IZR n / 100)
      with (Dec.toR b_admin - IZR (Dec.coeff pv - suma_costes r) / 100) by ring.
    exact Hcota. }
  split; [exact Hcota|]. split; [exact Hdif|].
  intros Hn. destruct (Dec.eqb b_admin _) eqn:E; [exfalso|reflexivity].
  apply eqb_toR in E. rewrite EP in E. rewrite E in Hdif.
  apply Rabs_cotas in Hdif.
  assert (Hn1 : (n <= -1 \/ 1 <= n)%Z) by lia.
  destruct Hn1 as [Hn1|Hn1]; apply IZR_le in Hn1; lra.
Qed.

Lemma beneficio_admin_y_propiedad_witness :
  precio_venta articulo_vendido = Some (D 5000 (-2)) /\
  es_dinero (D 5000 (-2)) /\ costes_validos articulo_vendido /\
  exists b_admin b_prop,
    Admin._beneficio articulo_vendido = Some b_admin /\
    beneficio articulo_vendido = Ok (Some b_prop) /\
    Rabs (Dec.toR b_admin
          - IZR (Dec.coeff (D 5000 (-2)) - suma_costes articulo_vendido) / 100)
      <= / 100000 /\
    Rabs (Dec.toR b_admin - Dec.toR b_prop
          - IZR (centimos (coste_envio_nacional articulo_vendido)) / 100) <= / 100000 /\
    (centimos (coste_envio_nacional articulo_vendido) <> 0%Z ->
     Dec.eqb b_admin b_prop = false).
Proof.
  split; [reflexivity|]. split; [split; reflexivity|].
  split; [exact articulo_vendido_valido|].
  exact (beneficio_admin_y_propiedad articulo_vendido (D 5000 (-2)) eq_refl
           (conj eq_refl eq_refl) articulo_vendido_valido).
Defined.

Local Close Scope R_scope.
Local Open Scope Z_scope.

(** The figures of the sold article: the annotation comes back as
    33.4000000000000, the property gives 30.40. *)
Example beneficio_articulo_vendido :
  Admin._beneficio articulo_vendido = Some (D 334000000000000 (-13)) /\
  Admin._coste_total articulo_vendido = D 166000000000000 (-13) /\
  beneficio articulo_vendido = Ok (Some (D 3040 (-2))).
Proof. vm_compute. repeat split; reflexivity. Qed.

Lemma articulo_diez_centimos_valido : costes_validos articulo_diez_centimos.
Proof. repeat split; reflexivity. Qed.

(** C10 as stated fails: for an article bought for 100.00 and sold at
    100.10, without national shipping, the annotation comes back as
    0.0999999999999943 and the property gives 0.10; their difference is
    not the national shipping cost, which is zero. *)
Lemma beneficio_admin_no_exacto :
  precio_venta articulo_diez_centimos = Some (D 10010 (-2)) /\
  es_dinero (D 10010 (-2)) /\ costes_validos articulo_diez_centimos /\
  coste_envio_nacional articulo_diez_centimos = Some (D 0 (-2)) /\
  Admin._beneficio articulo_diez_centimos = Some (D 999999999999943 (-16)) /\
  beneficio articulo_diez_centimos = Ok (Some (D 10 (-2))) /\
  Dec.sub (D 999999999999943 (-16)) (D 10 (-2)) = D (-57) (-16) /\
  Dec.eqb (Dec.sub (D 999999999999943 (-16)) (D 10 (-2))) (D 0 (-2)) = false.
Proof.
  split; [reflexivity|]. split; [split; reflexivity|].
  split; [exact articulo_diez_centimos_valido|].
  vm_compute. repeat split; reflexivity.
Qed.
